(** * decky_plugin_installer.py: the WebSocket client of the Decky plugin installer

    A shallow embedding of [src/decky_plugin_installer.py]: the frame codec
    inside [DeckyClient.send] and [DeckyClient.recv], the message-id counter,
    and the three workflows [run_installer], [configure_store_url] and
    [get_store_url], with the properties the specification states about them. *)

From Stdlib Require Import ZArith NArith Bool Lia String Ascii List.
From Stdlib Require Import Init.Byte DecimalString Sorted Permutation.
Import ListNotations.
Local Open Scope Z_scope.

Set Implicit Arguments.
Local Set Warnings "-register-all".

(* ================================================================== *)
(** * Bytes *)
(* ================================================================== *)

(** A Python [bytes] / [bytearray] value. *)
Definition bytes := list byte.

(** The integer an element of a [bytes] object reads as ([head[1]], [b] in
    [enumerate(payload)]). *)
Definition b2z (b : byte) : Z := Z.of_N (Byte.to_N b).

(** The byte stored by [bytearray.append(v)] / [bytes(...)] for [0 <= v < 256].
    Every value the program stores is in that range (a length code with the
    mask bit, the XOR of two bytes, a byte of [struct.pack]), so the default
    is never reached. *)
Definition z2b (v : Z) : byte :=
  match Byte.of_N (Z.to_N v) with
  | Some b => b
  | None => x00
  end.

(** [b ^ m] on two elements of [bytes] objects. *)
Definition byte_xor (b m : byte) : byte := z2b (Z.lxor (b2z b) (b2z m)).

(** [struct.pack("!H", n)] and [struct.pack("!Q", n)] lay an unsigned integer
    out big-endian on 2 and 8 bytes: [pack_be k n] is that layout on [k]
    bytes. *)
Fixpoint pack_be (k : nat) (n : Z) : bytes :=
  match k with
  | O => []
  | S k' => pack_be k' (n / 256) ++ [z2b (n mod 256)]
  end.

(** [struct.unpack("!H", b)[0]] and [struct.unpack("!Q", b)[0]]: the unsigned
    big-endian reading of the bytes. *)
Definition unpack_be (b : bytes) : Z :=
  fold_left (fun acc x => acc * 256 + b2z x) b 0.

(** [bytes(b ^ mask[i % 4] for i, b in enumerate(payload))], with the
    enumeration index starting at [i]. The mask always has four bytes
    ([os.urandom(4)], [readexactly(4)]). *)
Fixpoint xor_mask_from (i : nat) (mask payload : bytes) : bytes :=
  match payload with
  | [] => []
  | b :: rest =>
      byte_xor b (nth (i mod 4)%nat mask x00) :: xor_mask_from (S i) mask rest
  end.

Definition xor_mask (mask payload : bytes) : bytes := xor_mask_from 0 mask payload.

(* ================================================================== *)
(** * Python strings *)
(* ================================================================== *)

(** A Python [str]: its sequence of code points. *)
Definition str := list N.

(** A literal of the source, such as ["type"] or ["utilities/install_plugin"];
    the literals of the source are ASCII. *)
Definition lit (s : string) : str := map N_of_ascii (list_ascii_of_string s).

(** [s == t] on two [str]. *)
Fixpoint str_eqb (s t : str) : bool :=
  match s, t with
  | [], [] => true
  | a :: s', b :: t' => N.eqb a b && str_eqb s' t'
  | _, _ => false
  end.

(** [s < t] on two [str]: lexicographic on code points, a proper prefix first. *)
Fixpoint str_ltb (s t : str) : bool :=
  match s, t with
  | _, [] => false
  | [], _ :: _ => true
  | a :: s', b :: t' => N.ltb a b || (N.eqb a b && str_ltb s' t')
  end.

(** [str(n)] for an [int]. *)
Definition str_of_int (n : Z) : str :=
  lit (DecimalString.NilZero.string_of_int (Z.to_int n)).

(** A continuation byte [10xxxxxx] of UTF-8. *)
Definition is_cont (b : byte) : bool := (128 <=? b2z b) && (b2z b <=? 191).

(** [payload.decode()]: strict UTF-8; [None] stands for [UnicodeDecodeError]
    (a stray or missing continuation byte, an overlong form, a surrogate, a
    code point above U+10FFFF). *)
Fixpoint utf8_decode (bs : bytes) : option str :=
  match bs with
  | [] => Some []
  | b0 :: t0 =>
      let z0 := b2z b0 in
      if z0 <? 128 then
        option_map (cons (Z.to_N z0)) (utf8_decode t0)
      else if (194 <=? z0) && (z0 <=? 223) then
        match t0 with
        | b1 :: t1 =>
            if is_cont b1 then
              option_map (cons (Z.to_N ((z0 - 192) * 64 + (b2z b1 - 128))))
                         (utf8_decode t1)
            else None
        | _ => None
        end
      else if (224 <=? z0) && (z0 <=? 239) then
        match t0 with
        | b1 :: b2 :: t2 =>
            let cp := (z0 - 224) * 4096 + (b2z b1 - 128) * 64 + (b2z b2 - 128) in
            if is_cont b1 && is_cont b2 && (2048 <=? cp)
               && negb ((55296 <=? cp) && (cp <=? 57343)) then
              option_map (cons (Z.to_N cp)) (utf8_decode t2)
            else None
        | _ => None
        end
      else if (240 <=? z0) && (z0 <=? 244) then
        match t0 with
        | b1 :: b2 :: b3 :: t3 =>
            let cp := (z0 - 240) * 262144 + (b2z b1 - 128) * 4096
                      + (b2z b2 - 128) * 64 + (b2z b3 - 128) in
            if is_cont b1 && is_cont b2 && is_cont b3
               && (65536 <=? cp) && (cp <=? 1114111) then
              option_map (cons (Z.to_N cp)) (utf8_decode t3)
            else None
        | _ => None
        end
      else None
  end.

(** [c.isspace()] for a code point: what [str.strip()] removes. *)
Definition is_space (c : N) : bool :=
  existsb (N.eqb c)
    [9; 10; 11; 12; 13; 28; 29; 30; 31; 32; 133; 160; 5760; 8192; 8193; 8194;
     8195; 8196; 8197; 8198; 8199; 8200; 8201; 8202; 8232; 8233; 8239; 8287;
     12288]%N.

Fixpoint lstrip (s : str) : str :=
  match s with
  | c :: s' => if is_space c then lstrip s' else s
  | [] => []
  end.

(** [s.strip()] *)
Definition strip (s : str) : str := rev (lstrip (rev (lstrip s))).

(* ================================================================== *)
(** * JSON values *)
(* ================================================================== *)

(** What [json.loads] returns and [json.dumps] accepts: [None], [bool], [int],
    [str], [list], [dict] with [str] keys. A [dict] is the list of its items
    in insertion order; [json.loads] builds it with distinct keys. Numbers
    with a fraction or an exponent (Python [float]) are outside the model. *)
Inductive json : Type :=
| JNull
| JBool (b : bool)
| JInt (n : Z)
| JStr (s : str)
| JArr (items : list json)
| JObj (fields : list (str * json)).

(** The first item of a dict with key [k]. *)
Fixpoint lookup (k : str) (fields : list (str * json)) : option json :=
  match fields with
  | [] => None
  | (k', v) :: rest => if str_eqb k k' then Some v else lookup k rest
  end.

(** [bool(v)]: the truth value Python gives [v] in [if v], [not v], [v or w]. *)
Definition truthy (v : json) : bool :=
  match v with
  | JNull => false
  | JBool b => b
  | JInt n => negb (n =? 0)
  | JStr s => match s with [] => false | _ => true end
  | JArr l => match l with [] => false | _ => true end
  | JObj d => match d with [] => false | _ => true end
  end.

(** [v or w] *)
Definition py_or (v w : json) : json := if truthy v then v else w.

(** The integer a [bool] or [int] compares as. *)
Definition as_int (v : json) : option Z :=
  match v with
  | JBool b => Some (if b then 1 else 0)
  | JInt n => Some n
  | _ => None
  end.

(** [v == k] for an [int] constant [k] ([CALL], [REPLY], [ERROR], [EVENT]):
    [True == 1] and [False == 0] hold in Python. *)
Definition eq_int (v : json) (k : Z) : bool :=
  match as_int v with
  | Some n => n =? k
  | None => false
  end.

(** [v == "literal"] *)
Definition eq_str (v : json) (s : str) : bool :=
  match v with
  | JStr t => str_eqb t s
  | _ => false
  end.

(** [a == b] on JSON values: numbers by value ([True == 1]), strings and lists
    item by item, dicts as maps. *)
Fixpoint py_eq (a b : json) {struct a} : bool :=
  match a, b with
  | JNull, JNull => true
  | JStr s, JStr t => str_eqb s t
  | JArr xs, JArr ys =>
      (fix items (xs ys : list json) {struct xs} : bool :=
         match xs, ys with
         | [], [] => true
         | x :: xs', y :: ys' => py_eq x y && items xs' ys'
         | _, _ => false
         end) xs ys
  | JObj d, JObj e =>
      Nat.eqb (length d) (length e) &&
      (fix items (d : list (str * json)) {struct d} : bool :=
         match d with
         | [] => true
         | (k, v) :: d' =>
             match lookup k e with
             | Some w => py_eq v w && items d'
             | None => false
             end
         end) d
  | (JBool _ | JInt _), (JBool _ | JInt _) =>
      match as_int a, as_int b with
      | Some m, Some n => m =? n
      | _, _ => false
      end
  | _, _ => false
  end.

(** [a < b] on JSON values, [None] for the [TypeError] of an unordered pair
    ([None], dicts, a number against a string, ...). Lists compare at their
    first unequal items, or by length. *)
Fixpoint py_lt (a b : json) {struct a} : option bool :=
  match a, b with
  | JStr s, JStr t => Some (str_ltb s t)
  | JArr xs, JArr ys =>
      (fix items (xs ys : list json) {struct xs} : option bool :=
         match xs, ys with
         | _, [] => Some false
         | [], _ :: _ => Some true
         | x :: xs', y :: ys' => if py_eq x y then items xs' ys' else py_lt x y
         end) xs ys
  | (JBool _ | JInt _), (JBool _ | JInt _) =>
      match as_int a, as_int b with
      | Some m, Some n => Some (m <? n)
      | _, _ => None
      end
  | _, _ => None
  end.

(* ================================================================== *)
(** * Exceptions, outcomes and the state monad *)
(* ================================================================== *)

(** The messages of the [RuntimeError]s the program raises; a formatted value
    is kept as the argument. *)
Inductive runtime_msg : Type :=
| PluginIdNotFound (target_id : Z)        (* f"plugin id {target_id} not found" *)
| StoreEntryMissingVersions               (* "store entry missing versions" *)
| LatestVersionMissingArtifactURL         (* "latest version missing artifact URL" *)
| InstallationDidNotComplete              (* "Installation did not complete successfully" *)
| ConnectionClosedByServer                (* "Connection closed by server" *)
| FailedToSetStoreURL (error : json)      (* f"Failed to set store URL: {msg.get('error')}" *)
| FailedToGetStoreURL (error : json)      (* f"Failed to get store URL: {msg.get('error')}" *)
| UnexpectedResponseType.                 (* "Unexpected response type" *)

(** The exceptions the program raises or lets through; all of them are
    subclasses of [Exception]. *)
Inductive exn : Type :=
| IncompleteReadError      (* asyncio: end of file before [n] bytes *)
| ConnectionError          (* the link was dropped (reset, aborted, broken pipe) *)
| StructError              (* struct.error: value out of range for the format *)
| UnicodeDecodeError       (* bytes.decode() on invalid UTF-8 *)
| JSONDecodeError          (* json.loads on text that is not JSON *)
| AttributeError           (* an attribute of [None], [.get] on a non-dict *)
| TypeError
| ValueError
| KeyError
| IndexError
| URLError                 (* urllib: the HTTP request failed *)
| OSError                  (* the TCP connection could not be opened *)
| RuntimeError (m : runtime_msg).

(** What running a piece of the program gives: a value or a raised
    exception. *)
Inductive outcome (A : Type) : Type :=
| Ok (a : A)
| Raise (e : exn).
Arguments Ok {A} a.
Arguments Raise {A} e.

(** The exceptions of [except (asyncio.IncompleteReadError, ConnectionError)]. *)
Definition is_closed_stream_error (e : exn) : bool :=
  match e with
  | IncompleteReadError | ConnectionError => true
  | _ => false
  end.

(** Computations over a state [S] that may raise. *)
Definition ST (S A : Type) : Type := S -> outcome A * S.

Definition ret {S A : Type} (a : A) : ST S A := fun s => (Ok a, s).

Definition raise {S A : Type} (e : exn) : ST S A := fun s => (Raise e, s).

Definition lift {S A : Type} (o : outcome A) : ST S A := fun s => (o, s).

Definition bind {S A B : Type} (c : ST S A) (k : A -> ST S B) : ST S B :=
  fun s =>
    match c s with
    | (Ok a, s') => k a s'
    | (Raise e, s') => (Raise e, s')
    end.

Declare Scope st_scope.
Delimit Scope st_scope with st.
Notation "x <- c ;; k" := (bind c (fun x => k))
  (at level 61, c at next level, right associativity) : st_scope.
Notation "c ;; k" := (bind c (fun _ => k))
  (at level 61, right associativity) : st_scope.
Local Open Scope st_scope.

(** [try: c  except <handles>: handler] *)
Definition try_except {S A : Type} (c : ST S A) (handles : exn -> bool)
    (handler : exn -> ST S A) : ST S A :=
  fun s =>
    match c s with
    | (Raise e, s') => if handles e then handler e s' else (Raise e, s')
    | r => r
    end.

(* ================================================================== *)
(** * Dynamic operations on JSON values *)
(* ================================================================== *)

(** The value of a dict under [key], or [default]. *)
Definition field (key : string) (default : json) (d : list (str * json)) : json :=
  match lookup (lit key) d with
  | Some x => x
  | None => default
  end.

(** [v.get(key, default)]; [AttributeError] when [v] is not a dict. *)
Definition dict_get (key : string) (default : json) (v : json) : outcome json :=
  match v with
  | JObj d => Ok (field key default d)
  | _ => Raise AttributeError
  end.

(** [len(v)] *)
Definition py_len (v : json) : outcome Z :=
  match v with
  | JStr s => Ok (Z.of_nat (length s))
  | JArr l => Ok (Z.of_nat (length l))
  | JObj d => Ok (Z.of_nat (length d))
  | _ => Raise TypeError
  end.

(** [v[i]] for an index [i >= 0]; a dict of [json.loads] has no [int] key. *)
Definition py_getitem (v : json) (i : nat) : outcome json :=
  match v with
  | JArr l => match nth_error l i with Some x => Ok x | None => Raise IndexError end
  | JStr s => match nth_error s i with Some c => Ok (JStr [c]) | None => Raise IndexError end
  | JObj _ => Raise KeyError
  | _ => Raise TypeError
  end.

(** [iter(v)]: the items a [for] loop or [sorted] goes through. *)
Definition py_iter (v : json) : outcome (list json) :=
  match v with
  | JArr l => Ok l
  | JStr s => Ok (map (fun c => JStr [c]) s)
  | JObj d => Ok (map (fun kv => JStr (fst kv)) d)
  | _ => Raise TypeError
  end.

(* ================================================================== *)
(** * The stream reader *)
(* ================================================================== *)

(** How the peer ends the stream: a clean end of file, or an abrupt drop
    (connection reset), which asyncio reports as a [ConnectionError]. *)
Inductive closing : Type := Eof | Reset.

(** [asyncio.StreamReader], seen from the client: the bytes the peer delivers
    before the stream ends, and the way it ends. *)
Record StreamReader : Type := mkReader {
  incoming : bytes;
  ending : closing
}.

(** [await reader.readexactly(n)]: the next [n] bytes, whatever the number of
    socket reads it takes; [IncompleteReadError] when a clean end of file
    comes first (the partial data is dropped from the buffer), the connection
    error when the link is dropped first. The way the stream ends is met
    when a read needs more bytes than were delivered: the bytes delivered
    before a drop are read first, and [readexactly(0)] returns [b""] without
    waiting for the transport. A peer that stays silent without closing
    (a read that never returns) is not modelled. *)
Definition readexactly (n : Z) : ST StreamReader bytes := fun r =>
  if n <=? Z.of_nat (length (incoming r)) then
    (Ok (firstn (Z.to_nat n) (incoming r)),
     mkReader (skipn (Z.to_nat n) (incoming r)) (ending r))
  else
    match ending r with
    | Eof => (Raise IncompleteReadError, mkReader [] Eof)
    | Reset => (Raise ConnectionError, mkReader [] Reset)
    end.

(* ================================================================== *)
(** * Frame codec *)
(* ================================================================== *)

(** The length part of the frame header built in [send]:
    [length | 0x80] inline, or [126 | 0x80] and [struct.pack("!H", length)],
    or [127 | 0x80] and [struct.pack("!Q", length)], which raises
    [struct.error] from [2^64] on. *)
Definition length_header (len : Z) : outcome bytes :=
  if len <? 126 then Ok [z2b (Z.lor len 128)]
  else if len <? 65536 then Ok (z2b (Z.lor 126 128) :: pack_be 2 len)
  else if len <? 2 ^ 64 then Ok (z2b (Z.lor 127 128) :: pack_be 8 len)
  else Raise StructError.

(** The frame [send] writes for the serialized message [payload] and the four
    bytes [mask] of [os.urandom(4)]: [0x81] (FIN, opcode Text), the length
    header with the mask bit, the mask, the masked payload. *)
Definition text_frame (mask payload : bytes) : outcome bytes :=
  match length_header (Z.of_nat (length payload)) with
  | Ok hdr => Ok (x81 :: hdr ++ mask ++ xor_mask mask payload)
  | Raise e => Raise e
  end.

(** The length field as the specification words it: the 7-bit code is the
    length itself below 126, else 126 below 65536, else 127; the extended
    length takes 0, 2 or 8 bytes. *)
Definition length_code (len : Z) : Z :=
  if len <? 126 then len else if len <? 65536 then 126 else 127.

Definition ext_width (len : Z) : nat :=
  if len <? 126 then 0%nat else if len <? 65536 then 2%nat else 8%nat.

(** The body of [recv] up to the unmasked payload: two header bytes, the
    extended length when the 7-bit code is 126 or 127, the mask when the mask
    bit is set, then exactly [len] payload bytes. The opcode in [head[0]]
    is not looked at. *)
Definition read_frame : ST StreamReader bytes :=
  head <- readexactly 2 ;;
  let has_mask := Z.land (b2z (nth 1 head x00)) 128 in
  let code := Z.land (b2z (nth 1 head x00)) 127 in
  len <- (if code =? 126 then
            ext_len <- readexactly 2 ;; ret (unpack_be ext_len)
          else if code =? 127 then
            ext_len <- readexactly 8 ;; ret (unpack_be ext_len)
          else ret code) ;;
  mask <- (if negb (has_mask =? 0) then
             m <- readexactly 4 ;; ret (Some m)
           else ret None) ;;
  payload_raw <- readexactly len ;;
  ret (match mask with
       | Some m => xor_mask m payload_raw
       | None => payload_raw
       end).

(* ================================================================== *)
(** * The client and its surroundings *)
(* ================================================================== *)

(** Decky Loader message types. *)
Definition CALL : Z := 0.
Definition REPLY : Z := 1.
Definition ERROR : Z := -1.
Definition EVENT : Z := 3.

(** [msg.get("type") == EVENT and msg.get("event") == name] on a dict. *)
Definition is_event (name : string) (d : list (str * json)) : bool :=
  eq_int (field "type" JNull d) EVENT && eq_str (field "event" JNull d) (lit name).

Definition DEFAULT_STORE_URL : str := lit "https://plugins.deckbrew.xyz/plugins".

(** [f"http://{self.host}:{self.port}/auth/token"] with the default host and
    port of [DeckyClient()]. *)
Definition token_url : str := lit "http://127.0.0.1:1337/auth/token".

(** What [writer.write] is given: the HTTP Upgrade request of [connect]
    (kept as the token and the 16 key bytes it is built from), or the bytes
    of one WebSocket frame. *)
Inductive wire : Type :=
| Handshake (token : str) (key : bytes)
| Frame (frame : bytes).

(** [asyncio.StreamWriter]: what has been written, in order, and whether
    [writer.close()] has been called. *)
Record StreamWriter : Type := mkWriter {
  written : list wire;
  writer_closed : bool
}.

(** The fields of [DeckyClient] the workflows use ([host] and [port] keep
    their defaults). *)
Record DeckyClient : Type := mkClient {
  reader : option StreamReader;
  writer : option StreamWriter;
  msg_id : Z
}.

(** The lines [log] prints to stderr, with the values they format. *)
Inductive log_line : Type :=
| LogContacting
| LogConnectionEstablished (target_id : Z)
| LogInstalling (plugin_name version_name : json)
| LogConnectionClosed
| LogInvalidPromptArgs (m_args : json)
| LogPromptReceived
| LogInstallationSuccessful (args : json)
| LogServerReply (result : json)
| LogServerError (error : json)
| LogError (e : exn)
| LogConnecting
| LogSettingStoreURL (store_url : str)
| LogStoreConfigured (result : json)
| LogGettingStoreURL
| LogCurrentStoreURL (store_url : json).

(** The state a workflow runs in: its client, the number of bytes taken from
    [os.urandom] so far, and the lines logged. *)
Record World : Type := mkWorld {
  client : DeckyClient;
  entropy_used : nat;
  stderr : list log_line
}.

Definition M (A : Type) : Type := ST World A.

(** [DeckyClient()] *)
Definition new_client : DeckyClient := mkClient None None 0.

Definition set_client (c : DeckyClient) (w : World) : World :=
  mkWorld c (entropy_used w) (stderr w).

(** [log(...)] *)
Definition log (l : log_line) : M unit :=
  fun w => (Ok tt, mkWorld (client w) (entropy_used w) (stderr w ++ [l])).

Definition set_reader (r : StreamReader) (w : World) : World :=
  set_client (mkClient (Some r) (writer (client w)) (msg_id (client w))) w.

Definition set_writer (wr : StreamWriter) (w : World) : World :=
  set_client (mkClient (reader (client w)) (Some wr) (msg_id (client w))) w.

Definition set_msg_id (n : Z) (w : World) : World :=
  set_client (mkClient (reader (client w)) (writer (client w)) n) w.

(** [self.writer.write(data)] followed by [drain()]; [AttributeError] when
    [self.writer] is [None]. A write on an open connection is taken to
    succeed: a [drain()] that fails on a dropped link is not modelled. *)
Definition write (data : wire) : M unit :=
  fun w =>
    match writer (client w) with
    | None => (Raise AttributeError, w)
    | Some wr =>
        (Ok tt, set_writer (mkWriter (written wr ++ [data]) (writer_closed wr)) w)
    end.

(** Reads done on [self.reader]; [AttributeError] when it is [None]. *)
Definition with_reader {A : Type} (c : ST StreamReader A) : M A :=
  fun w =>
    match reader (client w) with
    | None => (Raise AttributeError, w)
    | Some r => let (o, r') := c r in (o, set_reader r' w)
    end.

(** [{"type": msg_type, "id": self.msg_id, "route": method, "args": args}] *)
Definition message_dict (msg_type id : Z) (method : str) (args : list json) : json :=
  JObj [(lit "type", JInt msg_type); (lit "id", JInt id);
        (lit "route", JStr method); (lit "args", JArr args)].

(** The Close frame of [close]: [0x88], [0x80 | 2], the mask, and the masked
    big-endian status code 1000. *)
Definition close_frame (mask : bytes) : bytes :=
  let payload := pack_be 2 1000 in
  x88 :: z2b (Z.lor 128 (Z.of_nat (length payload))) :: mask ++ xor_mask mask payload.

(** A Python value that may be [None]: [None] itself is what [null] is
    parsed to. *)
Definition as_optional (v : json) : option json :=
  match v with
  | JNull => None
  | _ => Some v
  end.

(** [self.writer.close()] *)
Definition writer_close : M unit :=
  fun w =>
    match writer (client w) with
    | Some wr => (Ok tt, set_writer (mkWriter (written wr) true) w)
    | None => (Raise AttributeError, w)
    end.

(** Whether the peer has dropped the link by the time the client closes it:
    the stream the client reads from ends in a reset, not in a clean end of
    file. *)
Definition link_dropped (w : World) : bool :=
  match reader (client w) with
  | Some r => match ending r with Reset => true | Eof => false end
  | None => false
  end.

(** [await self.writer.wait_closed()]: it returns once the transport is
    closed, and raises the connection error the transport was lost with
    ([ConnectionResetError], a [ConnectionError]) when the peer had dropped
    the link. *)
Definition wait_closed : M unit :=
  fun w => if link_dropped w then (Raise ConnectionError, w) else (Ok tt, w).

Section Client.

(** The surroundings of the program, which its text does not fix: the
    operating system's random bytes, the HTTP server behind [urlopen], the
    peer behind [asyncio.open_connection], and the library functions
    [json.dumps], [json.loads] and [int] on a string. *)

(** The [i]-th byte [os.urandom] delivers during the run. *)
Variable urandom : nat -> byte.

(** [urllib.request.urlopen(url, timeout=...)] followed by [response.read()]:
    the body, or the exception of a failed request. *)
Variable urlopen : str -> outcome bytes.

(** [asyncio.open_connection(host, port)]: whether the TCP connection opens. *)
Variable open_connection : outcome unit.

(** The header loop of [connect] for the request built from a token and a
    key: whether it ends well (a [101 Switching Protocols] answer), and the
    reader as it leaves it, from which the frames are read. *)
Variable handshake : str -> bytes -> outcome unit * StreamReader.

(** [json.dumps(d).encode()] *)
Variable json_dumps : json -> bytes.

(** [json.loads(s)] on a [str]; [JSONDecodeError] on text that is not JSON. *)
Variable json_loads : str -> outcome json.

(** [int(s)] on a [str]; [None] for its [ValueError]. *)
Variable int_of_str : str -> option Z.

(** [os.urandom(n)] *)
Definition os_urandom (n : nat) : M bytes :=
  fun w =>
    (Ok (map urandom (seq (entropy_used w) n)),
     mkWorld (client w) (entropy_used w + n) (stderr w)).

(** [payload.decode()] *)
Definition decode {S : Type} (b : bytes) : ST S str :=
  match utf8_decode b with
  | Some s => ret s
  | None => raise UnicodeDecodeError
  end.

(** [DeckyClient.get_token] *)
Definition get_token : M str :=
  body <- lift (urlopen token_url) ;;
  s <- decode body ;;
  ret (strip s).

(** [DeckyClient.connect]: the connection is opened (reader and writer are
    set), the Upgrade request with a fresh 16-byte key is written, and the
    answer is read; what the answer is comes from [handshake]. *)
Definition connect (token : str) : M unit :=
  lift open_connection ;;
  (fun w => (Ok tt, set_writer (mkWriter [] false) (set_reader (mkReader [] Eof) w))) ;;
  key <- os_urandom 16 ;;
  write (Handshake token key) ;;
  (fun w => let (o, r) := handshake token key in (o, set_reader r w)).

(** [DeckyClient.send] *)
Definition send (msg_type : Z) (method : string) (args : list json) : M unit :=
  (fun w => (Ok tt, set_msg_id (msg_id (client w) + 1) w)) ;;
  id <- (fun w => (Ok (msg_id (client w)), w)) ;;
  let payload := json_dumps (message_dict msg_type id (lit method) args) in
  hdr <- lift (length_header (Z.of_nat (length payload))) ;;
  mask <- os_urandom 4 ;;
  write (Frame (x81 :: hdr ++ mask ++ xor_mask mask payload)).

(** [DeckyClient.recv]: the value of [json.loads] is returned as it is, so
    the text [null] gives Python's [None], the value the [except] clause
    returns too. *)
Definition recv : M (option json) :=
  try_except
    (payload_raw <- with_reader read_frame ;;
     s <- decode payload_raw ;;
     msg <- lift (json_loads s) ;;
     ret (as_optional msg))
    is_closed_stream_error
    (fun _ => ret None).

(** [DeckyClient.close]: nothing without a writer. Else the Close frame is
    built and written inside [try: ... except Exception: pass], which
    swallows every exception of the model; the [finally] clause, outside
    that [try], closes the writer and awaits [wait_closed], whose exception
    leaves [close]. *)
Definition close : M unit :=
  fun w =>
    match writer (client w) with
    | None => (Ok tt, w)
    | Some _ =>
        (try_except
           (mask <- os_urandom 4 ;;
            write (Frame (close_frame mask)))
           (fun _ => true)
           (fun _ => ret tt) ;;
         writer_close ;;
         wait_closed) w
    end.

(** ** The catalog step of [run_installer] *)

(** [int(v)] *)
Definition py_int (v : json) : outcome Z :=
  match v with
  | JInt n => Ok n
  | JBool b => Ok (if b then 1 else 0)
  | JStr s => match int_of_str s with Some n => Ok n | None => Raise ValueError end
  | _ => Raise TypeError
  end.

Definition obind {A B : Type} (o : outcome A) (k : A -> outcome B) : outcome B :=
  match o with
  | Ok a => k a
  | Raise e => Raise e
  end.

(** [int(p.get("id"))] *)
Definition entry_id (p : json) : outcome Z :=
  obind (dict_get "id" JNull p) py_int.

(** [next((p for p in plugins if int(p.get("id")) == int(target_id)), None)],
    over the items of [plugins]: the first match, with the exceptions of the
    entries looked at before it. *)
Fixpoint find_plugin (plugins : list json) (target_id : Z) : outcome json :=
  match plugins with
  | [] => Ok JNull
  | p :: rest =>
      obind (entry_id p) (fun n =>
      if n =? target_id then Ok p else find_plugin rest target_id)
  end.

(** [lambda v: (v.get("name") or "")] *)
Definition version_key (v : json) : outcome json :=
  obind (dict_get "name" JNull v) (fun name => Ok (py_or name (JStr []))).

(** The keys [sorted] computes for all items before it compares any. *)
Fixpoint keyed (versions : list json) : outcome (list (json * json)) :=
  match versions with
  | [] => Ok []
  | v :: rest =>
      obind (version_key v) (fun k =>
      obind (keyed rest) (fun l => Ok ((k, v) :: l)))
  end.

(** One insertion of a stable sort that compares with [<] only: [x] goes
    before the first item it is smaller than, after every item it is equal
    to; [TypeError] when a comparison made is between unordered keys. *)
Fixpoint insert_keyed (x : json * json) (l : list (json * json))
    : outcome (list (json * json)) :=
  match l with
  | [] => Ok [x]
  | y :: l' =>
      match py_lt (fst x) (fst y) with
      | None => Raise TypeError
      | Some true => Ok (x :: l)
      | Some false => obind (insert_keyed x l') (fun l'' => Ok (y :: l''))
      end
  end.

(** [sorted(..., key=...)] on the keyed items, taken from left to right.
    Python's sort is stable; where [<] is a total order on the keys (as on
    strings) any stable sort gives this list. *)
Fixpoint sort_keyed (acc l : list (json * json)) : outcome (list (json * json)) :=
  match l with
  | [] => Ok acc
  | x :: l' => obind (insert_keyed x acc) (fun acc' => sort_keyed acc' l')
  end.

(** [sorted(versions, key=lambda v: (v.get("name") or ""))[-1]] *)
Definition latest_version (versions : json) : outcome json :=
  obind (py_iter versions) (fun vs =>
  obind (keyed vs) (fun kvs =>
  obind (sort_keyed [] kvs) (fun sorted =>
  match rev sorted with
  | (_, v) :: _ => Ok v
  | [] => Raise IndexError
  end))).

(** Lines 174 to 188 of [run_installer]: from the store's plugin list and the
    target id to the arguments of the install Call,
    [[artifact_url, plugin_name, version_name, hash_, 0]]. *)
Definition catalog_step (plugins : json) (target_id : Z) : outcome (list json) :=
  obind (py_iter plugins) (fun ps =>
  obind (find_plugin ps target_id) (fun target =>
  if negb (truthy target) then Raise (RuntimeError (PluginIdNotFound target_id))
  else
  obind (dict_get "name" JNull target) (fun name =>
  let plugin_name := py_or name (JStr (lit "plugin-" ++ str_of_int target_id)) in
  obind (dict_get "versions" JNull target) (fun vs =>
  let versions := py_or vs (JArr []) in
  if negb (truthy versions) then Raise (RuntimeError StoreEntryMissingVersions)
  else
  obind (latest_version versions) (fun latest =>
  obind (dict_get "name" JNull latest) (fun lname =>
  let version_name := py_or lname (JStr (lit "dev")) in
  obind (dict_get "artifact" JNull latest) (fun lart =>
  let artifact_url := py_or lart (JStr []) in
  obind (dict_get "hash" JNull latest) (fun lhash =>
  let hash_ := py_or lhash (JStr []) in
  if negb (truthy artifact_url)
  then Raise (RuntimeError LatestVersionMissingArtifactURL)
  else Ok [artifact_url; plugin_name; version_name; hash_; JInt 0])))))))).

(* ------------------------------------------------------------------ *)
(** ** The workflows *)

(** The [while True] loop of [run_installer], run for at most [fuel]
    iterations: [Some success] with the flag [success] at the [break], or
    [None] when the loop is still running after [fuel] iterations. *)
Fixpoint install_loop (fuel : nat) : M (option bool) :=
  match fuel with
  | O => ret None
  | S fuel' =>
      msg <- recv ;;
      match msg with
      | None => log LogConnectionClosed ;; ret (Some false)
      | Some msg =>
          m_type <- lift (dict_get "type" JNull msg) ;;
          event <- lift (dict_get "event" JNull msg) ;;
          if eq_int m_type EVENT
             && eq_str event (lit "loader/add_plugin_install_prompt") then
            m_args <- lift (dict_get "args" (JArr []) msg) ;;
            n <- lift (py_len m_args) ;;
            if n <? 3 then
              log (LogInvalidPromptArgs m_args) ;;
              install_loop fuel'
            else
              request_id <- lift (py_getitem m_args 2) ;;
              log LogPromptReceived ;;
              send CALL "utilities/confirm_plugin_install" [request_id] ;;
              install_loop fuel'
          else if eq_int m_type EVENT
                  && eq_str event (lit "loader/plugin_download_finish") then
            args <- lift (dict_get "args" JNull msg) ;;
            log (LogInstallationSuccessful args) ;;
            ret (Some true)
          else if eq_int m_type REPLY then
            result <- lift (dict_get "result" JNull msg) ;;
            log (LogServerReply result) ;;
            install_loop fuel'
          else if eq_int m_type ERROR then
            error <- lift (dict_get "error" JNull msg) ;;
            log (LogServerError error) ;;
            install_loop fuel'
          else install_loop fuel'
      end
  end.

(** The [try] block of [run_installer]. *)
Definition installer_body (fuel : nat) (target_id : Z) (store_url : str)
    : M (option bool) :=
  log LogContacting ;;
  token <- get_token ;;
  connect token ;;
  log (LogConnectionEstablished target_id) ;;
  store_body <- lift (urlopen store_url) ;;
  store_raw <- decode store_body ;;
  plugins <- lift (json_loads store_raw) ;;
  call_args <- lift (catalog_step plugins target_id) ;;
  log (LogInstalling (nth 1 call_args JNull) (nth 2 call_args JNull)) ;;
  send CALL "utilities/install_plugin" call_args ;;
  install_loop fuel.

(** The [except Exception] and [finally] clauses of [run_installer] and the
    two [raise] after them, around a [try] block [body]; nothing of them has
    run while the loop of [body] is still running. *)
Definition installer_outcome (body : M (option bool)) : M (option unit) :=
  fun w =>
    match body w with
    | (Ok (Some success), w') =>
        (close ;;
         if success then ret (Some tt)
         else raise (RuntimeError InstallationDidNotComplete)) w'
    | (Ok None, w') => (Ok None, w')
    | (Raise e, w') => (log (LogError e) ;; close ;; raise e) w'
    end.

(** [run_installer(target_id, store_url)], with a bound on the iterations of
    its receive loop: [Ok (Some tt)] when it returns, [Raise e] when it
    raises. *)
Definition run_installer (fuel : nat) (target_id : Z) (store_url : str)
    : M (option unit) :=
  fun w =>
    installer_outcome (installer_body fuel target_id store_url)
      (set_client new_client w).

(** [try: body  except Exception as e: log(e); raise  finally: close()] of the
    two settings flows. *)
Definition settings_outcome {A : Type} (body : M A) : M A :=
  fun w =>
    match body w with
    | (Ok a, w') => (close ;; ret a) w'
    | (Raise e, w') => (log (LogError e) ;; close ;; raise e) w'
    end.

(** The [try] block of [configure_store_url]. *)
Definition configure_body (store_url : str) : M unit :=
  log LogConnecting ;;
  token <- get_token ;;
  connect token ;;
  log (LogSettingStoreURL store_url) ;;
  send CALL "utilities/settings/set" [JStr (lit "store_url"); JStr store_url] ;;
  msg <- recv ;;
  match msg with
  | None => raise (RuntimeError ConnectionClosedByServer)
  | Some msg =>
      m_type <- lift (dict_get "type" JNull msg) ;;
      if eq_int m_type REPLY then
        result <- lift (dict_get "result" JNull msg) ;;
        log (LogStoreConfigured result)
      else if eq_int m_type ERROR then
        error <- lift (dict_get "error" JNull msg) ;;
        log (LogServerError error) ;;
        raise (RuntimeError (FailedToSetStoreURL error))
      else ret tt
  end.

(** [configure_store_url(store_url)] *)
Definition configure_store_url (store_url : str) : M unit :=
  fun w => settings_outcome (configure_body store_url) (set_client new_client w).

(** The [try] block of [get_store_url]. *)
Definition get_body : M json :=
  log LogConnecting ;;
  token <- get_token ;;
  connect token ;;
  log LogGettingStoreURL ;;
  send CALL "utilities/settings/get" [JStr (lit "store_url"); JStr DEFAULT_STORE_URL] ;;
  msg <- recv ;;
  match msg with
  | None => raise (RuntimeError ConnectionClosedByServer)
  | Some msg =>
      m_type <- lift (dict_get "type" JNull msg) ;;
      if eq_int m_type REPLY then
        store_url <- lift (dict_get "result" JNull msg) ;;
        log (LogCurrentStoreURL store_url) ;;
        ret store_url
      else if eq_int m_type ERROR then
        error <- lift (dict_get "error" JNull msg) ;;
        log (LogServerError error) ;;
        raise (RuntimeError (FailedToGetStoreURL error))
      else raise (RuntimeError UnexpectedResponseType)
  end.

(** [get_store_url()] *)
Definition get_store_url : M json :=
  fun w => settings_outcome get_body (set_client new_client w).

End Client.

(* ================================================================== *)
(** * Predicates used in the statements *)
(* ================================================================== *)

(** The state of a workflow once [connect] has returned: the reader at the
    first frame, the Upgrade request written, the counter at 0, sixteen
    random bytes used for the key. *)
Definition after_connect (w : World) (token : str) (key : bytes)
    (r : StreamReader) (logged : list log_line) : World :=
  mkWorld (mkClient (Some r) (Some (mkWriter [Handshake token key] false)) 0)
          (entropy_used w + 16) (stderr w ++ logged).

(** Whether [close] raises: it does on an open connection whose link the
    peer has dropped, at [wait_closed]. *)
Definition close_raises (w : World) : bool :=
  match writer (client w) with
  | Some _ => link_dropped w
  | None => false
  end.

(** The outcome of a workflow once its [finally: close()] has run in the
    state [w]: the outcome [o] of what came before, unless [close] raises,
    when its error takes the place of [o]. *)
Definition finally_close {A : Type} (w : World) (o : outcome A) : outcome A :=
  if close_raises w then Raise ConnectionError else o.

(** A reader computation that does not change the way the stream ends. *)
Definition keeps_ending {A : Type} (c : ST StreamReader A) : Prop :=
  forall r, ending (snd (c r)) = ending r.

(** [env] is a JSON object with the four fields of a message to Decky
    Loader. *)
Definition is_envelope (msg_type id : Z) (route : string) (args : list json)
    (env : json) : Prop :=
  exists d, env = JObj d /\
    field "type" JNull d = JInt msg_type /\
    field "id" JNull d = JInt id /\
    field "route" JNull d = JStr (lit route) /\
    field "args" JNull d = JArr args.

(** The frame [f] carries such a message: it is the text frame, masked with
    [mask], of the serialization of an envelope, which is what the frame
    reader gets back from it. *)
Definition carries_call (json_dumps : json -> bytes) (mask : bytes)
    (msg_type id : Z) (route : string) (args : list json) (f : bytes) : Prop :=
  exists env,
    is_envelope msg_type id route args env /\
    text_frame mask (json_dumps env) = Ok f /\
    forall rest e,
      read_frame (mkReader (f ++ rest) e) = (Ok (json_dumps env), mkReader rest e).

(** The writer of a workflow that has connected, sent no Call, and closed:
    the Upgrade request and the Close frame, nothing else. *)
Definition only_handshake_and_close (urandom : nat -> byte) (w : World)
    (token : str) : StreamWriter :=
  mkWriter [Handshake token (map urandom (seq (entropy_used w) 16));
            Frame (close_frame (map urandom (seq (entropy_used w + 16) 4)))]
           true.

(** The state of a settings flow once its Call is sent: the Upgrade request
    and the frame [f] of the Call written, the counter at 1. *)
Definition after_call (w : World) (token : str) (key : bytes) (r : StreamReader)
    (f : bytes) (logged : list log_line) : World :=
  mkWorld (mkClient (Some r) (Some (mkWriter [Handshake token key; Frame f] false)) 1)
          (entropy_used w + 16 + 4) (stderr w ++ logged).

(** The writer of a settings flow at its end: the Upgrade request, one Call,
    the Close frame. *)
Definition one_call_and_close (urandom : nat -> byte) (w : World) (token : str)
    (f : bytes) : StreamWriter :=
  mkWriter [Handshake token (map urandom (seq (entropy_used w) 16));
            Frame f;
            Frame (close_frame (map urandom (seq (entropy_used w + 16 + 4) 4)))]
           true.

(** The number of bytes the peer has still to deliver. *)
Definition pending (w : World) : nat :=
  match reader (client w) with
  | Some r => length (incoming r)
  | None => 0%nat
  end.

(** A reader computation never leaves more bytes than it found. *)
Definition shrinking {A : Type} (c : ST StreamReader A) : Prop :=
  forall r o r', c r = (o, r') -> (length (incoming r') <= length (incoming r))%nat.

(** A store entry whose id normalizes to an integer other than the target. *)
Definition no_match (int_of_str : str -> option Z) (target_id : Z) (p : json) : Prop :=
  exists n, entry_id int_of_str p = Ok n /\ n <> target_id.

(** The name a version is sorted by, when it is a string: the version is a
    dict and its ["name"] is a string, or is missing, [None] or otherwise
    false, in which case the key is [""]. *)
Definition name_key (v : json) : option str :=
  match v with
  | JObj d =>
      match lookup (lit "name") d with
      | Some (JStr s) => Some s
      | Some x => if truthy x then None else Some []
      | None => Some []
      end
  | _ => None
  end.

(** Items ordered by [<] on string keys: no item is smaller than one before it. *)
Definition key_le (a b : json * json) : Prop := py_lt (fst b) (fst a) = Some false.

Definition str_key (a : json * json) : Prop := exists s, fst a = JStr s.

(** A reader computation is prefix-stable when, run on a stream cut short, it
    either fails with the error of a closed stream, or returns what it
    returns on the whole stream, having consumed the same bytes. *)
Definition prefix_stable {A : Type} (c : ST StreamReader A) : Prop :=
  forall (p q : bytes) (e e' : closing),
    match c (mkReader p e') with
    | (Ok x, r') =>
        exists p', r' = mkReader p' e' /\
                   c (mkReader (p ++ q) e) = (Ok x, mkReader (p' ++ q) e)
    | (Raise x, _) => is_closed_stream_error x = true
    end.

Section Sends.

Variable urandom : nat -> byte.
Variable json_dumps : json -> bytes.

(** The frame of the Call [(msg_type, method, args)] serialized with [id],
    masked with the four random bytes from position [pos] on. *)
Definition call_frame (pos : nat) (msg_type id : Z) (method : string)
    (args : list json) : outcome bytes :=
  text_frame (map urandom (seq pos 4))
             (json_dumps (message_dict msg_type id (lit method) args)).

(** Consecutive [send]s on one connection. *)
Fixpoint send_all (calls : list (Z * string * list json)) : M unit :=
  match calls with
  | [] => ret tt
  | (msg_type, method, args) :: rest =>
      send urandom json_dumps msg_type method args ;; send_all rest
  end.

End Sends.

(* ================================================================== *)
(** * Reference surroundings *)
(* ================================================================== *)

(** Concrete stand-ins for the library functions and the peer, with which
    the model runs on concrete streams: a writer and a reader for JSON
    without floating-point numbers, [int] on plain decimal strings, and
    unmasked server frames. *)
Module Ref.

Definition hex_digit (n : N) : N := (if n <? 10 then 48 + n else 87 + n)%N.

(** [\uXXXX] *)
Definition u_escape (c : N) : str :=
  [92; 117; hex_digit (c / 4096 mod 16); hex_digit (c / 256 mod 16);
   hex_digit (c / 16 mod 16); hex_digit (c mod 16)]%N.

(** One character of a string under [json.dumps] with [ensure_ascii]. *)
Definition escape_char (c : N) : str :=
  (if c =? 34 then [92; 34]
   else if c =? 92 then [92; 92]
   else if c =? 10 then [92; 110]
   else if c =? 13 then [92; 114]
   else if c =? 9 then [92; 116]
   else if c =? 8 then [92; 98]
   else if c =? 12 then [92; 102]
   else if (32 <=? c) && (c <=? 126) then [c]
   else if c <? 65536 then u_escape c
   else u_escape (55296 + (c - 65536) / 1024)
        ++ u_escape (56320 + (c - 65536) mod 1024))%N.

Definition dumps_str (s : str) : str := [34%N] ++ flat_map escape_char s ++ [34%N].

(** [json.dumps(v)] with its default separators. *)
Fixpoint dumps (v : json) : str :=
  match v with
  | JNull => lit "null"
  | JBool true => lit "true"
  | JBool false => lit "false"
  | JInt n => str_of_int n
  | JStr s => dumps_str s
  | JArr l =>
      lit "[" ++
      (fix items (l : list json) : str :=
         match l with
         | [] => []
         | [x] => dumps x
         | x :: l' => dumps x ++ lit ", " ++ items l'
         end) l ++ lit "]"
  | JObj d =>
      lit "{" ++
      (fix items (d : list (str * json)) : str :=
         match d with
         | [] => []
         | [(k, x)] => dumps_str k ++ lit ": " ++ dumps x
         | (k, x) :: d' => dumps_str k ++ lit ": " ++ dumps x ++ lit ", " ++ items d'
         end) d ++ lit "}"
  end.

(** [json.dumps(v).encode()]: the text is ASCII. *)
Definition json_dumps (v : json) : bytes := map (fun c => z2b (Z.of_N c)) (dumps v).

Fixpoint skip_ws (s : str) : str :=
  match s with
  | c :: s' =>
      if ((c =? 32) || (c =? 9) || (c =? 10) || (c =? 13))%N then skip_ws s' else s
  | [] => []
  end.

Definition hex_val (c : N) : option N :=
  (if (48 <=? c) && (c <=? 57) then Some (c - 48)
   else if (97 <=? c) && (c <=? 102) then Some (c - 87)
   else if (65 <=? c) && (c <=? 70) then Some (c - 55)
   else None)%N.

Definition hex4 (a b c d : N) : option N :=
  match hex_val a, hex_val b, hex_val c, hex_val d with
  | Some x, Some y, Some z, Some t => Some (x * 4096 + y * 256 + z * 16 + t)%N
  | _, _, _, _ => None
  end.

(** The rest of a string literal after its opening quote: the characters up
    to the closing quote, with the escapes resolved, and what follows. *)
Fixpoint parse_string (s : str) (acc : str) : option (str * str) :=
  match s with
  | [] => None
  | c :: s' =>
      (if c =? 34 then Some (rev acc, s')
       else if c =? 92 then
         match s' with
         | [] => None
         | e :: s'' =>
             if e =? 117 then
               match s'' with
               | h1 :: h2 :: h3 :: h4 :: s3 =>
                   match hex4 h1 h2 h3 h4 with
                   | None => None
                   | Some cu =>
                       match s3 with
                       | 92 :: 117 :: g1 :: g2 :: g3 :: g4 :: s4 =>
                           match hex4 g1 g2 g3 g4 with
                           | Some cu2 =>
                               if (55296 <=? cu) && (cu <=? 56319)
                                  && (56320 <=? cu2) && (cu2 <=? 57343)
                               then parse_string s4
                                      (65536 + (cu - 55296) * 1024 + (cu2 - 56320) :: acc)
                               else parse_string s3 (cu :: acc)
                           | None => parse_string s3 (cu :: acc)
                           end
                       | _ => parse_string s3 (cu :: acc)
                       end
                   end
               | _ => None
               end
             else if e =? 34 then parse_string s'' (34 :: acc)
             else if e =? 92 then parse_string s'' (92 :: acc)
             else if e =? 47 then parse_string s'' (47 :: acc)
             else if e =? 98 then parse_string s'' (8 :: acc)
             else if e =? 102 then parse_string s'' (12 :: acc)
             else if e =? 110 then parse_string s'' (10 :: acc)
             else if e =? 114 then parse_string s'' (13 :: acc)
             else if e =? 116 then parse_string s'' (9 :: acc)
             else None
         end
       else if c <? 32 then None
       else parse_string s' (c :: acc))%N
  end.

Definition is_digit (c : N) : bool := ((48 <=? c) && (c <=? 57))%N.

Fixpoint parse_digits (s : str) (acc : Z) : Z * str :=
  match s with
  | c :: s' =>
      if is_digit c then parse_digits s' (acc * 10 + (Z.of_N c - 48)) else (acc, s)
  | [] => (acc, [])
  end.

(** An integer literal: [0], or a non-zero digit and more digits; a fraction
    or an exponent after it makes a [float], which is not read. *)
Definition parse_nat (s : str) : option (Z * str) :=
  match s with
  | c :: s' =>
      if (c =? 48)%N then
        match s' with
        | d :: _ => if ((d =? 46) || (d =? 101) || (d =? 69))%N then None else Some (0, s')
        | [] => Some (0, s')
        end
      else if is_digit c then
        let (n, rest) := parse_digits s 0 in
        match rest with
        | d :: _ => if ((d =? 46) || (d =? 101) || (d =? 69))%N then None else Some (n, rest)
        | [] => Some (n, rest)
        end
      else None
  | [] => None
  end.

(** [d[k] = v] on a dict. *)
Fixpoint dict_set (k : str) (v : json) (d : list (str * json)) : list (str * json) :=
  match d with
  | [] => [(k, v)]
  | (k', v') :: d' => if str_eqb k k' then (k', v) :: d' else (k', v') :: dict_set k v d'
  end.

(** One JSON value at the head of [s], and what follows it. *)
Fixpoint parse_value (fuel : nat) (s : str) : option (json * str) :=
  match fuel with
  | O => None
  | S f =>
      match s with
      | [] => None
      | c :: s' =>
          (if c =? 34 then
             match parse_string s' [] with
             | Some (x, rest) => Some (JStr x, rest)
             | None => None
             end
           else if c =? 91 then
             match skip_ws s' with
             | 93 :: rest => Some (JArr [], rest)
             | s1 =>
                 (fix items (n : nat) (s : str) (acc : list json) : option (json * str) :=
                    match n with
                    | O => None
                    | S n' =>
                        match parse_value f s with
                        | None => None
                        | Some (v, s2) =>
                            match skip_ws s2 with
                            | 44 :: s3 => items n' (skip_ws s3) (v :: acc)
                            | 93 :: s3 => Some (JArr (rev (v :: acc)), s3)
                            | _ => None
                            end
                        end
                    end) f s1 []
             end
           else if c =? 123 then
             match skip_ws s' with
             | 125 :: rest => Some (JObj [], rest)
             | s1 =>
                 (fix items (n : nat) (s : str) (acc : list (str * json))
                    : option (json * str) :=
                    match n with
                    | O => None
                    | S n' =>
                        match s with
                        | 34 :: sk =>
                            match parse_string sk [] with
                            | None => None
                            | Some (k, s2) =>
                                match skip_ws s2 with
                                | 58 :: s3 =>
                                    match parse_value f (skip_ws s3) with
                                    | None => None
                                    | Some (v, s4) =>
                                        match skip_ws s4 with
                                        | 44 :: s5 => items n' (skip_ws s5) (dict_set k v acc)
                                        | 125 :: s5 => Some (JObj (dict_set k v acc), s5)
                                        | _ => None
                                        end
                                    end
                                | _ => None
                                end
                            end
                        | _ => None
                        end
                    end) f s1 []
             end
           else if c =? 110 then
             match s' with
             | 117 :: 108 :: 108 :: rest => Some (JNull, rest)
             | _ => None
             end
           else if c =? 116 then
             match s' with
             | 114 :: 117 :: 101 :: rest => Some (JBool true, rest)
             | _ => None
             end
           else if c =? 102 then
             match s' with
             | 97 :: 108 :: 115 :: 101 :: rest => Some (JBool false, rest)
             | _ => None
             end
           else if c =? 45 then
             match parse_nat s' with
             | Some (n, rest) => Some (JInt (- n), rest)
             | None => None
             end
           else
             match parse_nat s with
             | Some (n, rest) => Some (JInt n, rest)
             | None => None
             end)%N
      end
  end.

(** [json.loads(s)] *)
Definition json_loads (s : str) : outcome json :=
  match parse_value (S (length s)) (skip_ws s) with
  | Some (v, rest) =>
      match skip_ws rest with
      | [] => Ok v
      | _ => Raise JSONDecodeError
      end
  | None => Raise JSONDecodeError
  end.

(** [int(s)] on a decimal string: surrounding whitespace, a sign, digits. *)
Definition int_of_str (s : str) : option Z :=
  let digits (t : str) (sign : Z) : option Z :=
    match t with
    | c :: _ =>
        if is_digit c then
          match parse_digits t 0 with
          | (n, []) => Some (sign * n)
          | _ => None
          end
        else None
    | [] => None
    end in
  match strip s with
  | c :: t =>
      if (c =? 45)%N then digits t (-1)
      else if (c =? 43)%N then digits t 1
      else digits (c :: t) 1
  | [] => None
  end.

(** The bytes of an ASCII text. *)
Definition ascii_bytes (s : string) : bytes :=
  map (fun c => z2b (Z.of_N c)) (lit s).

(** An unmasked frame, as a server sends it, for a payload shorter than 126
    bytes. *)
Definition server_frame (opcode : byte) (payload : bytes) : bytes :=
  opcode :: z2b (Z.of_nat (length payload)) :: payload.

(** The random bytes of the runs below. *)
Definition urandom (i : nat) : byte := z2b ((Z.of_nat i * 37 + 11) mod 256).

(** A version record of the store catalog. *)
Definition version (name artifact hash : string) : json :=
  JObj [(lit "name", JStr (lit name)); (lit "artifact", JStr (lit artifact));
        (lit "hash", JStr (lit hash))].

(** The surroundings of the runs below: the token endpoint answers with a
    token, the store with the text of [catalog], the peer accepts the
    handshake and then delivers [frames] and closes. *)
Definition store_url : str := lit "http://127.0.0.1:1337/plugins".

Definition urlopen (catalog : json) (url : str) : outcome bytes :=
  if str_eqb url token_url then Ok (ascii_bytes " tok123 ")
  else if str_eqb url store_url then Ok (json_dumps catalog)
  else Raise URLError.

Definition handshake (frames : bytes) (token : str) (key : bytes)
    : outcome unit * StreamReader :=
  (Ok tt, mkReader frames Eof).

(** A store entry. *)
Definition plugin (id : json) (name : string) (versions : list json) : json :=
  JObj [(lit "id", id); (lit "name", JStr (lit name)); (lit "versions", JArr versions)].

(** An Event envelope. *)
Definition event (name : string) (args : list json) : json :=
  JObj [(lit "type", JInt EVENT); (lit "event", JStr (lit name)); (lit "args", JArr args)].

(** The state before a workflow starts. *)
Definition start : World := mkWorld new_client 0 [].

(** A client just connected, about to read from [r]. *)
Definition connected (r : StreamReader) : World :=
  mkWorld (mkClient (Some r) (Some (mkWriter [] false)) 0) 0 [].

End Ref.

(* ================================================================== *)
(** * The header loop of connect *)
(* ================================================================== *)

(** The bytes of an ASCII literal of the source ([b"\r\n\r\n"] apart). *)
Definition bytes_lit (s : string) : bytes := map byte_of_ascii (list_ascii_of_string s).

(** [b"\r\n\r\n"] *)
Definition CRLFCRLF : bytes := [x0d; x0a; x0d; x0a].

(** [b"101 Switching Protocols"] *)
Definition SWITCHING : bytes := bytes_lit "101 Switching Protocols".

Fixpoint is_prefix (p s : bytes) : bool :=
  match p, s with
  | [], _ => true
  | a :: p', b :: s' => Byte.eqb a b && is_prefix p' s'
  | _ :: _, [] => false
  end.

(** [needle in hay] on two [bytes]. *)
Fixpoint contains (needle hay : bytes) : bool :=
  is_prefix needle hay ||
  match hay with
  | [] => false
  | _ :: hay' => contains needle hay'
  end.

(** How the header loop of [connect] ends: the answer is accepted, or
    [ConnectionError] (the stream ended before the blank line), or
    [RuntimeError(f"Handshake failed: {header_data...}")]. *)
Inductive handshake_end : Type :=
| Switched
| ClosedDuringHandshake
| HandshakeFailed (header_data : bytes).

(** Lines 64 to 72 of [connect], over the results [reads] of the successive
    [await self.reader.read(1024)]: each is what had arrived when the read
    returned (at most 1024 bytes, as many as the timing of the network
    gave); after the last one the stream has ended, and the next read
    returns [b""] or raises the connection error. The loop stops once the
    bytes accumulated contain a blank line; it returns how it ended and the
    reads it has not made, whose bytes are what [recv] finds. *)
Fixpoint header_loop (header_data : bytes) (reads : list bytes)
    : handshake_end * list bytes :=
  if contains CRLFCRLF header_data then
    (if contains SWITCHING header_data then Switched
     else HandshakeFailed header_data, reads)
  else
    match reads with
    | [] => (ClosedDuringHandshake, [])
    | chunk :: rest =>
        match chunk with
        | [] => (ClosedDuringHandshake, rest)
        | _ :: _ => header_loop (header_data ++ chunk) rest
        end
    end.

(** The reader [recv] works on once the header loop is over. *)
Definition reader_after_handshake (reads : list bytes) (e : closing) : StreamReader :=
  mkReader (concat (snd (header_loop [] reads))) e.

(* ================================================================== *)
(** * Invariants of the workflows *)
(* ================================================================== *)

(** A computation that leaves a connection open once it is open: the writer
    it finds set is still set when it ends, whatever its outcome. *)
Definition keeps_writer {A : Type} (c : M A) : Prop :=
  forall w, writer (client w) <> None -> writer (client (snd (c w))) <> None.

(** The connection has been closed by [close]: the writer is closed and the
    last thing written is a Close frame. *)
Definition closed_by_close_frame (wr : StreamWriter) : Prop :=
  writer_closed wr = true /\
  exists before mask,
    written wr = before ++ [Frame (close_frame mask)] /\ length mask = 4%nat.

(* ================================================================== *)
(** * Proof steps *)
(* ================================================================== *)

(** One step of a monadic computation: the binds and the plain steps are
    unfolded, the calls of the surroundings are left in place. *)
Ltac st_step :=
  cbv beta iota delta [bind ret raise lift log decode try_except obind].

(** The updates of the state are carried out. *)
Ltac st_state :=
  cbv beta iota delta [os_urandom write set_writer set_reader set_msg_id
                       set_client new_client];
  cbn [client writer reader msg_id entropy_used stderr written writer_closed].

(* ================================================================== *)
(** * Bytes, masks and big-endian integers *)
(* ================================================================== *)

Lemma b2z_range (b : byte) : 0 <= b2z b < 256.
Proof.
  unfold b2z. pose proof (Byte.to_N_bounded b). lia.
Qed.

Lemma z2b_b2z (b : byte) : z2b (b2z b) = b.
Proof.
  unfold z2b, b2z. rewrite N2Z.id, Byte.of_to_N. reflexivity.
Qed.

Lemma b2z_z2b (z : Z) : 0 <= z < 256 -> b2z (z2b z) = z.
Proof.
  intros Hz. unfold z2b, b2z.
  destruct (Byte.of_N (Z.to_N z)) as [b|] eqn:E.
  - apply Byte.to_of_N in E. rewrite E. lia.
  - apply Byte.of_N_None_iff in E. lia.
Qed.

Lemma lxor_byte_range (a b : Z) :
  0 <= a < 256 -> 0 <= b < 256 -> 0 <= Z.lxor a b < 256.
Proof.
  intros Ha Hb. split.
  - apply Z.lxor_nonneg. lia.
  - assert (Hs : Z.shiftr (Z.lxor a b) 8 = 0).
    { rewrite Z.shiftr_lxor, !Z.shiftr_div_pow2 by lia.
      change (2 ^ 8) with 256.
      rewrite !Z.div_small by lia. reflexivity. }
    rewrite Z.shiftr_div_pow2 in Hs by lia. change (2 ^ 8) with 256 in Hs.
    assert (0 <= Z.lxor a b) by (apply Z.lxor_nonneg; lia).
    apply Z.div_small_iff in Hs; lia.
Qed.

(** XOR with the same mask byte twice gives the byte back. *)
Lemma byte_xor_involutive (b m : byte) : byte_xor (byte_xor b m) m = b.
Proof.
  unfold byte_xor.
  rewrite b2z_z2b by (apply lxor_byte_range; apply b2z_range).
  rewrite Z.lxor_assoc, Z.lxor_nilpotent, Z.lxor_0_r.
  apply z2b_b2z.
Qed.

Lemma xor_mask_from_involutive (mask payload : bytes) (i : nat) :
  xor_mask_from i mask (xor_mask_from i mask payload) = payload.
Proof.
  revert i. induction payload as [|b rest IH]; intros i; simpl.
  - reflexivity.
  - rewrite byte_xor_involutive, IH. reflexivity.
Qed.

(** Masking involution: unmasking a masked payload with its own mask gives
    the payload back, whatever its length. *)
Lemma xor_mask_involutive (mask payload : bytes) :
  xor_mask mask (xor_mask mask payload) = payload.
Proof. apply xor_mask_from_involutive. Qed.

Lemma xor_mask_from_length (mask payload : bytes) (i : nat) :
  length (xor_mask_from i mask payload) = length payload.
Proof.
  revert i. induction payload as [|b rest IH]; intros i; simpl; auto.
Qed.

Lemma xor_mask_length (mask payload : bytes) :
  length (xor_mask mask payload) = length payload.
Proof. apply xor_mask_from_length. Qed.

Lemma pack_be_length (k : nat) (n : Z) : length (pack_be k n) = k.
Proof.
  revert n. induction k as [|k IH]; intros n; simpl.
  - reflexivity.
  - rewrite length_app, IH. simpl. lia.
Qed.

Lemma unpack_be_snoc (l : bytes) (b : byte) :
  unpack_be (l ++ [b]) = unpack_be l * 256 + b2z b.
Proof.
  unfold unpack_be. rewrite fold_left_app. reflexivity.
Qed.

(** Big-endian packing on [k] bytes keeps the value modulo [256^k]. *)
Lemma unpack_pack_be (k : nat) (n : Z) :
  0 <= n -> unpack_be (pack_be k n) = n mod 256 ^ Z.of_nat k.
Proof.
  revert n. induction k as [|k IH]; intros n Hn.
  - simpl. rewrite Z.mod_1_r. reflexivity.
  - cbn [pack_be]. rewrite unpack_be_snoc.
    rewrite IH by (apply Z.div_pos; lia).
    rewrite b2z_z2b by (apply Z.mod_pos_bound; lia).
    rewrite Nat2Z.inj_succ, Z.pow_succ_r by lia.
    rewrite Z.rem_mul_r by lia. lia.
Qed.

Lemma unpack_be_nonneg (l : bytes) : 0 <= unpack_be l.
Proof.
  induction l as [|b l IH] using rev_ind.
  - reflexivity.
  - rewrite unpack_be_snoc. pose proof (b2z_range b). lia.
Qed.

(** The unsigned reading of [k] bytes lies below [256^k]. *)
Lemma unpack_be_bound (l : bytes) : unpack_be l < 256 ^ Z.of_nat (length l).
Proof.
  induction l as [|b l IH] using rev_ind.
  - reflexivity.
  - rewrite unpack_be_snoc, length_app. simpl length.
    replace (Z.of_nat (length l + 1)) with (Z.succ (Z.of_nat (length l))) by lia.
    rewrite Z.pow_succ_r by lia.
    pose proof (b2z_range b). lia.
Qed.

(** A property checked on [0 .. n-1] holds of every integer in that range. *)
Lemma forall_below (P : Z -> bool) (n : nat) :
  forallb P (map Z.of_nat (seq 0 n)) = true ->
  forall z, 0 <= z < Z.of_nat n -> P z = true.
Proof.
  intros H z Hz. rewrite forallb_forall in H. apply H.
  apply in_map_iff. exists (Z.to_nat z). split; [lia|].
  apply in_seq. lia.
Qed.

(** The second header byte, [code | 0x80], decodes to its 7-bit code and a
    set mask bit. *)
Lemma header_byte_code (code : Z) :
  0 <= code < 128 ->
  Z.land (b2z (z2b (Z.lor code 128))) 127 = code /\
  Z.land (b2z (z2b (Z.lor code 128))) 128 <> 0.
Proof.
  intros H.
  pose proof (@forall_below
    (fun c => (Z.land (b2z (z2b (Z.lor c 128))) 127 =? c)
              && negb (Z.land (b2z (z2b (Z.lor c 128))) 128 =? 0)) 128
    eq_refl code H) as E.
  apply andb_true_iff in E. destruct E as [E1 E2].
  apply Z.eqb_eq in E1. apply negb_true_iff, Z.eqb_neq in E2. auto.
Qed.

(* ================================================================== *)
(** * Reading from the stream *)
(* ================================================================== *)

(** With the bytes there, [readexactly] returns them and leaves the rest. *)
Lemma readexactly_app (a rest : bytes) (e : closing) (n : Z) :
  n = Z.of_nat (length a) ->
  readexactly n (mkReader (a ++ rest) e) = (Ok a, mkReader rest e).
Proof.
  intros ->. unfold readexactly. cbn [incoming ending].
  rewrite length_app.
  destruct (Z.leb_spec (Z.of_nat (length a)) (Z.of_nat (length a + length rest)));
    [|lia].
  rewrite Nat2Z.id.
  rewrite firstn_app, Nat.sub_diag, firstn_all, firstn_O, app_nil_r.
  rewrite skipn_app, Nat.sub_diag, skipn_all. reflexivity.
Qed.

(** The frame reader on a complete frame, whatever it declares: a header
    byte [b1] with a 7-bit code below 126, or 126 and two bytes, or 127 and
    eight bytes; four mask bytes when the mask bit is set; then as many
    payload bytes as declared. *)
Lemma read_frame_layout (b0 b1 : byte) (ext mask body rest : bytes) (e : closing) :
  let code := Z.land (b2z b1) 127 in
  let has_mask := Z.land (b2z b1) 128 in
  (code < 126 /\ ext = [] /\ Z.of_nat (length body) = code) \/
  (code = 126 /\ length ext = 2%nat /\ Z.of_nat (length body) = unpack_be ext) \/
  (code = 127 /\ length ext = 8%nat /\ Z.of_nat (length body) = unpack_be ext) ->
  (has_mask = 0 /\ mask = []) \/ (has_mask <> 0 /\ length mask = 4%nat) ->
  read_frame (mkReader (b0 :: b1 :: ext ++ mask ++ body ++ rest) e)
  = (Ok (if has_mask =? 0 then body else xor_mask mask body), mkReader rest e).
Proof.
  intros code has_mask Hlen Hmask.
  unfold read_frame, bind.
  change (b0 :: b1 :: ext ++ mask ++ body ++ rest)
    with ([b0; b1] ++ ext ++ mask ++ body ++ rest).
  rewrite (@readexactly_app [b0; b1] _ e 2 eq_refl).
  cbn [nth]. fold code has_mask.
  assert (Hext :
    (if code =? 126
     then bind (readexactly 2) (fun ext_len => ret (unpack_be ext_len))
     else if code =? 127
          then bind (readexactly 8) (fun ext_len => ret (unpack_be ext_len))
          else ret code)
      (mkReader (ext ++ mask ++ body ++ rest) e)
    = (Ok (Z.of_nat (length body)), mkReader (mask ++ body ++ rest) e)).
  { destruct Hlen as [(H1 & -> & H3) | [(H1 & H2 & H3) | (H1 & H2 & H3)]].
    - destruct (Z.eqb_spec code 126); [lia|].
      destruct (Z.eqb_spec code 127); [lia|].
      rewrite H3. reflexivity.
    - rewrite H1. cbn [Z.eqb Pos.eqb]. unfold bind.
      rewrite (@readexactly_app ext _ e 2) by lia.
      rewrite H3. reflexivity.
    - rewrite H1. cbn [Z.eqb Pos.eqb]. unfold bind.
      rewrite (@readexactly_app ext _ e 8) by lia.
      rewrite H3. reflexivity. }
  unfold bind in Hext. unfold bind. rewrite Hext. clear Hext.
  destruct Hmask as [(Hm & ->) | (Hm & Hl)].
  - rewrite Hm. cbn [Z.eqb negb app ret].
    rewrite (@readexactly_app body rest e _ eq_refl). reflexivity.
  - apply Z.eqb_neq in Hm. rewrite Hm. cbn [negb].
    rewrite (@readexactly_app mask _ e 4) by lia. cbn [ret].
    rewrite (@readexactly_app body rest e _ eq_refl). reflexivity.
Qed.

(** Decoding a frame laid out as a header byte, [code | 0x80], the extended
    length [ext], a four-byte mask and the masked payload. *)
Lemma read_frame_masked (b0 : byte) (code : Z) (ext mask payload rest : bytes)
    (e : closing) :
  length mask = 4%nat ->
  (code = Z.of_nat (length payload) /\ code < 126 /\ ext = []) \/
  (code = 126 /\ length ext = 2%nat /\ unpack_be ext = Z.of_nat (length payload)) \/
  (code = 127 /\ length ext = 8%nat /\ unpack_be ext = Z.of_nat (length payload)) ->
  read_frame (mkReader (b0 :: z2b (Z.lor code 128) :: ext ++ mask
                          ++ xor_mask mask payload ++ rest) e)
  = (Ok payload, mkReader rest e).
Proof.
  intros Hmask Hcase.
  assert (Hcode : 0 <= code < 128) by (destruct Hcase as [H|[H|H]]; lia).
  destruct (header_byte_code Hcode) as [Hc Hm].
  rewrite (@read_frame_layout b0 (z2b (Z.lor code 128)) ext mask
             (xor_mask mask payload) rest e).
  - apply Z.eqb_neq in Hm. rewrite Hm, xor_mask_involutive. reflexivity.
  - rewrite Hc, xor_mask_length.
    destruct Hcase as [(H1 & H2 & H3) | [(H1 & H2 & H3) | (H1 & H2 & H3)]];
      [left | right; left | right; right]; auto.
  - right. split; assumption.
Qed.

(* ================================================================== *)
(** * Frame codec: layout and round trip *)
(* ================================================================== *)

(** The frame of [send] for a payload shorter than [2^64] bytes: [0x81], the
    7-bit code with the mask bit, the extended length big-endian on 0, 2 or 8
    bytes, the mask, the masked payload. *)
Lemma text_frame_layout (mask payload : bytes) :
  Z.of_nat (length payload) < 2 ^ 64 ->
  text_frame mask payload =
    Ok (x81 :: z2b (Z.lor (length_code (Z.of_nat (length payload))) 128)
            :: pack_be (ext_width (Z.of_nat (length payload)))
                       (Z.of_nat (length payload))
            ++ mask ++ xor_mask mask payload).
Proof.
  intros H. unfold text_frame, length_header, length_code, ext_width.
  destruct (Z.of_nat (length payload) <? 126); [reflexivity|].
  destruct (Z.of_nat (length payload) <? 65536); [reflexivity|].
  destruct (Z.ltb_spec (Z.of_nat (length payload)) (2 ^ 64)); [reflexivity|lia].
Qed.

(** Decoding what [send] encodes gives the payload back and consumes the
    frame and nothing more. *)
Lemma frame_roundtrip (mask payload frame rest : bytes) (e : closing) :
  length mask = 4%nat ->
  text_frame mask payload = Ok frame ->
  read_frame (mkReader (frame ++ rest) e) = (Ok payload, mkReader rest e).
Proof.
  intros Hmask Hframe.
  assert (Hlt : Z.of_nat (length payload) < 2 ^ 64).
  { unfold text_frame, length_header in Hframe.
    destruct (Z.ltb_spec (Z.of_nat (length payload)) 126); [lia|].
    destruct (Z.ltb_spec (Z.of_nat (length payload)) 65536); [lia|].
    destruct (Z.ltb_spec (Z.of_nat (length payload)) (2 ^ 64));
      [assumption|discriminate]. }
  rewrite text_frame_layout in Hframe by assumption.
  inversion Hframe as [Hf]. clear Hframe Hf.
  cbn [app]. rewrite <- !app_assoc.
  apply read_frame_masked; [assumption|].
  unfold length_code, ext_width.
  destruct (Z.ltb_spec (Z.of_nat (length payload)) 126).
  - left. auto.
  - right. destruct (Z.ltb_spec (Z.of_nat (length payload)) 65536).
    + left. rewrite pack_be_length, unpack_pack_be by lia.
      change (256 ^ Z.of_nat 2) with 65536.
      rewrite Z.mod_small by lia. auto.
    + right. rewrite pack_be_length, unpack_pack_be by lia.
      change (256 ^ Z.of_nat 8) with (2 ^ 64).
      rewrite Z.mod_small by lia. auto.
Qed.

(** C1. For a text payload [P] shorter than [2^64] bytes, so for the
    lengths 0, 1, 125, 126, 65535 and 65536, and the four mask bytes of
    [os.urandom(4)], [send] builds the frame [0x81], the length field, the
    mask, [P] XORed with the mask. The length field is the length inline
    below 126, code 126 and the length big-endian on 2 bytes below 65536,
    code 127 and the length big-endian on 8 bytes from there on. Decoding
    that frame reads the same width back, undoes the mask, returns [P] and
    leaves what follows the frame untouched. *)
Theorem frame_roundtrip_all_widths (P mask rest : bytes) (e : closing) :
  length mask = 4%nat ->
  Z.of_nat (length P) < 2 ^ 64 ->
  let len := Z.of_nat (length P) in
  let frame := x81 :: z2b (Z.lor (length_code len) 128)
                   :: pack_be (ext_width len) len ++ mask ++ xor_mask mask P in
  text_frame mask P = Ok frame /\
  (len < 126 -> length_code len = len /\ ext_width len = 0%nat) /\
  (126 <= len < 65536 ->
     length_code len = 126 /\ ext_width len = 2%nat /\
     unpack_be (pack_be 2 len) = len) /\
  (65536 <= len ->
     length_code len = 127 /\ ext_width len = 8%nat /\
     unpack_be (pack_be 8 len) = len) /\
  xor_mask mask (xor_mask mask P) = P /\
  read_frame (mkReader (frame ++ rest) e) = (Ok P, mkReader rest e).
Proof.
  intros Hmask Hlt len frame.
  assert (Hframe : text_frame mask P = Ok frame) by (apply text_frame_layout; exact Hlt).
  split; [exact Hframe|].
  split.
  { intros H. unfold length_code, ext_width.
    destruct (Z.ltb_spec len 126); [auto|lia]. }
  split.
  { intros H. unfold length_code, ext_width.
    destruct (Z.ltb_spec len 126); [lia|].
    destruct (Z.ltb_spec len 65536); [|lia].
    rewrite unpack_pack_be by lia.
    change (256 ^ Z.of_nat 2) with 65536. rewrite Z.mod_small by lia. auto. }
  split.
  { intros H. unfold length_code, ext_width.
    destruct (Z.ltb_spec len 126); [lia|].
    destruct (Z.ltb_spec len 65536); [lia|].
    rewrite unpack_pack_be by lia.
    change (256 ^ Z.of_nat 8) with (2 ^ 64). rewrite Z.mod_small by (unfold len; lia).
    auto. }
  split; [apply xor_mask_involutive|].
  apply frame_roundtrip with (mask := mask); assumption.
Qed.

Lemma frame_roundtrip_all_widths_witness :
  length [x01; x02; x03; x04] = 4%nat /\
  Z.of_nat (length (repeat x7b 126)) < 2 ^ 64 /\
  In (Z.of_nat (length (repeat x7b 126))) [0; 1; 125; 126; 65535; 65536] /\
  read_frame
    (mkReader ((x81 :: z2b (Z.lor (length_code 126) 128)
                    :: pack_be (ext_width 126) 126
                    ++ [x01; x02; x03; x04]
                    ++ xor_mask [x01; x02; x03; x04] (repeat x7b 126))
               ++ [x81; x00]) Eof)
  = (Ok (repeat x7b 126), mkReader [x81; x00] Eof).
Proof.
  split; [reflexivity|].
  split; [vm_compute; reflexivity|].
  split; [cbn; tauto|].
  apply (@frame_roundtrip_all_widths (repeat x7b 126) [x01; x02; x03; x04]
           [x81; x00] Eof eq_refl).
  vm_compute. reflexivity.
Defined.

(* ================================================================== *)
(** * What a truncated stream does to the frame reader *)
(* ================================================================== *)

Lemma prefix_stable_ret {A : Type} (a : A) : prefix_stable (ret a).
Proof.
  intros p q e e'. cbn. exists p. auto.
Qed.

Lemma prefix_stable_readexactly (n : Z) : prefix_stable (readexactly n).
Proof.
  intros p q e e'. unfold readexactly. cbn [incoming ending].
  destruct (Z.leb_spec n (Z.of_nat (length p))) as [Hle|Hgt].
  - exists (skipn (Z.to_nat n) p). split; [reflexivity|].
    rewrite length_app.
    destruct (Z.leb_spec n (Z.of_nat (length p + length q))); [|lia].
    assert (Hn : (Z.to_nat n <= length p)%nat) by lia.
    rewrite firstn_app, skipn_app.
    replace (Z.to_nat n - length p)%nat with 0%nat by lia.
    rewrite firstn_O, app_nil_r, skipn_O. reflexivity.
  - destruct e'; reflexivity.
Qed.

Lemma prefix_stable_bind {A B : Type} (c : ST StreamReader A)
    (k : A -> ST StreamReader B) :
  prefix_stable c -> (forall a, prefix_stable (k a)) -> prefix_stable (bind c k).
Proof.
  intros Hc Hk p q e e'. unfold bind.
  specialize (Hc p q e e').
  destruct (c (mkReader p e')) as [[x|x] r'].
  - destruct Hc as (p' & -> & Heq). rewrite Heq. apply Hk.
  - exact Hc.
Qed.

Lemma prefix_stable_read_frame : prefix_stable read_frame.
Proof.
  unfold read_frame.
  apply prefix_stable_bind; [apply prefix_stable_readexactly|]. intros head.
  apply prefix_stable_bind.
  { destruct (_ =? 126).
    - apply prefix_stable_bind; [apply prefix_stable_readexactly|].
      intros; apply prefix_stable_ret.
    - destruct (_ =? 127).
      + apply prefix_stable_bind; [apply prefix_stable_readexactly|].
        intros; apply prefix_stable_ret.
      + apply prefix_stable_ret. }
  intros len.
  apply prefix_stable_bind.
  { destruct (negb _).
    - apply prefix_stable_bind; [apply prefix_stable_readexactly|].
      intros; apply prefix_stable_ret.
    - apply prefix_stable_ret. }
  intros mask.
  apply prefix_stable_bind; [apply prefix_stable_readexactly|].
  intros; apply prefix_stable_ret.
Qed.

(** The frame reader fails only with the errors of a closed stream. *)
Lemma read_frame_raises_closed (r r' : StreamReader) (e : exn) :
  read_frame r = (Raise e, r') -> is_closed_stream_error e = true.
Proof.
  intros H. pose proof (prefix_stable_read_frame (incoming r) [] Eof (ending r)) as P.
  destruct r as [p c]. cbn [incoming ending] in P. rewrite H in P. exact P.
Qed.

(** A stream that ends inside a frame: the reader fails with the error of a
    closed stream, wherever the cut falls (before the header, inside the
    header, the extended length, the mask or the payload). *)
Lemma read_frame_truncated (frame p q payload : bytes) (e e' : closing) :
  read_frame (mkReader frame e) = (Ok payload, mkReader [] e) ->
  frame = p ++ q -> q <> [] ->
  exists x r', read_frame (mkReader p e') = (Raise x, r') /\
               is_closed_stream_error x = true.
Proof.
  intros Hfull -> Hq.
  pose proof (prefix_stable_read_frame p q e e') as P.
  destruct (read_frame (mkReader p e')) as [[x|x] r'].
  - destruct P as (p' & _ & Heq). rewrite Hfull in Heq.
    inversion Heq as [[Hx Hnil]]. symmetry in Hnil.
    apply app_eq_nil in Hnil. destruct Hnil; contradiction.
  - exists x, r'. auto.
Qed.

(** The frame reader does not look at the first header byte, which holds the
    FIN bit and the opcode. *)
Lemma read_frame_ignores_opcode (b0 b0' : byte) (rest : bytes) (e : closing) :
  read_frame (mkReader (b0 :: rest) e) = read_frame (mkReader (b0' :: rest) e).
Proof.
  unfold read_frame, bind, readexactly. cbn [incoming ending length].
  destruct rest as [|b1 rest]; [reflexivity|].
  cbn [length].
  destruct (Z.leb_spec 2 (Z.of_nat (S (S (length rest))))); [|lia].
  change (Z.to_nat 2) with 2%nat. cbn [firstn skipn nth].
  reflexivity.
Qed.

(* ================================================================== *)
(** * recv *)
(* ================================================================== *)

Section RecvFacts.

Variable json_loads : str -> outcome json.

(** [recv] on a connected client, by the outcome of the frame reader. *)
Lemma recv_unfold (w : World) (r : StreamReader) :
  reader (client w) = Some r ->
  recv json_loads w =
    match read_frame r with
    | (Ok payload_raw, r') =>
        match utf8_decode payload_raw with
        | None => (Raise UnicodeDecodeError, set_reader r' w)
        | Some s =>
            match json_loads s with
            | Ok msg => (Ok (as_optional msg), set_reader r' w)
            | Raise e =>
                if is_closed_stream_error e then (Ok None, set_reader r' w)
                else (Raise e, set_reader r' w)
            end
        end
    | (Raise e, r') =>
        if is_closed_stream_error e then (Ok None, set_reader r' w)
        else (Raise e, set_reader r' w)
    end.
Proof.
  intros Hr. unfold recv, try_except, bind, with_reader. rewrite Hr.
  destruct (read_frame r) as [[payload|e] r']; [|reflexivity].
  unfold decode. destruct (utf8_decode payload) as [s|]; [|reflexivity].
  cbn. destruct (json_loads s); reflexivity.
Qed.

(** A stream cut inside a frame makes [recv] return [None]. *)
Lemma recv_truncated (w : World) (frame p q payload : bytes) (e e' : closing) :
  read_frame (mkReader frame e) = (Ok payload, mkReader [] e) ->
  frame = p ++ q -> q <> [] ->
  reader (client w) = Some (mkReader p e') ->
  exists w', recv json_loads w = (Ok None, w').
Proof.
  intros Hfull Hsplit Hq Hr.
  destruct (@read_frame_truncated frame p q payload e e' Hfull Hsplit Hq)
    as (x & r' & Hread & Hx).
  rewrite (recv_unfold w Hr), Hread, Hx. eauto.
Qed.

(** [recv] does not depend on the first header byte. *)
Lemma recv_ignores_opcode (w w' : World) (b0 b0' : byte) (rest : bytes)
    (e : closing) :
  reader (client w) = Some (mkReader (b0 :: rest) e) ->
  w' = set_reader (mkReader (b0' :: rest) e) w ->
  fst (recv json_loads w') = fst (recv json_loads w) /\
  client (snd (recv json_loads w')) = client (snd (recv json_loads w)).
Proof.
  intros Hr ->.
  rewrite (recv_unfold w Hr).
  rewrite (@recv_unfold (set_reader (mkReader (b0' :: rest) e) w)
             (mkReader (b0' :: rest) e) eq_refl).
  rewrite (read_frame_ignores_opcode b0' b0 rest e).
  destruct (read_frame (mkReader (b0 :: rest) e)) as [[payload|x] r'].
  - destruct (utf8_decode payload) as [s|]; [|auto].
    destruct (json_loads s) as [msg|x]; [auto|].
    destruct (is_closed_stream_error x); auto.
  - destruct (is_closed_stream_error x); auto.
Qed.

End RecvFacts.

(* ================================================================== *)
(** * Declared lengths *)
(* ================================================================== *)

(** C6, as the code has it. Every length field is read as an unsigned
    number: the extended length of [k] bytes lies in [0, 256^k), so a
    declared length lies in [0, 2^64). No bound is applied to it: whatever
    length a frame declares, the reader asks for exactly that many payload
    bytes and, when they arrive, returns them. *)
Theorem payload_length_unsigned_and_unbounded
    (b0 b1 : byte) (ext mask body rest : bytes) (e : closing) :
  let code := Z.land (b2z b1) 127 in
  let has_mask := Z.land (b2z b1) 128 in
  (code < 126 /\ ext = [] /\ Z.of_nat (length body) = code) \/
  (code = 126 /\ length ext = 2%nat /\ Z.of_nat (length body) = unpack_be ext) \/
  (code = 127 /\ length ext = 8%nat /\ Z.of_nat (length body) = unpack_be ext) ->
  (has_mask = 0 /\ mask = []) \/ (has_mask <> 0 /\ length mask = 4%nat) ->
  0 <= unpack_be ext < 256 ^ Z.of_nat (length ext) /\
  0 <= Z.of_nat (length body) < 2 ^ 64 /\
  read_frame (mkReader (b0 :: b1 :: ext ++ mask ++ body ++ rest) e)
  = (Ok (if has_mask =? 0 then body else xor_mask mask body), mkReader rest e).
Proof.
  intros code has_mask Hlen Hmask.
  split; [split; [apply unpack_be_nonneg | apply unpack_be_bound]|].
  split.
  - pose proof (unpack_be_bound ext) as Hb.
    destruct Hlen as [(H1 & H2 & H3) | [(H1 & H2 & H3) | (H1 & H2 & H3)]].
    + lia.
    + rewrite H2 in Hb. change (256 ^ Z.of_nat 2) with 65536 in Hb. lia.
    + rewrite H2 in Hb. change (256 ^ Z.of_nat 8) with (2 ^ 64) in Hb. lia.
  - apply read_frame_layout; assumption.
Qed.

Lemma payload_length_unsigned_and_unbounded_witness :
  read_frame (mkReader (x81 :: x7e :: [x01; x2c] ++ [] ++ repeat x20 300 ++ [x88]) Eof)
  = (Ok (repeat x20 300), mkReader [x88] Eof).
Proof.
  apply (@payload_length_unsigned_and_unbounded x81 x7e [x01; x2c] []
           (repeat x20 300) [x88] Eof).
  - right. left. vm_compute. auto.
  - left. vm_compute. auto.
Defined.

(** A frame that declares [n] payload bytes on the 64-bit length field and
    carries them. *)
Lemma read_frame_long (n : Z) (body : bytes) :
  0 <= n < 2 ^ 64 -> Z.of_nat (length body) = n ->
  read_frame (mkReader (x81 :: x7f :: pack_be 8 n ++ [] ++ body ++ []) Eof)
  = (Ok body, mkReader [] Eof).
Proof.
  intros Hn Hbody.
  apply (@read_frame_layout x81 x7f (pack_be 8 n) [] body [] Eof).
  - right. right. split; [reflexivity|]. split; [apply pack_be_length|].
    rewrite unpack_pack_be by lia.
    change (256 ^ Z.of_nat 8) with (2 ^ 64). rewrite Z.mod_small; lia.
  - left. split; reflexivity.
Qed.

(** C6, as stated, fails: a frame that declares a payload of 64 MiB and one
    byte, and carries it, is read and returned, not rejected. *)
Lemma frame_above_64MiB_is_accepted :
  64 * 1024 * 1024 < unpack_be (pack_be 8 67108865) /\
  read_frame
    (mkReader (x81 :: x7f :: pack_be 8 67108865 ++ []
                   ++ repeat x20 (Z.to_nat 67108865) ++ []) Eof)
  = (Ok (repeat x20 (Z.to_nat 67108865)), mkReader [] Eof).
Proof.
  split; [vm_compute; reflexivity|].
  apply read_frame_long; [lia|].
  rewrite repeat_length. apply Z2Nat.id. lia.
Qed.

(* ================================================================== *)
(** * The message-id counter *)
(* ================================================================== *)

Section CounterFacts.

Variable urandom : nat -> byte.
Variable json_dumps : json -> bytes.
Variable json_loads : str -> outcome json.

(** [send] increments the counter once, whatever happens afterwards. *)
Lemma send_msg_id (w : World) (msg_type : Z) (method : string) (args : list json) :
  msg_id (client (snd (send urandom json_dumps msg_type method args w)))
  = msg_id (client w) + 1.
Proof.
  unfold send, bind, lift, os_urandom, write. cbn.
  destruct (length_header _); [|reflexivity]. cbn.
  destruct (writer (client w)); reflexivity.
Qed.

(** [send] on an open connection: the frame written is that of the Call
    serialized with the incremented counter. *)
Lemma send_writes (w : World) (wr : StreamWriter) (msg_type : Z)
    (method : string) (args : list json) (f : bytes) :
  writer (client w) = Some wr ->
  call_frame urandom json_dumps (entropy_used w) msg_type
             (msg_id (client w) + 1) method args = Ok f ->
  send urandom json_dumps msg_type method args w
  = (Ok tt,
     mkWorld (mkClient (reader (client w))
                (Some (mkWriter (written wr ++ [Frame f]) (writer_closed wr)))
                (msg_id (client w) + 1))
             (entropy_used w + 4) (stderr w)).
Proof.
  intros Hw Hf. unfold call_frame, text_frame in Hf.
  unfold send, bind, lift, os_urandom, write. cbn.
  destruct (length_header _) as [hdr|]; [|discriminate].
  inversion Hf; subst f. cbn. rewrite Hw. reflexivity.
Qed.

(** The frame of a Call is the masked text frame of an object with the
    four fields [type], [id], [route] and [args], and reads back as its
    serialization. *)
Lemma call_frame_carries (pos : nat) (msg_type id : Z) (method : string)
    (args : list json) (f : bytes) :
  call_frame urandom json_dumps pos msg_type id method args = Ok f ->
  carries_call json_dumps (map urandom (seq pos 4)) msg_type id method args f.
Proof.
  intros Hf. unfold call_frame in Hf.
  exists (message_dict msg_type id (lit method) args).
  split.
  { unfold message_dict. eexists. split; [reflexivity|].
    repeat split; reflexivity. }
  split; [exact Hf|].
  intros rest e.
  apply (@frame_roundtrip (map urandom (seq pos 4)) _ f rest e); [|exact Hf].
  rewrite length_map, length_seq. reflexivity.
Qed.

Lemma recv_msg_id (w : World) :
  msg_id (client (snd (recv json_loads w))) = msg_id (client w).
Proof.
  unfold recv, try_except, bind, with_reader.
  destruct (reader (client w)) as [r|]; [|reflexivity].
  destruct (read_frame r) as [[payload|e] r'].
  - unfold decode. destruct (utf8_decode payload) as [s|]; [|reflexivity].
    cbn. destruct (json_loads s) as [m|e]; [reflexivity|].
    cbn. destruct (is_closed_stream_error e); reflexivity.
  - destruct (is_closed_stream_error e); reflexivity.
Qed.

(** [close] on an open connection: the Close frame is written and the
    writer closed; the outcome is that of [wait_closed]. *)
Lemma close_unfold (w : World) (wr : StreamWriter) :
  writer (client w) = Some wr ->
  close urandom w
  = (if link_dropped w then Raise ConnectionError else Ok tt,
     mkWorld (mkClient (reader (client w))
                (Some (mkWriter
                         (written wr ++
                          [Frame (close_frame (map urandom (seq (entropy_used w) 4)))])
                         true))
                (msg_id (client w)))
             (entropy_used w + 4) (stderr w)).
Proof.
  intros Hw. unfold close. rewrite Hw.
  unfold writer_close, wait_closed, link_dropped.
  st_step. st_state. rewrite Hw. st_step. st_state.
  destruct (reader (client w)) as [r|]; [|reflexivity].
  destruct (ending r); reflexivity.
Qed.

(** [close] on a client that never connected returns at once. *)
Lemma close_unconnected (w : World) :
  writer (client w) = None -> close urandom w = (Ok tt, w).
Proof. intros Hw. unfold close. rewrite Hw. reflexivity. Qed.

Lemma close_msg_id (w : World) :
  msg_id (client (snd (close urandom w))) = msg_id (client w).
Proof.
  destruct (writer (client w)) as [wr|] eqn:Hw.
  - rewrite (close_unfold w Hw). reflexivity.
  - rewrite (close_unconnected w Hw). reflexivity.
Qed.

(** Consecutive sends from a counter at [n0]: the [k]-th frame written
    (from 0) is that of the [k]-th Call serialized with id [n0 + k + 1]. *)
Lemma send_all_ids (calls : list (Z * string * list json)) :
  forall (w : World) (wr : StreamWriter),
  writer (client w) = Some wr ->
  (forall k msg_type method args,
     nth_error calls k = Some (msg_type, method, args) ->
     Z.of_nat (length (json_dumps
        (message_dict msg_type (msg_id (client w) + Z.of_nat k + 1)
                      (lit method) args))) < 2 ^ 64) ->
  exists w' frames,
    send_all urandom json_dumps calls w = (Ok tt, w') /\
    writer (client w')
      = Some (mkWriter (written wr ++ map Frame frames) (writer_closed wr)) /\
    msg_id (client w') = msg_id (client w) + Z.of_nat (length calls) /\
    length frames = length calls /\
    forall k msg_type method args,
      nth_error calls k = Some (msg_type, method, args) ->
      exists f,
        nth_error frames k = Some f /\
        call_frame urandom json_dumps (entropy_used w + 4 * k) msg_type
                   (msg_id (client w) + Z.of_nat k + 1) method args = Ok f.
Proof.
  induction calls as [|[[t m] a] calls IH]; intros w wr Hw Hshort.
  - exists w, []. cbn. rewrite app_nil_r, Z.add_0_r.
    repeat split; auto.
    + destruct (client w) as [rd wt mid]. cbn in *. rewrite Hw.
      destruct wr; reflexivity.
    + intros k ? ? ? H. destruct k; discriminate.
  - assert (Hf : exists f, call_frame urandom json_dumps (entropy_used w) t
                             (msg_id (client w) + 1) m a = Ok f).
    { unfold call_frame. eexists. apply text_frame_layout.
      specialize (Hshort 0%nat t m a eq_refl).
      replace (msg_id (client w) + Z.of_nat 0 + 1) with (msg_id (client w) + 1)
        in Hshort by lia.
      exact Hshort. }
    destruct Hf as [f Hf].
    pose proof (@send_writes w wr t m a f Hw Hf) as Hsend.
    set (w1 := mkWorld _ _ _) in Hsend.
    destruct (IH w1 (mkWriter (written wr ++ [Frame f]) (writer_closed wr)) eq_refl)
      as (w' & frames & Hall & Hw' & Hid & Hlen & Hnth).
    { intros k t' m' a' Hk. cbn [w1 client msg_id].
      specialize (Hshort (S k) t' m' a' Hk).
      replace (msg_id (client w) + 1 + Z.of_nat k + 1)
        with (msg_id (client w) + Z.of_nat (S k) + 1) by lia.
      exact Hshort. }
    exists w', (f :: frames). cbn [send_all]. unfold bind at 1. rewrite Hsend.
    split; [exact Hall|].
    cbn [w1 client msg_id written writer_closed entropy_used] in Hw', Hid, Hnth.
    split; [rewrite Hw', <- app_assoc; reflexivity|].
    split; [cbn [length]; lia|].
    split; [cbn [length]; lia|].
    intros k t' m' a' Hk. destruct k as [|k].
    + cbn in Hk. inversion Hk; subst t' m' a'.
      exists f. split; [reflexivity|].
      replace (entropy_used w + 4 * 0)%nat with (entropy_used w) by lia.
      replace (msg_id (client w) + Z.of_nat 0 + 1) with (msg_id (client w) + 1) by lia.
      exact Hf.
    + cbn in Hk. destruct (Hnth k t' m' a' Hk) as (f' & Hn' & Hf').
      exists f'. split; [exact Hn'|].
      replace (entropy_used w + 4 * S k)%nat with (entropy_used w + 4 + 4 * k)%nat by lia.
      replace (msg_id (client w) + Z.of_nat (S k) + 1)
        with (msg_id (client w) + 1 + Z.of_nat k + 1) by lia.
      exact Hf'.
Qed.

End CounterFacts.

(* ================================================================== *)
(** * recv: closed streams, malformed payloads, opcodes *)
(* ================================================================== *)

(** C5. Let [frame] be the bytes of one complete frame with payload
    [payload]. When the stream ends, cleanly or abruptly, after a proper
    prefix of [frame] (nothing at all, part of the header, of the extended
    length, of the mask or of the payload), [recv] returns [None]. When the
    whole frame arrives and its payload is not UTF-8 text, or is text that
    [json.loads] rejects, [recv] raises that error. *)
Theorem recv_none_on_closed_stream_raises_on_bad_payload
    (json_loads : str -> outcome json) (frame payload : bytes) (e : closing) :
  read_frame (mkReader frame e) = (Ok payload, mkReader [] e) ->
  (forall (w : World) (p q : bytes) (e' : closing),
     frame = p ++ q -> q <> [] ->
     reader (client w) = Some (mkReader p e') ->
     fst (recv json_loads w) = Ok None) /\
  (forall (w : World) (rest : bytes) (e' : closing),
     reader (client w) = Some (mkReader (frame ++ rest) e') ->
     (utf8_decode payload = None ->
      fst (recv json_loads w) = Raise UnicodeDecodeError) /\
     (forall s, utf8_decode payload = Some s ->
                json_loads s = Raise JSONDecodeError ->
                fst (recv json_loads w) = Raise JSONDecodeError)).
Proof.
  intros Hfull. split.
  - intros w p q e' Hsplit Hq Hr.
    destruct (@recv_truncated json_loads w frame p q payload e e' Hfull Hsplit Hq Hr)
      as [w' Hw']. rewrite Hw'. reflexivity.
  - intros w rest e' Hr.
    pose proof (prefix_stable_read_frame frame rest e' e) as P.
    rewrite Hfull in P. destruct P as (p' & Hp' & Hread).
    inversion Hp'; subst p'. cbn [app] in Hread.
    rewrite (recv_unfold json_loads w Hr), Hread.
    split.
    + intros ->. reflexivity.
    + intros s -> ->. reflexivity.
Qed.

Lemma recv_none_on_closed_stream_raises_on_bad_payload_witness :
  let frame := Ref.server_frame x81 (Ref.ascii_bytes "{bad") in
  read_frame (mkReader frame Eof) = (Ok (Ref.ascii_bytes "{bad"), mkReader [] Eof) /\
  fst (recv Ref.json_loads (Ref.connected (mkReader (firstn 4 frame) Reset))) = Ok None /\
  fst (recv Ref.json_loads (Ref.connected (mkReader (frame ++ [x81]) Eof)))
  = Raise JSONDecodeError.
Proof.
  intros frame.
  assert (Hfull : read_frame (mkReader frame Eof)
                  = (Ok (Ref.ascii_bytes "{bad"), mkReader [] Eof))
    by (vm_compute; reflexivity).
  pose proof (@recv_none_on_closed_stream_raises_on_bad_payload
                Ref.json_loads frame _ Eof Hfull) as [Hcut Hbad].
  split; [exact Hfull|]. split.
  - apply (Hcut _ (firstn 4 frame) (skipn 4 frame) Reset).
    + symmetry. apply firstn_skipn.
    + vm_compute. discriminate.
    + reflexivity.
  - destruct (Hbad (Ref.connected (mkReader (frame ++ [x81]) Eof)) [x81] Eof eq_refl)
      as [_ H].
    apply (H (lit "{bad")); vm_compute; reflexivity.
Defined.

(** C10, as the code has it. [recv] never looks at the opcode: changing the
    first header byte of the incoming stream changes neither what [recv]
    returns nor the state of the client after it. A Close frame (opcode 8)
    with a two-byte status code is read like a Text frame with that payload
    and gets no close handling: the result is that of decoding and parsing
    the two bytes, the value parsed when they happen to be JSON text, an
    error else. For the status codes below 32768 whose low byte is 128 or
    more, among them 1000 to 1015, the codes the protocol defines, the two
    bytes are not UTF-8 text and [recv] raises. *)
Theorem recv_ignores_opcode_close_frame_raises
    (json_loads : str -> outcome json) :
  (forall (w : World) (b0 b0' : byte) (rest : bytes) (e : closing),
     reader (client w) = Some (mkReader (b0 :: rest) e) ->
     fst (recv json_loads (set_reader (mkReader (b0' :: rest) e) w))
       = fst (recv json_loads w) /\
     client (snd (recv json_loads (set_reader (mkReader (b0' :: rest) e) w)))
       = client (snd (recv json_loads w))) /\
  (forall (w : World) (opcode : byte) (status : Z) (rest : bytes) (e : closing),
     0 <= status < 65536 ->
     reader (client w)
       = Some (mkReader (opcode :: x02 :: pack_be 2 status ++ rest) e) ->
     fst (recv json_loads w)
       = match utf8_decode (pack_be 2 status) with
         | None => Raise UnicodeDecodeError
         | Some s =>
             match json_loads s with
             | Ok msg => Ok (as_optional msg)
             | Raise x => if is_closed_stream_error x then Ok None else Raise x
             end
         end) /\
  (forall (w : World) (status : Z) (rest : bytes) (e : closing),
     0 <= status < 32768 -> 128 <= status mod 256 ->
     reader (client w)
       = Some (mkReader (x88 :: x02 :: pack_be 2 status ++ rest) e) ->
     fst (recv json_loads w) = Raise UnicodeDecodeError).
Proof.
  assert (Hclose : forall (w : World) (opcode : byte) (status : Z) (rest : bytes)
                          (e : closing),
     reader (client w)
       = Some (mkReader (opcode :: x02 :: pack_be 2 status ++ rest) e) ->
     recv json_loads w
       = match utf8_decode (pack_be 2 status) with
         | None => (Raise UnicodeDecodeError, set_reader (mkReader rest e) w)
         | Some s =>
             match json_loads s with
             | Ok msg => (Ok (as_optional msg), set_reader (mkReader rest e) w)
             | Raise x =>
                 if is_closed_stream_error x
                 then (Ok None, set_reader (mkReader rest e) w)
                 else (Raise x, set_reader (mkReader rest e) w)
             end
         end).
  { intros w opcode status rest e Hr.
    rewrite (recv_unfold json_loads w Hr).
    pose proof (@read_frame_layout opcode x02 [] [] (pack_be 2 status) rest e) as L.
    cbn zeta in L. cbn [app] in L. rewrite L.
    - reflexivity.
    - left. split; [vm_compute; reflexivity|]. split; [reflexivity|].
      rewrite pack_be_length. reflexivity.
    - left. split; reflexivity. }
  split; [|split].
  - intros w b0 b0' rest e Hr.
    apply (@recv_ignores_opcode json_loads w _ b0 b0' rest e Hr eq_refl).
  - intros w opcode status rest e _ Hr. rewrite (Hclose w opcode status rest e Hr).
    destruct (utf8_decode (pack_be 2 status)) as [s|]; [|reflexivity].
    destruct (json_loads s) as [msg|x]; [reflexivity|].
    destruct (is_closed_stream_error x); reflexivity.
  - intros w status rest e Hs Hlow Hr. rewrite (Hclose w x88 status rest e Hr).
    assert (Hdec : utf8_decode (pack_be 2 status) = None).
    { cbn [pack_be app].
      assert (Hhi : 0 <= status / 256 < 128)
        by (split; [apply Z.div_pos; lia | apply Z.div_lt_upper_bound; lia]).
      assert (Hmod : status / 256 / 256 = 0) by (apply Z.div_small; lia).
      assert (Hlo : 128 <= status mod 256 < 256)
        by (pose proof (Z.mod_pos_bound status 256); lia).
      cbn [utf8_decode].
      rewrite !b2z_z2b by (try rewrite Z.mod_small by lia; lia).
      rewrite Z.mod_small by lia.
      destruct (Z.ltb_spec (status / 256) 128); [|lia].
      destruct (Z.ltb_spec (status mod 256) 128); [lia|].
      destruct ((194 <=? status mod 256) && (status mod 256 <=? 223));
        [reflexivity|].
      destruct ((224 <=? status mod 256) && (status mod 256 <=? 239));
        [reflexivity|].
      destruct ((240 <=? status mod 256) && (status mod 256 <=? 244));
        reflexivity. }
    rewrite Hdec. reflexivity.
Qed.

Lemma recv_ignores_opcode_close_frame_raises_witness :
  0 <= 1000 < 32768 /\ 128 <= 1000 mod 256 /\
  fst (recv Ref.json_loads
         (Ref.connected (mkReader (x88 :: x02 :: pack_be 2 1000 ++ []) Eof)))
  = Raise UnicodeDecodeError.
Proof.
  split; [lia|]. split; [vm_compute; discriminate|].
  destruct (recv_ignores_opcode_close_frame_raises Ref.json_loads) as (_ & _ & H).
  apply (H (Ref.connected (mkReader (x88 :: x02 :: pack_be 2 1000 ++ []) Eof))
           1000 [] Eof).
  - lia.
  - vm_compute. discriminate.
  - reflexivity.
Defined.

(** C10, as stated, fails: a Close frame whose status code is 12597, the two
    bytes of the text [15], makes [recv] return the number 15, and one whose
    status code is 3376, a carriage return and the digit [0], the number 0.
    No error is raised. *)
Lemma close_frame_of_digits_is_a_message :
  pack_be 2 12597 = Ref.ascii_bytes "15" /\
  fst (recv Ref.json_loads
         (Ref.connected (mkReader (x88 :: x02 :: pack_be 2 12597 ++ []) Eof)))
  = Ok (Some (JInt 15)) /\
  pack_be 2 3376 = [x0d; x30] /\
  fst (recv Ref.json_loads
         (Ref.connected (mkReader (x88 :: x02 :: pack_be 2 3376 ++ []) Eof)))
  = Ok (Some (JInt 0)).
Proof. repeat split; vm_compute; reflexivity. Qed.

(** C7. A new client has its counter at 0. Every [send] increments the
    counter by one, before the message is serialized, and [recv] and [close]
    leave it alone. The frame a [send] writes carries an envelope whose [id]
    field is the incremented counter. So on a connection whose counter is at
    0, consecutive sends succeed and write, in order, frames whose
    envelopes have the ids 1, 2, 3, ...: the [k]-th frame written (from 1)
    reads back as the serialization of an object whose field [id] is [k],
    with the type, route and args of the [k]-th send, and the counter ends
    at the number of envelopes sent. *)
Theorem msg_id_counts_sends
    (urandom : nat -> byte) (json_dumps : json -> bytes)
    (json_loads : str -> outcome json)
    (calls : list (Z * string * list json)) (w : World) (wr : StreamWriter) :
  writer (client w) = Some wr ->
  msg_id (client w) = 0 ->
  (forall k msg_type method args,
     nth_error calls k = Some (msg_type, method, args) ->
     Z.of_nat (length (json_dumps
        (message_dict msg_type (Z.of_nat k + 1) (lit method) args))) < 2 ^ 64) ->
  msg_id new_client = 0 /\
  (forall w0 msg_type method args,
     msg_id (client (snd (send urandom json_dumps msg_type method args w0)))
     = msg_id (client w0) + 1) /\
  (forall w0 wr0 msg_type method args f,
     writer (client w0) = Some wr0 ->
     call_frame urandom json_dumps (entropy_used w0) msg_type
                (msg_id (client w0) + 1) method args = Ok f ->
     carries_call json_dumps (map urandom (seq (entropy_used w0) 4)) msg_type
                  (msg_id (client w0) + 1) method args f /\
     exists w1,
       send urandom json_dumps msg_type method args w0 = (Ok tt, w1) /\
       writer (client w1)
         = Some (mkWriter (written wr0 ++ [Frame f]) (writer_closed wr0))) /\
  (forall w0, msg_id (client (snd (recv json_loads w0))) = msg_id (client w0)) /\
  (forall w0, msg_id (client (snd (close urandom w0))) = msg_id (client w0)) /\
  exists w' frames,
    send_all urandom json_dumps calls w = (Ok tt, w') /\
    writer (client w')
      = Some (mkWriter (written wr ++ map Frame frames) (writer_closed wr)) /\
    length frames = length calls /\
    msg_id (client w') = Z.of_nat (length calls) /\
    forall k msg_type method args,
      nth_error calls k = Some (msg_type, method, args) ->
      exists f env,
        nth_error frames k = Some f /\
        is_envelope msg_type (Z.of_nat k + 1) method args env /\
        text_frame (map urandom (seq (entropy_used w + 4 * k) 4)) (json_dumps env)
          = Ok f /\
        forall rest e,
          read_frame (mkReader (f ++ rest) e)
          = (Ok (json_dumps env), mkReader rest e).
Proof.
  intros Hw Hid Hshort.
  split; [reflexivity|].
  split; [apply send_msg_id|].
  split.
  { intros w0 wr0 t m a f Hw0 Hf. split.
    - apply (@call_frame_carries urandom json_dumps (entropy_used w0) t
               (msg_id (client w0) + 1) m a f Hf).
    - eexists. split.
      + apply (@send_writes urandom json_dumps w0 wr0 t m a f Hw0 Hf).
      + reflexivity. }
  split; [apply recv_msg_id|].
  split; [apply close_msg_id|].
  destruct (@send_all_ids urandom json_dumps calls w wr Hw)
    as (w' & frames & H1 & H2 & H3 & H5 & H4).
  { intros k t m a Hk. rewrite Hid. apply (Hshort k t m a Hk). }
  exists w', frames. rewrite Hid in H3, H4. cbn in H3.
  split; [exact H1|]. split; [exact H2|]. split; [exact H5|].
  split; [exact H3|].
  intros k t m a Hk. destruct (H4 k t m a Hk) as (f & Hf1 & Hf2).
  destruct (@call_frame_carries urandom json_dumps (entropy_used w + 4 * k) t
              (Z.of_nat k + 1) m a f Hf2) as (env & Henv & Hframe & Hread).
  exists f, env. split; [exact Hf1|]. split; [exact Henv|].
  split; [exact Hframe|exact Hread].
Qed.

Lemma msg_id_counts_sends_witness :
  let calls := [(CALL, "utilities/install_plugin"%string,
                 [JStr (lit "http://x/a.zip"); JStr (lit "demo"); JStr (lit "dev");
                  JStr []; JInt 0]);
                (CALL, "utilities/confirm_plugin_install"%string, [JStr (lit "req-1")]);
                (CALL, "utilities/confirm_plugin_install"%string, [JStr (lit "req-2")])] in
  exists w' frames,
    send_all Ref.urandom Ref.json_dumps calls (Ref.connected (mkReader [] Eof))
      = (Ok tt, w') /\
    writer (client w') = Some (mkWriter ([] ++ map Frame frames) false) /\
    length frames = 3%nat /\
    msg_id (client w') = 3 /\
    forall k msg_type method args,
      nth_error calls k = Some (msg_type, method, args) ->
      exists f env,
        nth_error frames k = Some f /\
        is_envelope msg_type (Z.of_nat k + 1) method args env /\
        text_frame (map Ref.urandom (seq (0 + 4 * k) 4)) (Ref.json_dumps env)
          = Ok f /\
        forall rest e,
          read_frame (mkReader (f ++ rest) e)
          = (Ok (Ref.json_dumps env), mkReader rest e).
Proof.
  intros calls.
  apply (@msg_id_counts_sends Ref.urandom Ref.json_dumps Ref.json_loads calls
           (Ref.connected (mkReader [] Eof)) (mkWriter [] false) eq_refl eq_refl).
  intros k t m a Hk.
  destruct k as [|[|[|k]]]; cbn in Hk;
    [| | | destruct k; discriminate];
    inversion Hk; subst; vm_compute; reflexivity.
Defined.

(** The envelopes of three consecutive sends read back by [recv] through
    the reference parser: their [id] fields are 1, 2 and 3. *)
Example ids_read_back :
  let calls := [(CALL, "utilities/install_plugin"%string, [JInt 0]);
                (CALL, "utilities/confirm_plugin_install"%string, [JStr (lit "a")]);
                (CALL, "utilities/confirm_plugin_install"%string, [JStr (lit "b")])] in
  let sent := snd (send_all Ref.urandom Ref.json_dumps calls
                            (Ref.connected (mkReader [] Eof))) in
  let peer := Ref.connected
                (mkReader (concat (map (fun x => match x with
                                                 | Frame f => f
                                                 | Handshake _ _ => []
                                                 end)
                                       match writer (client sent) with
                                       | Some wr => written wr
                                       | None => []
                                       end)) Eof) in
  let id_of (o : outcome (option json)) :=
    match o with
    | Ok (Some (JObj d)) => field "id" JNull d
    | _ => JNull
    end in
  let r1 := recv Ref.json_loads peer in
  let r2 := recv Ref.json_loads (snd r1) in
  let r3 := recv Ref.json_loads (snd r2) in
  (id_of (fst r1), id_of (fst r2), id_of (fst r3)) = (JInt 1, JInt 2, JInt 3).
Proof. vm_compute. reflexivity. Qed.

(* ================================================================== *)
(** * The order on strings *)
(* ================================================================== *)

Lemma str_eqb_eq (s t : str) : str_eqb s t = true <-> s = t.
Proof.
  revert t. induction s as [|a s IH]; intros [|b t]; cbn; try (split; congruence).
  rewrite andb_true_iff, N.eqb_eq, IH. split.
  - intros [-> ->]. reflexivity.
  - intros H. inversion H. auto.
Qed.

Lemma str_ltb_irrefl (s : str) : str_ltb s s = false.
Proof.
  induction s as [|a s IH]; cbn; [reflexivity|].
  rewrite N.ltb_irrefl, N.eqb_refl, IH. reflexivity.
Qed.

Lemma str_ltb_trans (s t u : str) :
  str_ltb s t = true -> str_ltb t u = true -> str_ltb s u = true.
Proof.
  revert t u. induction s as [|a s IH]; intros [|b t] [|c u]; cbn; try congruence.
  rewrite !orb_true_iff, !andb_true_iff, !N.ltb_lt, !N.eqb_eq.
  intros [H1|[H1 H2]] [H3|[H3 H4]].
  - left. lia.
  - left. lia.
  - left. lia.
  - right. split; [lia|]. eapply IH; eassumption.
Qed.

(** Of two strings, one is smaller or they are equal. *)
Lemma str_ltb_total (s t : str) :
  str_ltb s t = false -> str_ltb t s = false -> s = t.
Proof.
  revert t. induction s as [|a s IH]; intros [|b t]; cbn; try congruence.
  rewrite !orb_false_iff, !andb_false_iff, !N.ltb_ge, !N.eqb_neq.
  intros [H1 H2] [H3 H4].
  assert (a = b) by lia. subst b.
  f_equal. apply IH.
  - destruct H2; [congruence|assumption].
  - destruct H4; [congruence|assumption].
Qed.

(** [s <= t] and [t <= u] give [s <= u], with [s <= t] read as [not t < s]. *)
Lemma str_leb_trans (s t u : str) :
  str_ltb t s = false -> str_ltb u t = false -> str_ltb u s = false.
Proof.
  intros H1 H2. destruct (str_ltb u s) eqn:E; [|reflexivity].
  destruct (str_ltb s t) eqn:E1.
  - rewrite (str_ltb_trans _ _ _ E E1) in H2. discriminate.
  - rewrite (str_ltb_total _ _ E1 H1) in E. congruence.
Qed.

(* ================================================================== *)
(** * sorted(...)[-1] on string keys *)
(* ================================================================== *)

Lemma name_key_version_key (v : json) (s : str) :
  name_key v = Some s -> version_key v = Ok (JStr s).
Proof.
  unfold name_key, version_key, dict_get, field, py_or.
  destruct v as [| | | |l|d]; try discriminate. cbn [obind].
  destruct (lookup (lit "name") d) as [x|].
  - destruct x as [|b|n|t|l|d']; cbn [truthy];
      try destruct b; try destruct (n =? 0); try destruct l; try destruct d';
      cbn; intros H; inversion H; subst; try reflexivity.
    destruct s; reflexivity.
  - intros H. inversion H. reflexivity.
Qed.

(** The keys of versions that all have a string name. *)
Lemma keyed_names (vs : list json) :
  Forall (fun v => name_key v <> None) vs ->
  exists kvs,
    keyed vs = Ok kvs /\ map snd kvs = vs /\
    Forall (fun kv => name_key (snd kv) = Some
                        (match fst kv with JStr s => s | _ => [] end)
                      /\ str_key kv) kvs.
Proof.
  induction 1 as [|v vs Hv _ IH].
  - exists []. cbn. auto.
  - destruct IH as (kvs & Hk & Hm & Hf).
    destruct (name_key v) as [s|] eqn:E; [|congruence].
    exists ((JStr s, v) :: kvs). cbn [keyed].
    rewrite (name_key_version_key _ E). cbn [obind]. rewrite Hk. cbn [obind].
    split; [reflexivity|]. split; [cbn; congruence|].
    constructor; [|assumption]. cbn. split; [assumption|]. exists s. reflexivity.
Qed.

Lemma key_le_trans (a b c : json * json) :
  str_key a -> str_key b -> str_key c -> key_le a b -> key_le b c -> key_le a c.
Proof.
  unfold key_le, str_key. destruct a as [ka va], b as [kb vb], c as [kc vc]. cbn.
  intros [s ->] [t ->] [u ->]. cbn. intros H1 H2.
  injection H1 as H1. injection H2 as H2.
  f_equal. exact (str_leb_trans _ _ _ H1 H2).
Qed.

(** Inserting into a sorted list of string-keyed items keeps it sorted and
    adds the item. *)
Lemma insert_keyed_sorted (x : json * json) (l : list (json * json)) :
  str_key x -> Forall str_key l -> StronglySorted key_le l ->
  exists l',
    insert_keyed x l = Ok l' /\ Permutation (x :: l) l' /\
    Forall str_key l' /\ StronglySorted key_le l'.
Proof.
  intros Hx Hl Hs. induction l as [|y l IH].
  - exists [x]. cbn. repeat split; auto. constructor; constructor.
  - inversion Hl as [|? ? Hy Hl']; subst. inversion Hs as [|? ? Hs' Hall]; subst.
    destruct Hx as [s Hsx]. destruct Hy as [t Hty].
    cbn [insert_keyed]. rewrite Hsx, Hty. cbn [py_lt].
    destruct (str_ltb s t) eqn:E.
    + exists (x :: y :: l). split; [reflexivity|]. split; [reflexivity|].
      split; [constructor; [exists s; assumption | assumption]|].
      assert (Hxy : key_le x y).
      { unfold key_le. rewrite Hsx, Hty. cbn. f_equal.
        destruct (str_ltb t s) eqn:E'; [|reflexivity].
        pose proof (str_ltb_trans _ _ _ E E') as C.
        rewrite str_ltb_irrefl in C. discriminate. }
      constructor; [assumption|]. constructor; [assumption|].
      rewrite Forall_forall in *. intros z Hz.
      apply key_le_trans with (b := y); auto.
      * exists s; assumption.
      * exists t; assumption.
    + destruct (IH Hl' Hs') as (l' & Hins & Hperm & Hstr & Hsorted).
      rewrite Hins. cbn [obind].
      exists (y :: l'). split; [reflexivity|].
      split.
      { rewrite perm_swap. constructor. assumption. }
      split; [constructor; [exists t; assumption | assumption]|].
      constructor; [assumption|].
      rewrite Forall_forall. intros z Hz.
      apply (Permutation_in _ (Permutation_sym Hperm)) in Hz.
      destruct Hz as [<-|Hz].
      * unfold key_le. rewrite Hsx, Hty. cbn. rewrite E. reflexivity.
      * rewrite Forall_forall in Hall. auto.
Qed.

Lemma sort_keyed_sorted (l acc : list (json * json)) :
  Forall str_key l -> Forall str_key acc -> StronglySorted key_le acc ->
  exists sorted,
    sort_keyed acc l = Ok sorted /\ Permutation (acc ++ l) sorted /\
    Forall str_key sorted /\ StronglySorted key_le sorted.
Proof.
  revert acc. induction l as [|x l IH]; intros acc Hl Hacc Hs.
  - exists acc. cbn. rewrite app_nil_r. auto.
  - inversion Hl as [|? ? Hx Hl']; subst.
    destruct (insert_keyed_sorted Hx Hacc Hs) as (acc' & Hins & Hperm & Hstr & Hsorted).
    destruct (IH acc' Hl' Hstr Hsorted) as (sorted & Hsort & Hperm' & Hstr' & Hsorted').
    exists sorted. cbn [sort_keyed]. rewrite Hins. cbn [obind].
    split; [assumption|]. split; [|auto].
    rewrite <- Hperm'. rewrite <- Hperm.
    rewrite <- Permutation_middle. reflexivity.
Qed.

(** The last item of a sorted list is not smaller than any item. *)
Lemma sorted_last_max (l : list (json * json)) (m : json * json) :
  Forall str_key l -> StronglySorted key_le l ->
  forall z, In z (l ++ [m]) -> StronglySorted key_le (l ++ [m]) ->
  str_key m -> key_le z m.
Proof.
  intros Hl _ z Hz Hs Hm. induction l as [|y l IH].
  - destruct Hz as [<-|[]]. destruct Hm as [s Hm]. unfold key_le.
    rewrite Hm. cbn. rewrite str_ltb_irrefl. reflexivity.
  - cbn in Hs. inversion Hs as [|? ? Hs' Hall]; subst.
    inversion Hl; subst.
    destruct Hz as [<-|Hz].
    + rewrite Forall_forall in Hall. apply Hall. apply in_or_app. right. left. reflexivity.
    + apply IH; assumption.
Qed.

(** On versions that all have a string name, [sorted(...)[-1]] succeeds and
    returns a version whose name no other name is greater than. *)
Lemma latest_version_max (vs : list json) :
  vs <> [] ->
  Forall (fun v => name_key v <> None) vs ->
  exists v s,
    latest_version (JArr vs) = Ok v /\ In v vs /\ name_key v = Some s /\
    forall w t, In w vs -> name_key w = Some t -> str_ltb s t = false.
Proof.
  intros Hne Hnames.
  destruct (keyed_names Hnames) as (kvs & Hk & Hmap & Hkv).
  assert (Hstr : Forall str_key kvs).
  { rewrite Forall_forall in *. intros kv H. apply Hkv. assumption. }
  destruct (@sort_keyed_sorted kvs [] Hstr (Forall_nil _) (SSorted_nil _))
    as (sorted & Hsort & Hperm & Hstr' & Hsorted).
  cbn [app] in Hperm.
  unfold latest_version. cbn [py_iter obind]. rewrite Hk. cbn [obind].
  rewrite Hsort. cbn [obind].
  destruct (rev sorted) as [|m r] eqn:Erev.
  { apply (f_equal (@rev _)) in Erev. rewrite rev_involutive in Erev. cbn in Erev.
    subst sorted. apply Permutation_sym, Permutation_nil in Hperm. subst kvs.
    cbn in Hmap. congruence. }
  assert (Hs : sorted = rev r ++ [m]).
  { apply (f_equal (@rev _)) in Erev. rewrite rev_involutive in Erev. exact Erev. }
  assert (Hin_m : In m kvs).
  { apply (Permutation_in _ (Permutation_sym Hperm)). rewrite Hs.
    apply in_or_app. right. left. reflexivity. }
  destruct m as [km vm].
  rewrite Forall_forall in Hkv. destruct (Hkv _ Hin_m) as [Hname [s Hkm]].
  cbn [fst snd] in *. subst km.
  exists vm, s. split; [reflexivity|].
  split; [rewrite <- Hmap; apply (in_map snd _ _ Hin_m)|].
  split; [exact Hname|].
  intros w t Hw Hwt. rewrite <- Hmap in Hw. apply in_map_iff in Hw.
  destruct Hw as ([kw vw] & Hsnd & Hw). cbn in Hsnd. subst vw.
  destruct (Hkv _ Hw) as [Hname_w [t' Hkw]]. cbn [fst snd] in *. subst kw.
  assert (t' = t) by congruence. subst t'.
  assert (Hle : key_le (JStr t, w) (JStr s, vm)).
  { apply (@sorted_last_max (rev r) (JStr s, vm)).
    - rewrite Hs in Hstr'. apply Forall_app in Hstr'. tauto.
    - rewrite Hs in Hsorted. clear - Hsorted.
      induction (rev r) as [|y l IH]; [constructor|].
      cbn in Hsorted. inversion Hsorted; subst. constructor; [auto|].
      rewrite Forall_forall in *. intros z Hz. apply H2. apply in_or_app. auto.
    - rewrite <- Hs. apply (Permutation_in _ Hperm). assumption.
    - rewrite <- Hs. assumption.
    - exists s. reflexivity. }
  unfold key_le in Hle. cbn in Hle. congruence.
Qed.

(** C3. From a non-empty list of versions that all have a string name (or
    none, which counts as the empty string), the install flow takes a version
    of the list whose name no other name is greater than in the
    lexicographic order on strings. This is not the order of version
    numbers: from the names 1.0.0, 1.9.0, 1.10.0 it takes 1.9.0, both in
    [sorted(...)[-1]] and in the arguments of the install Call. *)
Theorem latest_version_is_lexicographic_last
    (int_of_str : str -> option Z) (vs : list json) :
  vs <> [] ->
  Forall (fun v => name_key v <> None) vs ->
  (exists v s,
     latest_version (JArr vs) = Ok v /\ In v vs /\ name_key v = Some s /\
     forall w t, In w vs -> name_key w = Some t -> str_ltb s t = false) /\
  latest_version (JArr [Ref.version "1.0.0" "http://x/100.zip" "h100";
                        Ref.version "1.9.0" "http://x/190.zip" "h190";
                        Ref.version "1.10.0" "http://x/1100.zip" "h1100"])
    = Ok (Ref.version "1.9.0" "http://x/190.zip" "h190") /\
  str_ltb (lit "1.10.0") (lit "1.9.0") = true /\
  catalog_step int_of_str
    (JArr [JObj [(lit "id", JInt 42); (lit "name", JStr (lit "demo"));
                 (lit "versions",
                  JArr [Ref.version "1.0.0" "http://x/100.zip" "h100";
                        Ref.version "1.9.0" "http://x/190.zip" "h190";
                        Ref.version "1.10.0" "http://x/1100.zip" "h1100"])]]) 42
    = Ok [JStr (lit "http://x/190.zip"); JStr (lit "demo"); JStr (lit "1.9.0");
          JStr (lit "h190"); JInt 0].
Proof.
  intros Hne Hnames.
  split; [apply latest_version_max; assumption|].
  split; [vm_compute; reflexivity|].
  split; [vm_compute; reflexivity|].
  vm_compute. reflexivity.
Qed.

Lemma latest_version_is_lexicographic_last_witness :
  let vs := [Ref.version "2.0" "http://x/2.zip" ""; JObj []; Ref.version "10.0" "http://x/10.zip" ""] in
  vs <> [] /\ Forall (fun v => name_key v <> None) vs /\
  exists v s,
    latest_version (JArr vs) = Ok v /\ In v vs /\ name_key v = Some s /\
    forall w t, In w vs -> name_key w = Some t -> str_ltb s t = false.
Proof.
  intros vs.
  assert (H1 : vs <> []) by discriminate.
  assert (H2 : Forall (fun v => name_key v <> None) vs)
    by (repeat constructor; vm_compute; discriminate).
  split; [exact H1|]. split; [exact H2|].
  apply (@latest_version_is_lexicographic_last Ref.int_of_str vs H1 H2).
Defined.

(* ================================================================== *)
(** * The workflows up to the first Call *)
(* ================================================================== *)

Section FlowFacts.

Variable urandom : nat -> byte.
Variable urlopen : str -> outcome bytes.
Variable open_connection : outcome unit.
Variable handshake : str -> bytes -> outcome unit * StreamReader.
Variable json_dumps : json -> bytes.
Variable json_loads : str -> outcome json.
Variable int_of_str : str -> option Z.

Variable w : World.
Variable token_body : bytes.
Variable token_text : str.
Variable r0 : StreamReader.

Let token := strip token_text.
Let key := map urandom (seq (entropy_used w) 16).

Hypothesis Htoken : urlopen token_url = Ok token_body.
Hypothesis Htext : utf8_decode token_body = Some token_text.
Hypothesis Hopen : open_connection = Ok tt.
Hypothesis Hhandshake : handshake token key = (Ok tt, r0).

(** With the token fetched and the handshake accepted, a workflow reaches
    the code after [connect] in the state [after_connect]. *)
Lemma prelude_ok {A : Type} (first : log_line) (k : M A) :
  (log first ;;
   tok <- get_token urlopen ;;
   connect urandom open_connection handshake tok ;;
   k) (set_client new_client w)
  = k (after_connect w token key r0 [first]).
Proof.
  unfold get_token, connect.
  st_step. rewrite Htoken. st_step. rewrite Htext. st_step.
  rewrite Hopen. st_step.
  st_state.
  fold token. change (map urandom (seq (entropy_used w) 16)) with key.
  rewrite Hhandshake. reflexivity.
Qed.

(** A workflow that raises [e] after [connect] and before any [send]: the
    error is logged, the Close frame is written, and the error is raised
    again unless [close] raises its own. *)
Lemma fail_after_connect (e : exn) (logged : list log_line) :
  (log (LogError e) ;; close urandom ;; raise (A := option unit) e)
    (after_connect w token key r0 logged)
  = (match ending r0 with Eof => Raise e | Reset => Raise ConnectionError end,
     mkWorld (mkClient (Some r0) (Some (only_handshake_and_close urandom w token)) 0)
             (entropy_used w + 16 + 4) (stderr w ++ logged ++ [LogError e])).
Proof.
  unfold after_connect, only_handshake_and_close.
  st_step.
  match goal with
  | |- context [close urandom ?x] =>
      rewrite (@close_unfold urandom x (mkWriter [Handshake token key] false) eq_refl)
  end.
  unfold link_dropped. cbn [client reader writer msg_id entropy_used stderr written app].
  rewrite <- app_assoc.
  destruct (ending r0); reflexivity.
Qed.

Variable store_url : str.
Variable store_body : bytes.
Variable store_raw : str.
Variable plugins : json.

Hypothesis Hstore : urlopen store_url = Ok store_body.
Hypothesis Hraw : utf8_decode store_body = Some store_raw.
Hypothesis Hplugins : json_loads store_raw = Ok plugins.

(** [run_installer] up to the catalog step. *)
Lemma installer_body_catalog (fuel : nat) (target_id : Z) :
  installer_body urandom urlopen open_connection handshake json_dumps json_loads
                 int_of_str fuel target_id store_url (set_client new_client w)
  = match catalog_step int_of_str plugins target_id with
    | Ok call_args =>
        (log (LogInstalling (nth 1 call_args JNull) (nth 2 call_args JNull)) ;;
         send urandom json_dumps CALL "utilities/install_plugin" call_args ;;
         install_loop urandom json_dumps json_loads fuel)
          (after_connect w token key r0
             [LogContacting; LogConnectionEstablished target_id])
    | Raise e =>
        (Raise e,
         after_connect w token key r0
           [LogContacting; LogConnectionEstablished target_id])
    end.
Proof.
  unfold installer_body. rewrite prelude_ok.
  st_step. rewrite Hstore. st_step. rewrite Hraw. st_step. rewrite Hplugins.
  st_step. unfold after_connect. cbn [client entropy_used stderr].
  rewrite <- app_assoc. cbn [app].
  destruct (catalog_step int_of_str plugins target_id); reflexivity.
Qed.

(** A failure of the catalog step ends [run_installer] with that error, or
    with the error of [close] on a dropped link, and nothing but the Upgrade
    request and the Close frame has been written. *)
Lemma run_installer_catalog_failure (fuel : nat) (target_id : Z) (e : exn) :
  catalog_step int_of_str plugins target_id = Raise e ->
  exists w',
    run_installer urandom urlopen open_connection handshake json_dumps json_loads
                  int_of_str fuel target_id store_url w
    = (match ending r0 with Eof => Raise e | Reset => Raise ConnectionError end, w') /\
    writer (client w') = Some (only_handshake_and_close urandom w token).
Proof.
  intros He. unfold run_installer, installer_outcome.
  rewrite installer_body_catalog, He. rewrite fail_after_connect.
  eexists. split; reflexivity.
Qed.

End FlowFacts.

(* ================================================================== *)
(** * The catalog step *)
(* ================================================================== *)

Lemma py_or_true (v w : json) : truthy v = true -> py_or v w = v.
Proof. unfold py_or. intros ->. reflexivity. Qed.

Lemma py_or_false (v w : json) : truthy v = false -> py_or v w = w.
Proof. unfold py_or. intros ->. reflexivity. Qed.

Section CatalogFacts.

Variable int_of_str : str -> option Z.

Lemma find_plugin_none (ps : list json) (target_id : Z) :
  Forall (no_match int_of_str target_id) ps ->
  find_plugin int_of_str ps target_id = Ok JNull.
Proof.
  induction 1 as [|p ps (n & Hn & Hne) _ IH]; cbn [find_plugin]; [reflexivity|].
  rewrite Hn. cbn [obind].
  destruct (Z.eqb_spec n target_id); [contradiction|assumption].
Qed.

Lemma find_plugin_first (before after : list json) (entry : json) (target_id : Z) :
  Forall (no_match int_of_str target_id) before ->
  entry_id int_of_str entry = Ok target_id ->
  find_plugin int_of_str (before ++ entry :: after) target_id = Ok entry.
Proof.
  intros Hb He.
  induction Hb as [|p ps (n & Hn & Hne) _ IH]; cbn [find_plugin app].
  - rewrite He. cbn [obind]. rewrite Z.eqb_refl. reflexivity.
  - rewrite Hn. cbn [obind].
    destruct (Z.eqb_spec n target_id); [contradiction|assumption].
Qed.

(** An entry with an id is a non-empty dict. *)
Lemma entry_id_dict (entry : json) (n : Z) :
  entry_id int_of_str entry = Ok n ->
  exists d, entry = JObj d /\ truthy entry = true.
Proof.
  unfold entry_id, dict_get.
  destruct entry as [| | | | |d]; try discriminate.
  destruct d as [|kv d]; [discriminate|].
  intros _. exists (kv :: d). auto.
Qed.

(** No entry matches: the catalog step raises "plugin id ... not found". *)
Lemma catalog_step_not_found (ps : list json) (target_id : Z) :
  Forall (no_match int_of_str target_id) ps ->
  catalog_step int_of_str (JArr ps) target_id
  = Raise (RuntimeError (PluginIdNotFound target_id)).
Proof.
  intros H. unfold catalog_step. cbn [py_iter obind].
  rewrite (@find_plugin_none ps target_id H). reflexivity.
Qed.

(** The first matching entry has no versions: "store entry missing
    versions", whatever else the entry holds. *)
Lemma catalog_step_no_versions (before after : list json) (d : list (str * json))
    (target_id : Z) :
  Forall (no_match int_of_str target_id) before ->
  entry_id int_of_str (JObj d) = Ok target_id ->
  truthy (field "versions" JNull d) = false ->
  catalog_step int_of_str (JArr (before ++ JObj d :: after)) target_id
  = Raise (RuntimeError StoreEntryMissingVersions).
Proof.
  intros Hb He Hv. unfold catalog_step. cbn [py_iter obind].
  rewrite (@find_plugin_first before after (JObj d) target_id Hb He). cbn [obind].
  destruct (@entry_id_dict (JObj d) target_id He) as (d' & _ & Ht). rewrite Ht. cbn [negb].
  cbn [dict_get obind].
  rewrite (py_or_false _ (JArr []) Hv). reflexivity.
Qed.

(** The version taken lacks an artifact URL: "latest version missing
    artifact URL". *)
Lemma catalog_step_no_artifact (before after : list json)
    (d latest : list (str * json)) (versions : json) (target_id : Z) :
  Forall (no_match int_of_str target_id) before ->
  entry_id int_of_str (JObj d) = Ok target_id ->
  field "versions" JNull d = versions ->
  truthy versions = true ->
  latest_version versions = Ok (JObj latest) ->
  truthy (field "artifact" JNull latest) = false ->
  catalog_step int_of_str (JArr (before ++ JObj d :: after)) target_id
  = Raise (RuntimeError LatestVersionMissingArtifactURL).
Proof.
  intros Hb He Hvs Hv Hlatest Hart. unfold catalog_step. cbn [py_iter obind].
  rewrite (@find_plugin_first before after (JObj d) target_id Hb He). cbn [obind].
  destruct (@entry_id_dict (JObj d) target_id He) as (d' & _ & Ht). rewrite Ht. cbn [negb].
  cbn [dict_get obind]. rewrite Hvs.
  rewrite (py_or_true _ (JArr []) Hv), Hv. cbn [negb].
  rewrite Hlatest. cbn [obind dict_get].
  rewrite (py_or_false _ (JStr []) Hart). reflexivity.
Qed.

End CatalogFacts.

(** C4. In a run of [run_installer] that has connected and fetched the
    plugin list [ps] of the store:
    - when every entry has an id that normalizes to an integer other than
      the target, the [try] block raises "plugin id ... not found";
    - when the first entry with the target's id has no versions (missing,
      or empty), it raises "store entry missing versions";
    - when that entry has versions and the one taken has no artifact URL
      (missing, or empty), it raises "latest version missing artifact URL".
    The checks come in this order: the first does not look at versions, the
    second does not look at artifacts. Each failure ends the run: the error
    is logged, the connection is closed, and [run_installer] raises the
    error, or the [ConnectionResetError] of [close] when the peer had
    dropped the link. On the connection only the Upgrade request and the
    Close frame have been written: no Call was sent. *)
Theorem catalog_failures_are_terminal_and_silent
    (urandom : nat -> byte) (urlopen : str -> outcome bytes)
    (open_connection : outcome unit)
    (handshake : str -> bytes -> outcome unit * StreamReader)
    (json_dumps : json -> bytes) (json_loads : str -> outcome json)
    (int_of_str : str -> option Z)
    (w : World) (token_body : bytes) (token_text : str) (r0 : StreamReader)
    (store_url : str) (store_body : bytes) (store_raw : str) (ps : list json)
    (fuel : nat) (target_id : Z) :
  urlopen token_url = Ok token_body ->
  utf8_decode token_body = Some token_text ->
  open_connection = Ok tt ->
  handshake (strip token_text) (map urandom (seq (entropy_used w) 16)) = (Ok tt, r0) ->
  urlopen store_url = Ok store_body ->
  utf8_decode store_body = Some store_raw ->
  json_loads store_raw = Ok (JArr ps) ->
  let body := installer_body urandom urlopen open_connection handshake json_dumps
                             json_loads int_of_str fuel target_id store_url
                             (set_client new_client w) in
  let run := run_installer urandom urlopen open_connection handshake json_dumps
                           json_loads int_of_str fuel target_id store_url w in
  let fails_with (m : runtime_msg) :=
    fst body = Raise (RuntimeError m) /\
    fst run = match ending r0 with
              | Eof => Raise (RuntimeError m)
              | Reset => Raise ConnectionError
              end /\
    (exists logged, stderr (snd run) = logged ++ [LogError (RuntimeError m)]) /\
    writer (client (snd run))
    = Some (only_handshake_and_close urandom w (strip token_text)) in
  (Forall (no_match int_of_str target_id) ps ->
   fails_with (PluginIdNotFound target_id)) /\
  (forall before d after,
     ps = before ++ JObj d :: after ->
     Forall (no_match int_of_str target_id) before ->
     entry_id int_of_str (JObj d) = Ok target_id ->
     (truthy (field "versions" JNull d) = false ->
      fails_with StoreEntryMissingVersions) /\
     (forall versions latest,
        field "versions" JNull d = versions ->
        truthy versions = true ->
        latest_version versions = Ok (JObj latest) ->
        truthy (field "artifact" JNull latest) = false ->
        fails_with LatestVersionMissingArtifactURL)).
Proof.
  intros Htoken Htext Hopen Hhs Hstore Hraw Hplugins body run fails_with.
  assert (Hfail : forall m,
            catalog_step int_of_str (JArr ps) target_id = Raise (RuntimeError m) ->
            fails_with m).
  { intros m He. unfold fails_with.
    pose proof (@installer_body_catalog urandom urlopen open_connection handshake
                  json_dumps json_loads int_of_str w token_body token_text r0
                  Htoken Htext Hopen Hhs store_url store_body store_raw (JArr ps)
                  Hstore Hraw Hplugins fuel target_id) as Hbody.
    fold body in Hbody. rewrite He in Hbody.
    split; [rewrite Hbody; reflexivity|].
    unfold run, run_installer, installer_outcome. fold body. rewrite Hbody.
    rewrite (@fail_after_connect urandom w token_text r0 (RuntimeError m)
               [LogContacting; LogConnectionEstablished target_id]).
    cbn [fst snd stderr client writer].
    split; [reflexivity|]. split; [|reflexivity].
    exists (stderr w ++ [LogContacting; LogConnectionEstablished target_id]).
    rewrite <- app_assoc. reflexivity. }
  split.
  - intros Hnone. apply Hfail. apply catalog_step_not_found. assumption.
  - intros before d after -> Hb He. split.
    + intros Hv. apply Hfail. apply catalog_step_no_versions; assumption.
    + intros versions latest Hvs Hv Hl Ha. apply Hfail.
      apply (@catalog_step_no_artifact int_of_str before after d latest versions
               target_id Hb He Hvs Hv Hl Ha).
Qed.

Lemma catalog_failures_are_terminal_and_silent_witness :
  let catalog := [Ref.plugin (JStr (lit "7")) "other"
                    [Ref.version "1.0" "http://x/o.zip" "abc"]] in
  let dropped := fun (_ : str) (_ : bytes) => (Ok tt, mkReader [] Reset) in
  let run := run_installer Ref.urandom (Ref.urlopen (JArr catalog)) (Ok tt)
               (Ref.handshake []) Ref.json_dumps Ref.json_loads Ref.int_of_str
               5 42 Ref.store_url Ref.start in
  let run' := run_installer Ref.urandom (Ref.urlopen (JArr catalog)) (Ok tt)
                dropped Ref.json_dumps Ref.json_loads Ref.int_of_str
                5 42 Ref.store_url Ref.start in
  Forall (no_match Ref.int_of_str 42) catalog /\
  fst run = Raise (RuntimeError (PluginIdNotFound 42)) /\
  writer (client (snd run))
  = Some (only_handshake_and_close Ref.urandom Ref.start (lit "tok123")) /\
  fst run' = Raise ConnectionError /\
  writer (client (snd run'))
  = Some (only_handshake_and_close Ref.urandom Ref.start (lit "tok123")).
Proof.
  intros catalog dropped run run'.
  assert (Hnone : Forall (no_match Ref.int_of_str 42) catalog).
  { repeat constructor. exists 7. split; [reflexivity|discriminate]. }
  split; [exact Hnone|].
  assert (H : forall hs r0,
            hs (lit "tok123") (map Ref.urandom (seq 0 16)) = (Ok tt, r0) ->
            let run0 := run_installer Ref.urandom (Ref.urlopen (JArr catalog)) (Ok tt)
                          hs Ref.json_dumps Ref.json_loads Ref.int_of_str
                          5 42 Ref.store_url Ref.start in
            fst run0 = match ending r0 with
                       | Eof => Raise (RuntimeError (PluginIdNotFound 42))
                       | Reset => Raise ConnectionError
                       end /\
            writer (client (snd run0))
            = Some (only_handshake_and_close Ref.urandom Ref.start (lit "tok123"))).
  { intros hs r0 Hhs.
    destruct (proj1 (@catalog_failures_are_terminal_and_silent
                Ref.urandom (Ref.urlopen (JArr catalog)) (Ok tt) hs
                Ref.json_dumps Ref.json_loads Ref.int_of_str Ref.start
                (Ref.ascii_bytes " tok123 ") (lit " tok123 ") r0
                Ref.store_url (Ref.json_dumps (JArr catalog))
                (Ref.dumps (JArr catalog)) catalog 5 42
                eq_refl eq_refl eq_refl Hhs eq_refl eq_refl eq_refl) Hnone)
      as (_ & Hrun & _ & Hwr).
    split; [exact Hrun|exact Hwr]. }
  destruct (H (Ref.handshake []) (mkReader [] Eof) eq_refl) as [H1 H2].
  destruct (H dropped (mkReader [] Reset) eq_refl) as [H3 H4].
  repeat split; assumption.
Defined.

(* ================================================================== *)
(** * The receive loop of the install flow *)
(* ================================================================== *)

(** A message is not both events. *)
Lemma prompt_is_not_finish (d : list (str * json)) :
  is_event "loader/plugin_download_finish" d = true ->
  is_event "loader/add_plugin_install_prompt" d = false.
Proof.
  unfold is_event. rewrite !andb_true_iff. intros [Ht He].
  rewrite Ht. cbn [andb].
  destruct (field "event" JNull d) as [| | |s| |]; try reflexivity.
  cbn [eq_str] in *. apply str_eqb_eq in He. subst s. reflexivity.
Qed.

Section LoopFacts.

Variable urandom : nat -> byte.
Variable json_dumps : json -> bytes.
Variable json_loads : str -> outcome json.

(** A prompt with a request id at position 2 of its args: the loop logs,
    sends the confirmation, and goes on. *)
Lemma install_loop_prompt (fuel : nat) (w w1 : World) (d : list (str * json))
    (args : list json) (request_id : json) (wr : StreamWriter) (f : bytes) :
  recv json_loads w = (Ok (Some (JObj d)), w1) ->
  is_event "loader/add_plugin_install_prompt" d = true ->
  field "args" (JArr []) d = JArr args ->
  nth_error args 2 = Some request_id ->
  writer (client w1) = Some wr ->
  call_frame urandom json_dumps (entropy_used w1) CALL (msg_id (client w1) + 1)
             "utilities/confirm_plugin_install" [request_id] = Ok f ->
  install_loop urandom json_dumps json_loads (S fuel) w
  = install_loop urandom json_dumps json_loads fuel
      (mkWorld (mkClient (reader (client w1))
                  (Some (mkWriter (written wr ++ [Frame f]) (writer_closed wr)))
                  (msg_id (client w1) + 1))
               (entropy_used w1 + 4) (stderr w1 ++ [LogPromptReceived])).
Proof.
  intros Hrecv Hev Hargs Hnth Hw Hf.
  cbn [install_loop]. st_step. rewrite Hrecv. st_step.
  cbn [dict_get]. unfold is_event in Hev. rewrite Hev. rewrite Hargs.
  cbn [py_len py_getitem].
  assert (Hlen : (2 < length args)%nat) by (apply nth_error_Some; congruence).
  destruct (Z.ltb_spec (Z.of_nat (length args)) 3); [lia|].
  rewrite Hnth.
  pose proof (@send_writes urandom json_dumps
                (mkWorld (client w1) (entropy_used w1) (stderr w1 ++ [LogPromptReceived]))
                wr CALL "utilities/confirm_plugin_install" [request_id] f Hw Hf) as Hs.
  cbn [client entropy_used stderr] in Hs. rewrite Hs. reflexivity.
Qed.

(** A prompt with fewer than 3 args: the loop logs it and goes on; nothing
    is sent. *)
Lemma install_loop_short_prompt (fuel : nat) (w w1 : World) (d : list (str * json))
    (args : list json) :
  recv json_loads w = (Ok (Some (JObj d)), w1) ->
  is_event "loader/add_plugin_install_prompt" d = true ->
  field "args" (JArr []) d = JArr args ->
  (length args < 3)%nat ->
  install_loop urandom json_dumps json_loads (S fuel) w
  = install_loop urandom json_dumps json_loads fuel
      (mkWorld (client w1) (entropy_used w1)
               (stderr w1 ++ [LogInvalidPromptArgs (JArr args)])).
Proof.
  intros Hrecv Hev Hargs Hlen.
  cbn [install_loop]. st_step. rewrite Hrecv. st_step.
  cbn [dict_get]. unfold is_event in Hev. rewrite Hev. rewrite Hargs.
  cbn [py_len].
  destruct (Z.ltb_spec (Z.of_nat (length args)) 3); [|lia].
  reflexivity.
Qed.

(** The finish event: the loop logs it and ends with [success] set. *)
Lemma install_loop_finish (fuel : nat) (w w1 : World) (d : list (str * json)) :
  recv json_loads w = (Ok (Some (JObj d)), w1) ->
  is_event "loader/plugin_download_finish" d = true ->
  install_loop urandom json_dumps json_loads (S fuel) w
  = (Ok (Some true),
     mkWorld (client w1) (entropy_used w1)
             (stderr w1 ++ [LogInstallationSuccessful (field "args" JNull d)])).
Proof.
  intros Hrecv Hev.
  cbn [install_loop]. st_step. rewrite Hrecv. st_step.
  cbn [dict_get]. pose proof (prompt_is_not_finish d Hev) as Hp.
  unfold is_event in Hp, Hev. rewrite Hp, Hev. reflexivity.
Qed.

End LoopFacts.

(* ================================================================== *)
(** * close, and what recv changes *)
(* ================================================================== *)

Section CloseFacts.

Variable urandom : nat -> byte.
Variable json_loads : str -> outcome json.

(** [close] raises only the connection error of [wait_closed], and only on
    an open connection whose link was dropped. *)
Lemma close_fst (w : World) : fst (close urandom w) = finally_close w (Ok tt).
Proof.
  unfold finally_close, close_raises.
  destruct (writer (client w)) as [wr|] eqn:Hw.
  - rewrite (@close_unfold urandom w wr Hw). reflexivity.
  - rewrite (@close_unconnected urandom w Hw). reflexivity.
Qed.

(** [close] leaves the reader alone. *)
Lemma close_reader (w : World) :
  reader (client (snd (close urandom w))) = reader (client w).
Proof.
  destruct (writer (client w)) as [wr|] eqn:Hw.
  - rewrite (@close_unfold urandom w wr Hw). reflexivity.
  - rewrite (@close_unconnected urandom w Hw). reflexivity.
Qed.

(** [close] on an open connection writes the Close frame and closes,
    whether [wait_closed] raises or not. *)
Lemma close_writer (w : World) (wr : StreamWriter) :
  writer (client w) = Some wr ->
  writer (client (snd (close urandom w)))
  = Some (mkWriter
            (written wr ++ [Frame (close_frame (map urandom (seq (entropy_used w) 4)))])
            true).
Proof. intros Hw. rewrite (@close_unfold urandom w wr Hw). reflexivity. Qed.

(** [close] logs nothing. *)
Lemma close_stderr (w : World) : stderr (snd (close urandom w)) = stderr w.
Proof.
  destruct (writer (client w)) as [wr|] eqn:Hw.
  - rewrite (@close_unfold urandom w wr Hw). reflexivity.
  - rewrite (@close_unconnected urandom w Hw). reflexivity.
Qed.

(** What [close] raises depends on the client only. *)
Lemma finally_close_client {A : Type} (w w' : World) (o : outcome A) :
  client w' = client w -> finally_close w' o = finally_close w o.
Proof.
  intros H. unfold finally_close, close_raises, link_dropped. rewrite H. reflexivity.
Qed.

(** The epilogue of [run_installer]: the outcome of the [try] block goes
    through [close]. *)
Lemma installer_outcome_fst (body : M (option bool)) (w : World) :
  fst (installer_outcome urandom body w)
  = match fst (body w) with
    | Ok (Some true) => finally_close (snd (body w)) (Ok (Some tt))
    | Ok (Some false) =>
        finally_close (snd (body w)) (Raise (RuntimeError InstallationDidNotComplete))
    | Ok None => Ok None
    | Raise e => finally_close (snd (body w)) (Raise e)
    end.
Proof.
  unfold installer_outcome. destruct (body w) as [[[b|]|e] w']; cbn [fst snd].
  - st_step. pose proof (close_fst w') as Hc.
    destruct (close urandom w') as [[u|x] s']; cbn [fst] in Hc;
      unfold finally_close in *; destruct (close_raises w'); try discriminate;
      destruct b; try reflexivity; inversion Hc; reflexivity.
  - reflexivity.
  - st_step.
    match goal with
    | |- context [close urandom ?x] =>
        pose proof (close_fst x) as Hc;
        rewrite (@finally_close_client unit w' x (Ok tt) eq_refl) in Hc;
        destruct (close urandom x) as [[u|x'] s']
    end; cbn [fst] in Hc; unfold finally_close in *;
      destruct (close_raises w'); try discriminate; try reflexivity;
      inversion Hc; reflexivity.
Qed.

Lemma keeps_ending_ret {A : Type} (a : A) : keeps_ending (ret a).
Proof. intros r. reflexivity. Qed.

Lemma keeps_ending_readexactly (n : Z) : keeps_ending (readexactly n).
Proof.
  intros r. unfold readexactly.
  destruct (n <=? Z.of_nat (length (incoming r))); [reflexivity|].
  destruct (ending r); reflexivity.
Qed.

Lemma keeps_ending_bind {A B : Type} (c : ST StreamReader A)
    (k : A -> ST StreamReader B) :
  keeps_ending c -> (forall a, keeps_ending (k a)) -> keeps_ending (bind c k).
Proof.
  intros Hc Hk r. unfold bind. specialize (Hc r).
  destruct (c r) as [[a|e] r1]; cbn [snd] in *.
  - rewrite Hk. exact Hc.
  - exact Hc.
Qed.

Lemma keeps_ending_read_frame : keeps_ending read_frame.
Proof.
  unfold read_frame.
  apply keeps_ending_bind; [apply keeps_ending_readexactly|]. intros head.
  apply keeps_ending_bind.
  { destruct (_ =? 126).
    - apply keeps_ending_bind; [apply keeps_ending_readexactly|].
      intros; apply keeps_ending_ret.
    - destruct (_ =? 127).
      + apply keeps_ending_bind; [apply keeps_ending_readexactly|].
        intros; apply keeps_ending_ret.
      + apply keeps_ending_ret. }
  intros len.
  apply keeps_ending_bind.
  { destruct (negb _).
    - apply keeps_ending_bind; [apply keeps_ending_readexactly|].
      intros; apply keeps_ending_ret.
    - apply keeps_ending_ret. }
  intros mask.
  apply keeps_ending_bind; [apply keeps_ending_readexactly|].
  intros; apply keeps_ending_ret.
Qed.

(** [recv] does not change what [close] will do: a link that was dropped
    stays dropped, and one that was not is not found dropped. *)
Lemma recv_close_raises (w : World) :
  close_raises (snd (recv json_loads w)) = close_raises w.
Proof.
  unfold close_raises, link_dropped.
  destruct (reader (client w)) as [r|] eqn:Hr.
  - rewrite (recv_unfold json_loads w Hr).
    pose proof (keeps_ending_read_frame r) as He.
    destruct (read_frame r) as [[payload|x] r']; cbn [snd] in He.
    + destruct (utf8_decode payload) as [s|]; [|cbn; rewrite He; reflexivity].
      destruct (json_loads s) as [m|x]; [cbn; rewrite He; reflexivity|].
      destruct (is_closed_stream_error x); cbn; rewrite He; reflexivity.
    + destruct (is_closed_stream_error x); cbn; rewrite He; reflexivity.
  - unfold recv, try_except, bind, with_reader. rewrite Hr. cbn. rewrite Hr.
    reflexivity.
Qed.

(** [recv] changes the reader and nothing else. *)
Lemma recv_state (w : World) :
  writer (client (snd (recv json_loads w))) = writer (client w) /\
  entropy_used (snd (recv json_loads w)) = entropy_used w /\
  stderr (snd (recv json_loads w)) = stderr w.
Proof.
  unfold recv, try_except, bind, with_reader.
  destruct (reader (client w)) as [r|]; [|auto].
  destruct (read_frame r) as [[payload|e] r'].
  - unfold decode. destruct (utf8_decode payload) as [s|]; [|auto].
    cbn. destruct (json_loads s) as [m|e]; [auto|].
    cbn. destruct (is_closed_stream_error e); auto.
  - destruct (is_closed_stream_error e); auto.
Qed.

(** A complete frame with a JSON payload at the head of the stream: [recv]
    returns the message, [None] when it is [null]. *)
Lemma recv_message (w : World) (r r1 : StreamReader) (payload : bytes) (s : str)
    (msg : json) :
  reader (client w) = Some r ->
  read_frame r = (Ok payload, r1) ->
  utf8_decode payload = Some s ->
  json_loads s = Ok msg ->
  recv json_loads w = (Ok (as_optional msg), set_reader r1 w).
Proof.
  intros Hr Hf Hd Hj. rewrite (recv_unfold json_loads w Hr), Hf, Hd, Hj.
  reflexivity.
Qed.

End CloseFacts.

(** C2. In the receive loop of the install flow, when [recv] returns an
    Event envelope:
    - a [loader/add_plugin_install_prompt] whose args hold a request id at
      position 2 makes the loop send one frame, which carries the Call to
      [utilities/confirm_plugin_install] with that request id as its only
      argument and the next message id, and go on with the next iteration;
    - a prompt with fewer than 3 args makes the loop log the args and go on;
      nothing is written;
    - a [loader/plugin_download_finish] ends the loop with [success] set;
      [run_installer], whose [try] block ends with this loop, then closes
      the connection and returns without raising, unless [close] itself
      raises because the peer has dropped the link. *)
Theorem install_loop_reacts_to_events
    (urandom : nat -> byte) (json_dumps : json -> bytes)
    (json_loads : str -> outcome json)
    (fuel : nat) (w w1 : World) (d : list (str * json)) :
  recv json_loads w = (Ok (Some (JObj d)), w1) ->
  (forall args request_id wr f,
     is_event "loader/add_plugin_install_prompt" d = true ->
     field "args" (JArr []) d = JArr args ->
     nth_error args 2 = Some request_id ->
     writer (client w1) = Some wr ->
     call_frame urandom json_dumps (entropy_used w1) CALL (msg_id (client w1) + 1)
                "utilities/confirm_plugin_install" [request_id] = Ok f ->
     install_loop urandom json_dumps json_loads (S fuel) w
     = install_loop urandom json_dumps json_loads fuel
         (mkWorld (mkClient (reader (client w1))
                     (Some (mkWriter (written wr ++ [Frame f]) (writer_closed wr)))
                     (msg_id (client w1) + 1))
                  (entropy_used w1 + 4) (stderr w1 ++ [LogPromptReceived])) /\
     carries_call json_dumps (map urandom (seq (entropy_used w1) 4))
                  CALL (msg_id (client w1) + 1)
                  "utilities/confirm_plugin_install" [request_id] f) /\
  (forall args,
     is_event "loader/add_plugin_install_prompt" d = true ->
     field "args" (JArr []) d = JArr args ->
     (length args < 3)%nat ->
     install_loop urandom json_dumps json_loads (S fuel) w
     = install_loop urandom json_dumps json_loads fuel
         (mkWorld (client w1) (entropy_used w1)
                  (stderr w1 ++ [LogInvalidPromptArgs (JArr args)]))) /\
  (is_event "loader/plugin_download_finish" d = true ->
   install_loop urandom json_dumps json_loads (S fuel) w
   = (Ok (Some true),
      mkWorld (client w1) (entropy_used w1)
              (stderr w1 ++ [LogInstallationSuccessful (field "args" JNull d)])) /\
   forall (body : M (option bool)) (w0 : World),
     body w0 = install_loop urandom json_dumps json_loads (S fuel) w ->
     fst (installer_outcome urandom body w0)
     = if close_raises w1 then Raise ConnectionError else Ok (Some tt)).
Proof.
  intros Hrecv. split; [|split].
  - intros args request_id wr f Hev Hargs Hnth Hw Hf. split.
    + apply (@install_loop_prompt urandom json_dumps json_loads fuel w w1 d args
               request_id wr f Hrecv Hev Hargs Hnth Hw Hf).
    + apply (@call_frame_carries urandom json_dumps (entropy_used w1) CALL
               (msg_id (client w1) + 1) "utilities/confirm_plugin_install"
               [request_id] f Hf).
  - intros args Hev Hargs Hlen.
    apply (@install_loop_short_prompt urandom json_dumps json_loads fuel w w1 d
             args Hrecv Hev Hargs Hlen).
  - intros Hev.
    pose proof (@install_loop_finish urandom json_dumps json_loads fuel w w1 d
                  Hrecv Hev) as Hloop.
    split; [exact Hloop|].
    intros body w0 Hbody.
    rewrite (@installer_outcome_fst urandom body w0), Hbody, Hloop.
    reflexivity.
Qed.

Lemma install_loop_reacts_to_events_witness :
  let d := [(lit "type", JInt EVENT);
            (lit "event", JStr (lit "loader/add_plugin_install_prompt"));
            (lit "args", JArr [JStr (lit "demo"); JStr (lit "dev"); JStr (lit "req-1")])] in
  let w := Ref.connected
             (mkReader (Ref.server_frame x81 (Ref.json_dumps (JObj d))) Eof) in
  let w1 := set_reader (mkReader [] Eof) w in
  exists f,
    recv Ref.json_loads w = (Ok (Some (JObj d)), w1) /\
    call_frame Ref.urandom Ref.json_dumps 0 CALL 1
               "utilities/confirm_plugin_install" [JStr (lit "req-1")] = Ok f /\
    install_loop Ref.urandom Ref.json_dumps Ref.json_loads 2 w
    = install_loop Ref.urandom Ref.json_dumps Ref.json_loads 1
        (mkWorld (mkClient (Some (mkReader [] Eof))
                    (Some (mkWriter ([] ++ [Frame f]) false)) (0 + 1))
                 (0 + 4) ([] ++ [LogPromptReceived])) /\
    carries_call Ref.json_dumps (map Ref.urandom (seq 0 4)) CALL (0 + 1)
                 "utilities/confirm_plugin_install" [JStr (lit "req-1")] f.
Proof.
  intros d w w1.
  assert (Hrecv : recv Ref.json_loads w = (Ok (Some (JObj d)), w1))
    by (vm_compute; reflexivity).
  destruct (call_frame Ref.urandom Ref.json_dumps 0 CALL 1
              "utilities/confirm_plugin_install" [JStr (lit "req-1")])
    as [f|e] eqn:Hf; [|vm_compute in Hf; discriminate].
  exists f. split; [exact Hrecv|]. split; [reflexivity|].
  apply (proj1 (@install_loop_reacts_to_events Ref.urandom Ref.json_dumps
                  Ref.json_loads 1 w w1 d Hrecv)
           [JStr (lit "demo"); JStr (lit "dev"); JStr (lit "req-1")]
           (JStr (lit "req-1")) (mkWriter [] false) f);
    try reflexivity.
  exact Hf.
Defined.

(* ================================================================== *)
(** * The settings flows *)
(* ================================================================== *)

Section SettingsFacts.

Variable urandom : nat -> byte.
Variable urlopen : str -> outcome bytes.
Variable open_connection : outcome unit.
Variable handshake : str -> bytes -> outcome unit * StreamReader.
Variable json_dumps : json -> bytes.
Variable json_loads : str -> outcome json.

(** The [except] and [finally] clauses of a settings flow keep the outcome
    of the [try] block, unless [close] raises. *)
Lemma settings_outcome_fst {A : Type} (body : M A) (w : World) :
  fst (settings_outcome urandom body w) = finally_close (snd (body w)) (fst (body w)).
Proof.
  unfold settings_outcome. destruct (body w) as [[a|e] w']; cbn [fst snd]; st_step.
  - pose proof (close_fst urandom w') as Hc.
    destruct (close urandom w') as [[u|x] s']; cbn [fst] in Hc;
      unfold finally_close in *; destruct (close_raises w'); try discriminate;
      try reflexivity; inversion Hc; reflexivity.
  - match goal with
    | |- context [close urandom ?x] =>
        pose proof (close_fst urandom x) as Hc;
        rewrite (@finally_close_client unit w' x (Ok tt) eq_refl) in Hc;
        destruct (close urandom x) as [[u|x'] s']
    end; cbn [fst] in Hc; unfold finally_close in *;
      destruct (close_raises w'); try discriminate; try reflexivity;
      inversion Hc; reflexivity.
Qed.

(** They close the connection the [try] block leaves. *)
Lemma settings_outcome_client {A : Type} (body : M A) (w : World) (wr : StreamWriter) :
  writer (client (snd (body w))) = Some wr ->
  writer (client (snd (settings_outcome urandom body w)))
  = Some (mkWriter
            (written wr ++
             [Frame (close_frame (map urandom (seq (entropy_used (snd (body w))) 4)))])
            true) /\
  reader (client (snd (settings_outcome urandom body w)))
  = reader (client (snd (body w))).
Proof.
  unfold settings_outcome. destruct (body w) as [[a|e] w']; cbn [snd]; intros Hw; st_step.
  - rewrite (@close_unfold urandom w' wr Hw).
    destruct (link_dropped w'); cbn; auto.
  - match goal with
    | |- context [close urandom ?x] => rewrite (@close_unfold urandom x wr Hw)
    end.
    destruct (link_dropped _); cbn; auto.
Qed.

(** A log line and a [send] on an open connection, then the rest. *)
Lemma log_then_send {A : Type} (wa : World) (l : log_line) (msg_type : Z)
    (method : string) (args : list json) (wr : StreamWriter) (f : bytes) (k : M A) :
  writer (client wa) = Some wr ->
  call_frame urandom json_dumps (entropy_used wa) msg_type
             (msg_id (client wa) + 1) method args = Ok f ->
  (log l ;; send urandom json_dumps msg_type method args ;; k) wa
  = k (mkWorld (mkClient (reader (client wa))
                  (Some (mkWriter (written wr ++ [Frame f]) (writer_closed wr)))
                  (msg_id (client wa) + 1))
               (entropy_used wa + 4) (stderr wa ++ [l])).
Proof.
  intros Hw Hf. unfold bind at 1. unfold log at 1. unfold bind at 1.
  rewrite (@send_writes urandom json_dumps
             (mkWorld (client wa) (entropy_used wa) (stderr wa ++ [l]))
             wr msg_type method args f Hw Hf).
  reflexivity.
Qed.

Variable w : World.
Variable token_body : bytes.
Variable token_text : str.
Variable r0 : StreamReader.

Let token := strip token_text.
Let key := map urandom (seq (entropy_used w) 16).

Hypothesis Htoken : urlopen token_url = Ok token_body.
Hypothesis Htext : utf8_decode token_body = Some token_text.
Hypothesis Hopen : open_connection = Ok tt.
Hypothesis Hhandshake : handshake token key = (Ok tt, r0).

(** The [try] block of [get_store_url] once its Call is sent. *)
Lemma get_body_after_call (f : bytes) :
  call_frame urandom json_dumps (entropy_used w + 16) CALL 1
             "utilities/settings/get"
             [JStr (lit "store_url"); JStr DEFAULT_STORE_URL] = Ok f ->
  get_body urandom urlopen open_connection handshake json_dumps json_loads
           (set_client new_client w)
  = (msg <- recv json_loads ;;
     match msg with
     | None => raise (RuntimeError ConnectionClosedByServer)
     | Some msg =>
         m_type <- lift (dict_get "type" JNull msg) ;;
         if eq_int m_type REPLY then
           store_url <- lift (dict_get "result" JNull msg) ;;
           log (LogCurrentStoreURL store_url) ;;
           ret store_url
         else if eq_int m_type ERROR then
           error <- lift (dict_get "error" JNull msg) ;;
           log (LogServerError error) ;;
           raise (RuntimeError (FailedToGetStoreURL error))
         else raise (RuntimeError UnexpectedResponseType)
     end)
      (after_call w token key r0 f [LogConnecting; LogGettingStoreURL]).
Proof.
  intros Hf. unfold get_body.
  rewrite (@prelude_ok urandom urlopen open_connection handshake w token_body
             token_text r0 Htoken Htext Hopen Hhandshake).
  rewrite (@log_then_send _ (after_connect w token key r0 [LogConnecting])
             LogGettingStoreURL CALL "utilities/settings/get"
             [JStr (lit "store_url"); JStr DEFAULT_STORE_URL]
             (mkWriter [Handshake token key] false) f _ eq_refl Hf).
  unfold after_connect, after_call. cbn [client entropy_used stderr reader writer
    msg_id written writer_closed app].
  rewrite <- app_assoc. reflexivity.
Qed.

(** The [try] block of [configure_store_url] once its Call is sent. *)
Lemma configure_body_after_call (store_url : str) (f : bytes) :
  call_frame urandom json_dumps (entropy_used w + 16) CALL 1
             "utilities/settings/set"
             [JStr (lit "store_url"); JStr store_url] = Ok f ->
  configure_body urandom urlopen open_connection handshake json_dumps json_loads
                 store_url (set_client new_client w)
  = (msg <- recv json_loads ;;
     match msg with
     | None => raise (RuntimeError ConnectionClosedByServer)
     | Some msg =>
         m_type <- lift (dict_get "type" JNull msg) ;;
         if eq_int m_type REPLY then
           result <- lift (dict_get "result" JNull msg) ;;
           log (LogStoreConfigured result)
         else if eq_int m_type ERROR then
           error <- lift (dict_get "error" JNull msg) ;;
           log (LogServerError error) ;;
           raise (RuntimeError (FailedToSetStoreURL error))
         else ret tt
     end)
      (after_call w token key r0 f [LogConnecting; LogSettingStoreURL store_url]).
Proof.
  intros Hf. unfold configure_body.
  rewrite (@prelude_ok urandom urlopen open_connection handshake w token_body
             token_text r0 Htoken Htext Hopen Hhandshake).
  rewrite (@log_then_send _ (after_connect w token key r0 [LogConnecting])
             (LogSettingStoreURL store_url) CALL "utilities/settings/set"
             [JStr (lit "store_url"); JStr store_url]
             (mkWriter [Handshake token key] false) f _ eq_refl Hf).
  unfold after_connect, after_call. cbn [client entropy_used stderr reader writer
    msg_id written writer_closed app].
  rewrite <- app_assoc. reflexivity.
Qed.

End SettingsFacts.

(** C8. A run of [get_store_url] that has connected sends one Call, to
    [utilities/settings/get] with args [["store_url", DEFAULT_STORE_URL]] and
    id 1, and calls [recv] once. On the connection it writes the Upgrade
    request, the frame that carries that Call and the Close frame, nothing
    else, and it leaves the reader where the one [recv] left it. When
    [recv] returned [None] its [try] block raises "Connection closed by
    server"; when the message has type [REPLY] it returns the message's
    result; when it has type [ERROR] it raises "Failed to get store URL"
    with the server's error. [get_store_url] ends as its [try] block does,
    unless the [close] of its [finally] clause raises because the peer has
    dropped the link: then it raises that connection error. *)
Theorem get_store_url_single_round_trip
    (urandom : nat -> byte) (urlopen : str -> outcome bytes)
    (open_connection : outcome unit)
    (handshake : str -> bytes -> outcome unit * StreamReader)
    (json_dumps : json -> bytes) (json_loads : str -> outcome json)
    (w : World) (token_body : bytes) (token_text : str) (r0 : StreamReader)
    (f : bytes) (res : outcome (option json)) (w3 : World) :
  urlopen token_url = Ok token_body ->
  utf8_decode token_body = Some token_text ->
  open_connection = Ok tt ->
  handshake (strip token_text) (map urandom (seq (entropy_used w) 16)) = (Ok tt, r0) ->
  call_frame urandom json_dumps (entropy_used w + 16) CALL 1
             "utilities/settings/get"
             [JStr (lit "store_url"); JStr DEFAULT_STORE_URL] = Ok f ->
  recv json_loads
       (after_call w (strip token_text) (map urandom (seq (entropy_used w) 16)) r0 f
                   [LogConnecting; LogGettingStoreURL]) = (res, w3) ->
  let body := get_body urandom urlopen open_connection handshake json_dumps
                       json_loads (set_client new_client w) in
  let run := get_store_url urandom urlopen open_connection handshake json_dumps
                           json_loads w in
  let ends_as (o : outcome json) :=
    fst body = o /\
    fst run = if close_raises w3 then Raise ConnectionError else o in
  carries_call json_dumps (map urandom (seq (entropy_used w + 16) 4)) CALL 1
               "utilities/settings/get"
               [JStr (lit "store_url"); JStr DEFAULT_STORE_URL] f /\
  writer (client (snd run))
    = Some (one_call_and_close urandom w (strip token_text) f) /\
  reader (client (snd run)) = reader (client w3) /\
  (res = Ok None -> ends_as (Raise (RuntimeError ConnectionClosedByServer))) /\
  (forall d, res = Ok (Some (JObj d)) ->
             eq_int (field "type" JNull d) REPLY = true ->
             ends_as (Ok (field "result" JNull d))) /\
  (forall d, res = Ok (Some (JObj d)) ->
             eq_int (field "type" JNull d) REPLY = false ->
             eq_int (field "type" JNull d) ERROR = true ->
             ends_as (Raise (RuntimeError
                               (FailedToGetStoreURL (field "error" JNull d))))).
Proof.
  intros Htoken Htext Hopen Hhs Hf Hrecv body run ends_as.
  set (token := strip token_text) in *.
  set (key := map urandom (seq (entropy_used w) 16)) in *.
  set (sent := after_call w token key r0 f [LogConnecting; LogGettingStoreURL]) in *.
  pose proof (@get_body_after_call urandom urlopen open_connection handshake
                json_dumps json_loads w token_body token_text r0
                Htoken Htext Hopen Hhs f Hf) as Hbody.
  fold token key sent body in Hbody.
  destruct (recv_state json_loads sent) as (Hwr & Hent & _).
  rewrite Hrecv in Hwr, Hent. cbn [snd] in Hwr, Hent.
  assert (Hstate : client (snd body) = client w3 /\
                   entropy_used (snd body) = entropy_used w3).
  { rewrite Hbody. st_step. rewrite Hrecv.
    destruct res as [[msg|]|e]; [|auto|auto].
    destruct msg as [| | | | |d]; cbn [dict_get]; auto.
    destruct (eq_int (field "type" JNull d) REPLY); [auto|].
    destruct (eq_int (field "type" JNull d) ERROR); auto. }
  destruct Hstate as [Hclient Hentropy].
  assert (Hfst : fst run = finally_close w3 (fst body)).
  { unfold run, get_store_url. fold body.
    rewrite (@settings_outcome_fst urandom json _ (set_client new_client w)).
    apply (@finally_close_client json w3 (snd body) (fst body) Hclient). }
  destruct (@settings_outcome_client urandom json (get_body urandom urlopen
              open_connection handshake json_dumps json_loads)
              (set_client new_client w) (mkWriter [Handshake token key; Frame f] false))
    as [Hw Hr].
  { fold body. rewrite Hclient, Hwr. reflexivity. }
  fold body in Hw, Hr.
  split.
  { apply (@call_frame_carries urandom json_dumps (entropy_used w + 16) CALL 1
             "utilities/settings/get"
             [JStr (lit "store_url"); JStr DEFAULT_STORE_URL] f Hf). }
  split.
  { unfold run, get_store_url. rewrite Hw, Hentropy, Hent. reflexivity. }
  split.
  { unfold run, get_store_url. rewrite Hr, Hclient. reflexivity. }
  assert (Hends : forall o, fst body = o -> ends_as o).
  { intros o Ho. split; [exact Ho|]. rewrite Hfst, Ho. reflexivity. }
  split; [|split].
  - intros ->. apply Hends. rewrite Hbody. st_step. rewrite Hrecv. reflexivity.
  - intros d -> Ht. apply Hends. rewrite Hbody. st_step. rewrite Hrecv.
    cbn [dict_get]. rewrite Ht. reflexivity.
  - intros d -> Ht He. apply Hends. rewrite Hbody. st_step. rewrite Hrecv.
    cbn [dict_get]. rewrite Ht, He. reflexivity.
Qed.

Lemma get_store_url_single_round_trip_witness :
  let reply := JObj [(lit "type", JInt REPLY); (lit "result", JStr (lit "http://s/plugins"))] in
  let run := get_store_url Ref.urandom (Ref.urlopen (JArr [])) (Ok tt)
               (Ref.handshake (Ref.server_frame x81 (Ref.json_dumps reply)))
               Ref.json_dumps Ref.json_loads Ref.start in
  exists f,
    call_frame Ref.urandom Ref.json_dumps 16 CALL 1 "utilities/settings/get"
               [JStr (lit "store_url"); JStr DEFAULT_STORE_URL] = Ok f /\
    writer (client (snd run))
      = Some (one_call_and_close Ref.urandom Ref.start (lit "tok123") f) /\
    reader (client (snd run)) = Some (mkReader [] Eof) /\
    fst run = Ok (JStr (lit "http://s/plugins")).
Proof.
  intros reply run.
  destruct (call_frame Ref.urandom Ref.json_dumps 16 CALL 1 "utilities/settings/get"
              [JStr (lit "store_url"); JStr DEFAULT_STORE_URL])
    as [f|e] eqn:Hf; [|vm_compute in Hf; discriminate].
  exists f. split; [reflexivity|].
  pose proof (@get_store_url_single_round_trip
                Ref.urandom (Ref.urlopen (JArr [])) (Ok tt)
                (Ref.handshake (Ref.server_frame x81 (Ref.json_dumps reply)))
                Ref.json_dumps Ref.json_loads Ref.start
                (Ref.ascii_bytes " tok123 ") (lit " tok123 ")
                (mkReader (Ref.server_frame x81 (Ref.json_dumps reply)) Eof) f
                (Ok (Some reply))
                (set_reader (mkReader [] Eof)
                   (after_call Ref.start (lit "tok123")
                      (map Ref.urandom (seq 0 16))
                      (mkReader (Ref.server_frame x81 (Ref.json_dumps reply)) Eof) f
                      [LogConnecting; LogGettingStoreURL]))
                eq_refl eq_refl eq_refl eq_refl Hf) as H.
  cbv zeta in H. fold run in H.
  destruct H as (_ & Hw & Hr & _ & Hreply & _).
  { vm_compute. reflexivity. }
  split; [exact Hw|]. split; [exact Hr|].
  apply (Hreply [(lit "type", JInt REPLY); (lit "result", JStr (lit "http://s/plugins"))]);
    reflexivity.
Defined.

(** C9. The two settings flows differ on a message whose type is neither
    [REPLY] nor [ERROR] (an Event envelope, say): the [try] block of
    [configure_store_url] falls through both branches and ends without
    raising, that of [get_store_url] raises "Unexpected response type". The
    two functions end as their [try] blocks do: the first returns, the
    second raises that error. Only when the peer has dropped the link do
    both raise the connection error of the [close] in their [finally]
    clause instead. *)
Theorem settings_flows_differ_on_unexpected_type
    (urandom : nat -> byte) (urlopen : str -> outcome bytes)
    (open_connection : outcome unit)
    (handshake : str -> bytes -> outcome unit * StreamReader)
    (json_dumps : json -> bytes) (json_loads : str -> outcome json)
    (w : World) (token_body : bytes) (token_text : str) (r0 r1 : StreamReader)
    (store_url : str) (f_set f_get payload : bytes) (s : str)
    (d : list (str * json)) :
  urlopen token_url = Ok token_body ->
  utf8_decode token_body = Some token_text ->
  open_connection = Ok tt ->
  handshake (strip token_text) (map urandom (seq (entropy_used w) 16)) = (Ok tt, r0) ->
  call_frame urandom json_dumps (entropy_used w + 16) CALL 1
             "utilities/settings/set"
             [JStr (lit "store_url"); JStr store_url] = Ok f_set ->
  call_frame urandom json_dumps (entropy_used w + 16) CALL 1
             "utilities/settings/get"
             [JStr (lit "store_url"); JStr DEFAULT_STORE_URL] = Ok f_get ->
  read_frame r0 = (Ok payload, r1) ->
  utf8_decode payload = Some s ->
  json_loads s = Ok (JObj d) ->
  eq_int (field "type" JNull d) REPLY = false ->
  eq_int (field "type" JNull d) ERROR = false ->
  fst (configure_body urandom urlopen open_connection handshake json_dumps
                      json_loads store_url (set_client new_client w)) = Ok tt /\
  fst (get_body urandom urlopen open_connection handshake json_dumps
                json_loads (set_client new_client w))
    = Raise (RuntimeError UnexpectedResponseType) /\
  fst (configure_store_url urandom urlopen open_connection handshake json_dumps
                           json_loads store_url w)
    = match ending r1 with
      | Eof => Ok tt
      | Reset => Raise ConnectionError
      end /\
  fst (get_store_url urandom urlopen open_connection handshake json_dumps
                     json_loads w)
    = match ending r1 with
      | Eof => Raise (RuntimeError UnexpectedResponseType)
      | Reset => Raise ConnectionError
      end.
Proof.
  intros Htoken Htext Hopen Hhs Hset Hget Hframe Hdec Hjson Hreply Herror.
  unfold configure_store_url, get_store_url. rewrite !settings_outcome_fst.
  rewrite (@configure_body_after_call urandom urlopen open_connection handshake
             json_dumps json_loads w token_body token_text r0
             Htoken Htext Hopen Hhs store_url f_set Hset).
  rewrite (@get_body_after_call urandom urlopen open_connection handshake
             json_dumps json_loads w token_body token_text r0
             Htoken Htext Hopen Hhs f_get Hget).
  st_step.
  repeat match goal with
  | |- context [recv json_loads ?x] =>
      rewrite (@recv_message json_loads x r0 r1 payload s (JObj d) eq_refl
                 Hframe Hdec Hjson)
  end.
  cbn [as_optional dict_get]. rewrite Hreply, Herror.
  unfold finally_close, close_raises, link_dropped, after_call.
  cbn [fst snd set_reader set_client client reader writer].
  destruct (ending r1); repeat split; reflexivity.
Qed.

Lemma settings_flows_differ_on_unexpected_type_witness :
  let msg := Ref.event "loader/plugin_download_finish" [] in
  let frames := Ref.server_frame x81 (Ref.json_dumps msg) in
  fst (configure_store_url Ref.urandom (Ref.urlopen (JArr [])) (Ok tt)
         (Ref.handshake frames) Ref.json_dumps Ref.json_loads
         (lit "http://s/plugins") Ref.start) = Ok tt /\
  fst (get_store_url Ref.urandom (Ref.urlopen (JArr [])) (Ok tt)
         (Ref.handshake frames) Ref.json_dumps Ref.json_loads Ref.start)
  = Raise (RuntimeError UnexpectedResponseType).
Proof.
  intros msg frames.
  destruct (call_frame Ref.urandom Ref.json_dumps 16 CALL 1 "utilities/settings/set"
              [JStr (lit "store_url"); JStr (lit "http://s/plugins")])
    as [f_set|e] eqn:Hset; [|vm_compute in Hset; discriminate].
  destruct (call_frame Ref.urandom Ref.json_dumps 16 CALL 1 "utilities/settings/get"
              [JStr (lit "store_url"); JStr DEFAULT_STORE_URL])
    as [f_get|e] eqn:Hget; [|vm_compute in Hget; discriminate].
  destruct (@settings_flows_differ_on_unexpected_type
           Ref.urandom (Ref.urlopen (JArr [])) (Ok tt) (Ref.handshake frames)
           Ref.json_dumps Ref.json_loads Ref.start
           (Ref.ascii_bytes " tok123 ") (lit " tok123 ")
           (mkReader frames Eof) (mkReader [] Eof) (lit "http://s/plugins")
           f_set f_get (Ref.json_dumps msg) (Ref.dumps msg)
           [(lit "type", JInt EVENT);
            (lit "event", JStr (lit "loader/plugin_download_finish"));
            (lit "args", JArr [])]
           eq_refl eq_refl eq_refl eq_refl Hset Hget)
    as (_ & _ & H1 & H2); try (vm_compute; reflexivity).
  split; [exact H1|exact H2].
Defined.

(* ================================================================== *)
(** * The receive loop ends *)
(* ================================================================== *)

Lemma shrinking_ret {A : Type} (a : A) : shrinking (ret a).
Proof. intros r o r' H. inversion H. lia. Qed.

Lemma shrinking_readexactly (n : Z) : shrinking (readexactly n).
Proof.
  intros r o r'. unfold readexactly.
  destruct (n <=? Z.of_nat (length (incoming r))).
  - intros H. inversion H; subst. cbn [incoming].
    pose proof (length_skipn (Z.to_nat n) (incoming r)). lia.
  - destruct (ending r); intros H; inversion H; subst; cbn; lia.
Qed.

Lemma shrinking_bind {A B : Type} (c : ST StreamReader A)
    (k : A -> ST StreamReader B) :
  shrinking c -> (forall a, shrinking (k a)) -> shrinking (bind c k).
Proof.
  intros Hc Hk r o r'. unfold bind.
  destruct (c r) as [[a|e] r1] eqn:E.
  - intros H. apply Hk in H. apply Hc in E. lia.
  - intros H. inversion H; subst. apply Hc in E. exact E.
Qed.

Lemma readexactly_ok_length (n : Z) (r r' : StreamReader) (b : bytes) :
  readexactly n r = (Ok b, r') ->
  length (incoming r') = (length (incoming r) - Z.to_nat n)%nat
  /\ n <= Z.of_nat (length (incoming r)).
Proof.
  unfold readexactly.
  destruct (Z.leb_spec n (Z.of_nat (length (incoming r))));
    [|destruct (ending r); discriminate].
  intros H'. inversion H'; subst. cbn [incoming].
  split; [apply length_skipn | assumption].
Qed.

(** A frame read takes at least its two header bytes off the stream. *)
Lemma read_frame_consumes (r r' : StreamReader) (payload : bytes) :
  read_frame r = (Ok payload, r') ->
  (length (incoming r') + 2 <= length (incoming r))%nat.
Proof.
  unfold read_frame. unfold bind at 1.
  destruct (readexactly 2 r) as [[head|e] r1] eqn:E; [|discriminate].
  assert (H1 : (length (incoming r1) + 2 <= length (incoming r))%nat).
  { pose proof (@readexactly_ok_length 2 r r1 head E) as Hl. lia. }
  intros H.
  assert (H2 : (length (incoming r') <= length (incoming r1))%nat).
  { revert H. apply shrinking_bind.
    - destruct (_ =? 126).
      + apply shrinking_bind; [apply shrinking_readexactly|intros; apply shrinking_ret].
      + destruct (_ =? 127).
        * apply shrinking_bind; [apply shrinking_readexactly|intros; apply shrinking_ret].
        * apply shrinking_ret.
    - intros len. apply shrinking_bind.
      + destruct (negb _).
        * apply shrinking_bind; [apply shrinking_readexactly|intros; apply shrinking_ret].
        * apply shrinking_ret.
      + intros mask. apply shrinking_bind;
          [apply shrinking_readexactly|intros; apply shrinking_ret]. }
  lia.
Qed.

Section TerminationFacts.

Variable urandom : nat -> byte.
Variable json_dumps : json -> bytes.
Variable json_loads : str -> outcome json.

(** A message received takes at least two bytes off the stream. *)
Lemma recv_consumes (w w1 : World) (msg : json) :
  recv json_loads w = (Ok (Some msg), w1) -> (pending w1 + 2 <= pending w)%nat.
Proof.
  unfold pending. destruct (reader (client w)) as [r|] eqn:Hr.
  - rewrite (recv_unfold json_loads w Hr).
    destruct (read_frame r) as [[payload|e] r'] eqn:E.
    + apply read_frame_consumes in E.
      destruct (utf8_decode payload) as [s|]; [|discriminate].
      destruct (json_loads s) as [m|x].
      * intros H. inversion H. cbn. lia.
      * destruct (is_closed_stream_error x); discriminate.
    + destruct (is_closed_stream_error e); discriminate.
  - unfold recv, try_except, bind, with_reader. rewrite Hr. discriminate.
Qed.

Lemma send_pending (w : World) (msg_type : Z) (method : string) (args : list json) :
  pending (snd (send urandom json_dumps msg_type method args w)) = pending w.
Proof.
  unfold send, pending. st_step. st_state.
  destruct (length_header _); [|reflexivity]. st_state.
  destruct (writer (client w)); reflexivity.
Qed.

(** With more iterations allowed than bytes to come, the receive loop ends:
    it breaks, or an exception leaves it. *)
Lemma install_loop_ends (fuel : nat) :
  forall w, (pending w < fuel)%nat ->
  fst (install_loop urandom json_dumps json_loads fuel w) <> Ok None.
Proof.
  induction fuel as [|fuel IH]; intros w Hw; [lia|].
  cbn [install_loop]. unfold bind at 1.
  destruct (recv json_loads w) as [[[msg|]|e] w1] eqn:Hrecv;
    [| st_step; discriminate | discriminate].
  apply recv_consumes in Hrecv.
  assert (Hlog : forall l k,
    (forall w', pending w' = pending w1 ->
                fst (k w') <> Ok (@None bool)) ->
    fst ((log l ;; k) w1) <> Ok None).
  { intros l k Hk. st_step. apply Hk. reflexivity. }
  assert (Hnext : forall w', pending w' = pending w1 ->
    fst (install_loop urandom json_dumps json_loads fuel w') <> Ok None).
  { intros w' Hp. apply IH. lia. }
  destruct msg as [| | | | |d]; try (st_step; cbn [dict_get]; discriminate).
  st_step. cbn [dict_get].
  destruct (eq_int (field "type" JNull d) EVENT
            && eq_str (field "event" JNull d) (lit "loader/add_plugin_install_prompt")).
  { destruct (py_len (field "args" (JArr []) d)) as [n|e]; [|discriminate].
    destruct (n <? 3).
    - apply Hnext. reflexivity.
    - destruct (py_getitem (field "args" (JArr []) d) 2) as [rid|e]; [|discriminate].
      match goal with
      | |- context [send urandom json_dumps ?t ?m ?a ?x] =>
          pose proof (send_pending x t m a) as Hs;
          destruct (send urandom json_dumps t m a x) as [[u|e] w2]
      end; [|discriminate].
      apply Hnext. cbn [snd] in Hs. exact Hs. }
  destruct (eq_int (field "type" JNull d) EVENT
            && eq_str (field "event" JNull d) (lit "loader/plugin_download_finish"));
    [discriminate|].
  destruct (eq_int (field "type" JNull d) REPLY); [apply Hnext; reflexivity|].
  destruct (eq_int (field "type" JNull d) ERROR); [apply Hnext; reflexivity|].
  apply Hnext. reflexivity.
Qed.

End TerminationFacts.

Section RunEnds.

Variable urandom : nat -> byte.
Variable urlopen : str -> outcome bytes.
Variable open_connection : outcome unit.
Variable handshake : str -> bytes -> outcome unit * StreamReader.
Variable json_dumps : json -> bytes.
Variable json_loads : str -> outcome json.
Variable int_of_str : str -> option Z.

Lemma connect_pending (tok : str) (w w1 : World) :
  connect urandom open_connection handshake tok w = (Ok tt, w1) ->
  pending w1
  = length (incoming (snd (handshake tok (map urandom (seq (entropy_used w) 16))))).
Proof.
  unfold connect. st_step. destruct open_connection as [u|e]; [|discriminate].
  st_state.
  destruct (handshake tok (map urandom (seq (entropy_used w) 16))) as [[u'|e] r];
    [|discriminate].
  intros H. inversion H. reflexivity.
Qed.

(** With more iterations allowed than the peer sends bytes after the
    handshake, [run_installer] returns or raises: the bound on its loop is
    not reached. *)
Lemma run_installer_ends (fuel : nat) (target_id : Z) (store_url : str) (w : World) :
  (forall tok key, (length (incoming (snd (handshake tok key))) < fuel)%nat) ->
  fst (run_installer urandom urlopen open_connection handshake json_dumps
                     json_loads int_of_str fuel target_id store_url w) <> Ok None.
Proof.
  intros Hfuel. unfold run_installer. rewrite installer_outcome_fst.
  destruct (installer_body urandom urlopen open_connection handshake json_dumps
              json_loads int_of_str fuel target_id store_url (set_client new_client w))
    as [[[b|]|e] w'] eqn:E; cbn [fst snd].
  - unfold finally_close. destruct b; destruct (close_raises w'); discriminate.
  - exfalso. revert E. unfold installer_body.
    unfold bind at 1. unfold log at 1.
    unfold bind at 1.
    destruct (get_token urlopen _) as [[tok|e] w1]; [|discriminate].
    unfold bind at 1.
    destruct (connect urandom open_connection handshake tok w1) as [[[]|e] w2] eqn:Ec;
      [|discriminate].
    apply connect_pending in Ec.
    unfold bind at 1. unfold log at 1.
    unfold bind at 1. unfold lift at 1.
    destruct (urlopen store_url) as [body|e]; [|discriminate].
    unfold bind at 1. unfold decode at 1.
    destruct (utf8_decode body) as [raw|]; [|discriminate].
    unfold ret at 1. unfold bind at 1. unfold lift at 1.
    destruct (json_loads raw) as [plugins|e]; [|discriminate].
    unfold bind at 1. unfold lift at 1.
    destruct (catalog_step int_of_str plugins target_id) as [call_args|e]; [|discriminate].
    unfold bind at 1. unfold log at 1.
    unfold bind at 1.
    match goal with
    | |- context [send urandom json_dumps ?t ?m ?a ?x] =>
        pose proof (send_pending urandom json_dumps x t m a) as Hs;
        destruct (send urandom json_dumps t m a x) as [[u|e] w3]
    end; [|discriminate].
    cbn [snd] in Hs. unfold pending in Hs at 2. cbn [client] in Hs.
    fold (pending w2) in Hs.
    intros E.
    apply (@install_loop_ends urandom json_dumps json_loads fuel w3).
    + rewrite Hs, Ec. apply Hfuel.
    + rewrite E. reflexivity.
  - unfold finally_close. destruct (close_raises w'); discriminate.
Qed.

End RunEnds.

(* ================================================================== *)
(** * Whole runs *)
(* ================================================================== *)

(** The store has plugin 42 with one version; the server sends a prompt, a
    prompt with one argument only, a reply and the finish event.
    [run_installer] returns; it has logged each step, sent the install Call
    with id 1 and one confirmation with id 2, and closed the connection. *)
Example successful_install :
  let catalog := JArr [Ref.plugin (JStr (lit "42")) "demo"
                         [Ref.version "dev" "http://x/a.zip" "abc"]] in
  let frames :=
    Ref.server_frame x81 (Ref.json_dumps
      (Ref.event "loader/add_plugin_install_prompt"
         [JStr (lit "demo"); JStr (lit "dev"); JStr (lit "req-1")]))
    ++ Ref.server_frame x81 (Ref.json_dumps
      (Ref.event "loader/add_plugin_install_prompt" [JStr (lit "demo")]))
    ++ Ref.server_frame x81 (Ref.json_dumps
      (JObj [(lit "type", JInt REPLY); (lit "result", JNull)]))
    ++ Ref.server_frame x81 (Ref.json_dumps
      (Ref.event "loader/plugin_download_finish" [])) in
  let run := run_installer Ref.urandom (Ref.urlopen catalog) (Ok tt)
               (Ref.handshake frames) Ref.json_dumps Ref.json_loads
               Ref.int_of_str 5 42 Ref.store_url Ref.start in
  fst run = Ok (Some tt) /\
  stderr (snd run)
  = [LogContacting; LogConnectionEstablished 42;
     LogInstalling (JStr (lit "demo")) (JStr (lit "dev"));
     LogPromptReceived; LogInvalidPromptArgs (JArr [JStr (lit "demo")]);
     LogServerReply JNull; LogInstallationSuccessful (JArr [])] /\
  msg_id (client (snd run)) = 2 /\
  exists f1 f2,
    call_frame Ref.urandom Ref.json_dumps 16 CALL 1 "utilities/install_plugin"
      [JStr (lit "http://x/a.zip"); JStr (lit "demo"); JStr (lit "dev");
       JStr (lit "abc"); JInt 0] = Ok f1 /\
    call_frame Ref.urandom Ref.json_dumps 20 CALL 2
      "utilities/confirm_plugin_install" [JStr (lit "req-1")] = Ok f2 /\
    writer (client (snd run))
    = Some (mkWriter [Handshake (lit "tok123") (map Ref.urandom (seq 0 16));
                      Frame f1; Frame f2;
                      Frame (close_frame (map Ref.urandom (seq 24 4)))] true).
Proof.
  intros catalog frames run.
  split; [vm_compute; reflexivity|].
  split; [vm_compute; reflexivity|].
  split; [vm_compute; reflexivity|].
  eexists. eexists.
  split; [vm_compute; reflexivity|].
  split; [vm_compute; reflexivity|].
  vm_compute. reflexivity.
Qed.

(** The server ends the stream cleanly right after the handshake: the loop
    breaks with [success] unset and [run_installer] raises "Installation did
    not complete successfully", after the Close frame. *)
Example stream_closed_before_any_event :
  let catalog := JArr [Ref.plugin (JInt 42) "demo"
                         [Ref.version "dev" "http://x/a.zip" "abc"]] in
  let run := run_installer Ref.urandom (Ref.urlopen catalog) (Ok tt)
               (Ref.handshake []) Ref.json_dumps Ref.json_loads
               Ref.int_of_str 1 42 Ref.store_url Ref.start in
  fst run = Raise (RuntimeError InstallationDidNotComplete) /\
  option_map writer_closed (writer (client (snd run))) = Some true /\
  option_map (fun wr => length (written wr)) (writer (client (snd run))) = Some 3%nat.
Proof.
  intros catalog run. repeat split; vm_compute; reflexivity.
Qed.

(* ================================================================== *)
(** * close *)
(* ================================================================== *)

(** X1. On an open connection [close] writes one frame and closes the
    writer, whatever the state of the link; it then returns, or raises the
    connection error of [wait_closed] when the peer had dropped the link,
    and it raises nothing else. The frame is a well-formed masked Close
    frame: its first byte is [0x88], and the frame reader of [recv] decodes
    it to the two bytes of status code 1000, consuming the frame and nothing
    more. *)
Theorem close_writes_decodable_close_frame
    (urandom : nat -> byte) (w : World) (wr : StreamWriter) (rest : bytes)
    (e : closing) :
  writer (client w) = Some wr ->
  let frame := close_frame (map urandom (seq (entropy_used w) 4)) in
  close urandom w
  = (match reader (client w) with
     | Some r => match ending r with
                 | Eof => Ok tt
                 | Reset => Raise ConnectionError
                 end
     | None => Ok tt
     end,
     mkWorld (mkClient (reader (client w))
                (Some (mkWriter (written wr ++ [Frame frame]) true))
                (msg_id (client w)))
             (entropy_used w + 4) (stderr w)) /\
  nth 0 frame x00 = x88 /\
  read_frame (mkReader (frame ++ rest) e) = (Ok (pack_be 2 1000), mkReader rest e) /\
  unpack_be (pack_be 2 1000) = 1000.
Proof.
  intros Hw frame. split; [|split; [reflexivity|split; [|reflexivity]]].
  - rewrite (@close_unfold urandom w wr Hw). unfold link_dropped.
    destruct (reader (client w)) as [r|]; [|reflexivity].
    destruct (ending r); reflexivity.
  - unfold frame, close_frame.
    set (mask := map urandom (seq (entropy_used w) 4)).
    change (Z.lor 128 (Z.of_nat (length (pack_be 2 1000)))) with (Z.lor 2 128).
    cbn [app]. rewrite <- app_assoc.
    apply (@read_frame_masked x88 2 [] mask (pack_be 2 1000) rest e).
    + unfold mask. rewrite length_map, length_seq. reflexivity.
    + left. repeat split; reflexivity.
Qed.

Lemma close_writes_decodable_close_frame_witness :
  fst (close Ref.urandom (Ref.connected (mkReader [] Eof))) = Ok tt /\
  fst (close Ref.urandom (Ref.connected (mkReader [x81] Reset)))
  = Raise ConnectionError /\
  read_frame
    (mkReader (close_frame (map Ref.urandom (seq 0 4)) ++ [x81; x00]) Eof)
  = (Ok (pack_be 2 1000), mkReader [x81; x00] Eof).
Proof.
  destruct (@close_writes_decodable_close_frame Ref.urandom
              (Ref.connected (mkReader [] Eof)) (mkWriter [] false) [x81; x00] Eof
              eq_refl) as (H1 & _ & H2 & _).
  destruct (@close_writes_decodable_close_frame Ref.urandom
              (Ref.connected (mkReader [x81] Reset)) (mkWriter [] false) [] Eof
              eq_refl) as (H3 & _).
  split; [rewrite H1; reflexivity|].
  split; [rewrite H3; reflexivity|exact H2].
Defined.

(* ================================================================== *)
(** * An open connection stays open until close *)
(* ================================================================== *)

Lemma keeps_writer_same {A : Type} (c : M A) :
  (forall w, client (snd (c w)) = client w) -> keeps_writer c.
Proof. intros H w Hw. rewrite H. exact Hw. Qed.

Lemma keeps_writer_bind {A B : Type} (c : M A) (k : A -> M B) :
  keeps_writer c -> (forall a, keeps_writer (k a)) -> keeps_writer (bind c k).
Proof.
  intros Hc Hk w Hw. unfold bind. specialize (Hc w Hw).
  destruct (c w) as [[a|e] w1]; cbn [snd] in *.
  - apply Hk. exact Hc.
  - exact Hc.
Qed.

Lemma keeps_writer_log (l : log_line) : keeps_writer (log l).
Proof. apply keeps_writer_same. reflexivity. Qed.

Lemma keeps_writer_lift {A : Type} (o : outcome A) : keeps_writer (lift o).
Proof. apply keeps_writer_same. reflexivity. Qed.

Lemma keeps_writer_ret {A : Type} (a : A) : keeps_writer (ret a).
Proof. apply keeps_writer_same. reflexivity. Qed.

Lemma keeps_writer_raise {A : Type} (e : exn) : keeps_writer (raise (A := A) e).
Proof. apply keeps_writer_same. reflexivity. Qed.

Lemma keeps_writer_decode (b : bytes) : keeps_writer (decode b).
Proof.
  unfold decode. destruct (utf8_decode b);
    [apply keeps_writer_ret | apply keeps_writer_raise].
Qed.

Section KeepsWriter.

Variable urandom : nat -> byte.
Variable urlopen : str -> outcome bytes.
Variable open_connection : outcome unit.
Variable handshake : str -> bytes -> outcome unit * StreamReader.
Variable json_dumps : json -> bytes.
Variable json_loads : str -> outcome json.
Variable int_of_str : str -> option Z.

Lemma keeps_writer_recv : keeps_writer (recv json_loads).
Proof.
  intros w Hw. destruct (recv_state json_loads w) as (H & _). rewrite H. exact Hw.
Qed.

Lemma keeps_writer_send (msg_type : Z) (method : string) (args : list json) :
  keeps_writer (send urandom json_dumps msg_type method args).
Proof.
  intros w Hw. unfold send. st_step. st_state.
  destruct (length_header _); [|exact Hw]. st_state.
  destruct (writer (client w)) as [wr|]; [discriminate|contradiction].
Qed.

Lemma keeps_writer_install_loop (fuel : nat) :
  keeps_writer (install_loop urandom json_dumps json_loads fuel).
Proof.
  induction fuel as [|fuel IH]; cbn [install_loop]; [apply keeps_writer_ret|].
  apply keeps_writer_bind; [apply keeps_writer_recv|]. intros [msg|].
  2: { apply keeps_writer_bind; [apply keeps_writer_log|].
       intros; apply keeps_writer_ret. }
  apply keeps_writer_bind; [apply keeps_writer_lift|]. intros m_type.
  apply keeps_writer_bind; [apply keeps_writer_lift|]. intros event.
  destruct (eq_int m_type EVENT
            && eq_str event (lit "loader/add_plugin_install_prompt")).
  { apply keeps_writer_bind; [apply keeps_writer_lift|]. intros m_args.
    apply keeps_writer_bind; [apply keeps_writer_lift|]. intros n.
    destruct (n <? 3).
    - apply keeps_writer_bind; [apply keeps_writer_log|]. intros; exact IH.
    - apply keeps_writer_bind; [apply keeps_writer_lift|]. intros rid.
      apply keeps_writer_bind; [apply keeps_writer_log|]. intros _.
      apply keeps_writer_bind; [apply keeps_writer_send|]. intros; exact IH. }
  destruct (eq_int m_type EVENT
            && eq_str event (lit "loader/plugin_download_finish")).
  { apply keeps_writer_bind; [apply keeps_writer_lift|]. intros args.
    apply keeps_writer_bind; [apply keeps_writer_log|].
    intros; apply keeps_writer_ret. }
  destruct (eq_int m_type REPLY).
  { apply keeps_writer_bind; [apply keeps_writer_lift|]. intros r.
    apply keeps_writer_bind; [apply keeps_writer_log|]. intros; exact IH. }
  destruct (eq_int m_type ERROR).
  { apply keeps_writer_bind; [apply keeps_writer_lift|]. intros r.
    apply keeps_writer_bind; [apply keeps_writer_log|]. intros; exact IH. }
  exact IH.
Qed.

(** Once [open_connection] has returned, the writer is set at the end of
    [connect] and of what follows it, whether the handshake is accepted or
    not. *)
Lemma connect_sets_writer {A : Type} (tok : str) (k : M A) (w : World) :
  open_connection = Ok tt ->
  keeps_writer k ->
  writer (client (snd ((connect urandom open_connection handshake tok ;; k) w)))
  <> None.
Proof.
  intros Hopen Hk. unfold connect. st_step. rewrite Hopen. st_state.
  destruct (handshake tok (map urandom (seq (entropy_used w) 16))) as [[u|e] r].
  - apply Hk. discriminate.
  - discriminate.
Qed.

(** The same from the start of a workflow whose token fetch succeeds. *)
Lemma workflow_sets_writer {A : Type} (first : log_line) (k : M A) (w : World)
    (token_body : bytes) (token_text : str) :
  urlopen token_url = Ok token_body ->
  utf8_decode token_body = Some token_text ->
  open_connection = Ok tt ->
  keeps_writer k ->
  writer (client (snd ((log first ;;
                        tok <- get_token urlopen ;;
                        connect urandom open_connection handshake tok ;;
                        k) w))) <> None.
Proof.
  intros Htoken Htext Hopen Hk.
  unfold bind at 1. unfold log at 1. unfold bind at 1.
  unfold get_token. st_step. rewrite Htoken. st_step. rewrite Htext.
  apply (@connect_sets_writer A (strip token_text) k _ Hopen Hk).
Qed.

(** [close] after a [try] block that leaves the writer set. *)
Lemma installer_outcome_closes (body : M (option bool)) (w : World) :
  writer (client (snd (body w))) <> None ->
  fst (installer_outcome urandom body w) <> Ok None ->
  exists wr,
    writer (client (snd (installer_outcome urandom body w))) = Some wr /\
    closed_by_close_frame wr.
Proof.
  unfold installer_outcome.
  destruct (body w) as [[[b|]|e] w'] eqn:E; cbn [snd]; intros Hw Hfin.
  - destruct (writer (client w')) as [wr|] eqn:Hwr; [|contradiction].
    st_step. rewrite (@close_unfold urandom w' wr Hwr).
    exists (mkWriter (written wr ++
                      [Frame (close_frame (map urandom (seq (entropy_used w') 4)))])
                     true).
    split.
    + destruct (link_dropped w'); destruct b; reflexivity.
    + split; [reflexivity|]. eexists. eexists. split; [reflexivity|].
      rewrite length_map, length_seq. reflexivity.
  - exfalso. apply Hfin. reflexivity.
  - destruct (writer (client w')) as [wr|] eqn:Hwr; [|contradiction].
    st_step.
    match goal with
    | |- context [close urandom ?x] => rewrite (@close_unfold urandom x wr Hwr)
    end.
    eexists. split; [destruct (link_dropped _); reflexivity|].
    split; [reflexivity|]. eexists. eexists. split; [reflexivity|].
    rewrite length_map, length_seq. reflexivity.
Qed.

Lemma settings_outcome_closes {A : Type} (body : M A) (w : World) :
  writer (client (snd (body w))) <> None ->
  exists wr,
    writer (client (snd (settings_outcome urandom body w))) = Some wr /\
    closed_by_close_frame wr.
Proof.
  intros Hw. destruct (writer (client (snd (body w)))) as [wr|] eqn:Hwr;
    [|contradiction].
  destruct (@settings_outcome_client urandom A body w wr Hwr) as [H _].
  eexists. split; [exact H|].
  split; [reflexivity|]. eexists. eexists. split; [reflexivity|].
  rewrite length_map, length_seq. reflexivity.
Qed.

End KeepsWriter.

(** X2. Once the token is fetched and the TCP connection is open, each of
    the three workflows ends with the connection closed, whatever happens in
    between (handshake refused, store not reachable, plugin not found,
    malformed message, stream ended, server error): the writer is closed and
    the last thing written on it is the Close frame. For [run_installer]
    this is for every run that leaves its receive loop. *)
Theorem workflows_always_close
    (urandom : nat -> byte) (urlopen : str -> outcome bytes)
    (open_connection : outcome unit)
    (handshake : str -> bytes -> outcome unit * StreamReader)
    (json_dumps : json -> bytes) (json_loads : str -> outcome json)
    (int_of_str : str -> option Z)
    (w : World) (token_body : bytes) (token_text : str)
    (fuel : nat) (target_id : Z) (store_url new_url : str) :
  urlopen token_url = Ok token_body ->
  utf8_decode token_body = Some token_text ->
  open_connection = Ok tt ->
  (fst (run_installer urandom urlopen open_connection handshake json_dumps
          json_loads int_of_str fuel target_id store_url w) <> Ok None ->
   exists wr,
     writer (client (snd (run_installer urandom urlopen open_connection handshake
                            json_dumps json_loads int_of_str fuel target_id
                            store_url w))) = Some wr /\
     closed_by_close_frame wr) /\
  (exists wr,
     writer (client (snd (configure_store_url urandom urlopen open_connection
                            handshake json_dumps json_loads new_url w))) = Some wr /\
     closed_by_close_frame wr) /\
  (exists wr,
     writer (client (snd (get_store_url urandom urlopen open_connection handshake
                            json_dumps json_loads w))) = Some wr /\
     closed_by_close_frame wr).
Proof.
  intros Htoken Htext Hopen. split; [|split].
  - apply installer_outcome_closes. unfold installer_body.
    apply (@workflow_sets_writer urandom urlopen open_connection handshake _
             LogContacting _ _ token_body token_text Htoken Htext Hopen).
    apply keeps_writer_bind; [apply keeps_writer_log|]. intros _.
    apply keeps_writer_bind; [apply keeps_writer_lift|]. intros body.
    apply keeps_writer_bind; [apply keeps_writer_decode|]. intros raw.
    apply keeps_writer_bind; [apply keeps_writer_lift|]. intros plugins.
    apply keeps_writer_bind; [apply keeps_writer_lift|]. intros call_args.
    apply keeps_writer_bind; [apply keeps_writer_log|]. intros _.
    apply keeps_writer_bind; [apply keeps_writer_send|]. intros _.
    apply keeps_writer_install_loop.
  - apply settings_outcome_closes. unfold configure_body.
    apply (@workflow_sets_writer urandom urlopen open_connection handshake _
             LogConnecting _ _ token_body token_text Htoken Htext Hopen).
    apply keeps_writer_bind; [apply keeps_writer_log|]. intros _.
    apply keeps_writer_bind; [apply keeps_writer_send|]. intros _.
    apply keeps_writer_bind; [apply keeps_writer_recv|]. intros [msg|];
      [|apply keeps_writer_raise].
    apply keeps_writer_bind; [apply keeps_writer_lift|]. intros m_type.
    destruct (eq_int m_type REPLY).
    { apply keeps_writer_bind; [apply keeps_writer_lift|]. intros r.
      apply keeps_writer_log. }
    destruct (eq_int m_type ERROR); [|apply keeps_writer_ret].
    apply keeps_writer_bind; [apply keeps_writer_lift|]. intros r.
    apply keeps_writer_bind; [apply keeps_writer_log|]. intros _.
    apply keeps_writer_raise.
  - apply settings_outcome_closes. unfold get_body.
    apply (@workflow_sets_writer urandom urlopen open_connection handshake _
             LogConnecting _ _ token_body token_text Htoken Htext Hopen).
    apply keeps_writer_bind; [apply keeps_writer_log|]. intros _.
    apply keeps_writer_bind; [apply keeps_writer_send|]. intros _.
    apply keeps_writer_bind; [apply keeps_writer_recv|]. intros [msg|];
      [|apply keeps_writer_raise].
    apply keeps_writer_bind; [apply keeps_writer_lift|]. intros m_type.
    destruct (eq_int m_type REPLY).
    { apply keeps_writer_bind; [apply keeps_writer_lift|]. intros r.
      apply keeps_writer_bind; [apply keeps_writer_log|]. intros _.
      apply keeps_writer_ret. }
    destruct (eq_int m_type ERROR); [|apply keeps_writer_raise].
    apply keeps_writer_bind; [apply keeps_writer_lift|]. intros r.
    apply keeps_writer_bind; [apply keeps_writer_log|]. intros _.
    apply keeps_writer_raise.
Qed.

Lemma workflows_always_close_witness :
  let refuse := fun (_ : str) (_ : bytes) =>
                  (Raise (A := unit) ConnectionError, mkReader [] Eof) in
  exists wr,
    writer (client (snd (get_store_url Ref.urandom (Ref.urlopen (JArr [])) (Ok tt)
                           refuse Ref.json_dumps Ref.json_loads Ref.start)))
    = Some wr /\
    closed_by_close_frame wr.
Proof.
  intros refuse.
  apply (proj2 (proj2 (@workflows_always_close Ref.urandom (Ref.urlopen (JArr []))
           (Ok tt) refuse Ref.json_dumps Ref.json_loads Ref.int_of_str Ref.start
           (Ref.ascii_bytes " tok123 ") (lit " tok123 ") 1 42 Ref.store_url
           Ref.store_url eq_refl eq_refl eq_refl))).
Defined.

(** X3. When the token cannot be fetched, or is not UTF-8 text, or the TCP
    connection cannot be opened, each of the three workflows raises that
    error; it has written nothing (the client has no writer, and [close]
    returns at once), drawn no random bytes, and logged its first line and
    the error. *)
Theorem workflows_fail_before_connecting
    (urandom : nat -> byte) (urlopen : str -> outcome bytes)
    (open_connection : outcome unit)
    (handshake : str -> bytes -> outcome unit * StreamReader)
    (json_dumps : json -> bytes) (json_loads : str -> outcome json)
    (int_of_str : str -> option Z)
    (w : World) (e : exn) (fuel : nat) (target_id : Z) (store_url new_url : str) :
  urlopen token_url = Raise e \/
  (exists token_body,
     urlopen token_url = Ok token_body /\ utf8_decode token_body = None /\
     e = UnicodeDecodeError) \/
  (exists token_body token_text,
     urlopen token_url = Ok token_body /\
     utf8_decode token_body = Some token_text /\
     open_connection = Raise e) ->
  run_installer urandom urlopen open_connection handshake json_dumps json_loads
                int_of_str fuel target_id store_url w
  = (Raise e,
     mkWorld new_client (entropy_used w) (stderr w ++ [LogContacting; LogError e])) /\
  configure_store_url urandom urlopen open_connection handshake json_dumps
                      json_loads new_url w
  = (Raise e,
     mkWorld new_client (entropy_used w) (stderr w ++ [LogConnecting; LogError e])) /\
  get_store_url urandom urlopen open_connection handshake json_dumps json_loads w
  = (Raise e,
     mkWorld new_client (entropy_used w) (stderr w ++ [LogConnecting; LogError e])).
Proof.
  intros H.
  assert (Hpre : forall (A : Type) (first : log_line) (k : M A),
            (log first ;;
             tok <- get_token urlopen ;;
             connect urandom open_connection handshake tok ;;
             k) (set_client new_client w)
            = (Raise e, mkWorld new_client (entropy_used w) (stderr w ++ [first]))).
  { intros A first k. unfold get_token, connect. st_step.
    destruct H as [H | [(tb & H1 & H2 & ->) | (tb & tt' & H1 & H2 & H3)]].
    - rewrite H. reflexivity.
    - rewrite H1. st_step. rewrite H2. reflexivity.
    - rewrite H1. st_step. rewrite H2. st_step. rewrite H3. reflexivity. }
  split; [|split].
  - unfold run_installer, installer_outcome, installer_body. rewrite Hpre.
    st_step. unfold close. cbn [client writer new_client entropy_used stderr].
    rewrite <- app_assoc. reflexivity.
  - unfold configure_store_url, settings_outcome, configure_body. rewrite Hpre.
    st_step. unfold close. cbn [client writer new_client entropy_used stderr].
    rewrite <- app_assoc. reflexivity.
  - unfold get_store_url, settings_outcome, get_body. rewrite Hpre.
    st_step. unfold close. cbn [client writer new_client entropy_used stderr].
    rewrite <- app_assoc. reflexivity.
Qed.

Lemma workflows_fail_before_connecting_witness :
  run_installer Ref.urandom (fun _ => Raise URLError) (Ok tt) (Ref.handshake [])
                Ref.json_dumps Ref.json_loads Ref.int_of_str 3 42 Ref.store_url
                Ref.start
  = (Raise URLError, mkWorld new_client 0 ([] ++ [LogContacting; LogError URLError])).
Proof.
  apply (@workflows_fail_before_connecting Ref.urandom (fun _ => Raise URLError)
           (Ok tt) (Ref.handshake []) Ref.json_dumps Ref.json_loads Ref.int_of_str
           Ref.start URLError 3 42 Ref.store_url Ref.store_url).
  left. reflexivity.
Defined.

(* ================================================================== *)
(** * The receive loop: the other messages *)
(* ================================================================== *)

(** X4. In the receive loop of the install flow a message that is neither
    of the two events only gets logged, if at all: a Reply logs its result,
    an Error logs its error, any other type (a Call, an Event of another
    name, no type at all) logs nothing. The client is left as [recv] left
    it: nothing is sent, the counter does not move, and the loop goes on. A
    server Error does not end the install. *)
Theorem install_loop_ignores_other_messages
    (urandom : nat -> byte) (json_dumps : json -> bytes)
    (json_loads : str -> outcome json)
    (fuel : nat) (w w1 : World) (d : list (str * json)) :
  recv json_loads w = (Ok (Some (JObj d)), w1) ->
  is_event "loader/add_plugin_install_prompt" d = false ->
  is_event "loader/plugin_download_finish" d = false ->
  install_loop urandom json_dumps json_loads (S fuel) w
  = install_loop urandom json_dumps json_loads fuel
      (mkWorld (client w1) (entropy_used w1)
         (stderr w1 ++
          if eq_int (field "type" JNull d) REPLY
          then [LogServerReply (field "result" JNull d)]
          else if eq_int (field "type" JNull d) ERROR
               then [LogServerError (field "error" JNull d)]
               else [])).
Proof.
  intros Hrecv Hp Hf.
  cbn [install_loop]. st_step. rewrite Hrecv. st_step. cbn [dict_get].
  unfold is_event in Hp, Hf. rewrite Hp, Hf.
  destruct (eq_int (field "type" JNull d) REPLY); [reflexivity|].
  destruct (eq_int (field "type" JNull d) ERROR); [reflexivity|].
  rewrite app_nil_r. destruct w1; reflexivity.
Qed.

Lemma install_loop_ignores_other_messages_witness :
  let d := [(lit "type", JInt ERROR); (lit "error", JStr (lit "disk full"))] in
  let w := Ref.connected
             (mkReader (Ref.server_frame x81 (Ref.json_dumps (JObj d))) Eof) in
  install_loop Ref.urandom Ref.json_dumps Ref.json_loads 2 w
  = install_loop Ref.urandom Ref.json_dumps Ref.json_loads 1
      (mkWorld (client (set_reader (mkReader [] Eof) w)) 0
               ([] ++ [LogServerError (JStr (lit "disk full"))])).
Proof.
  intros d w.
  apply (@install_loop_ignores_other_messages Ref.urandom Ref.json_dumps
           Ref.json_loads 1 w (set_reader (mkReader [] Eof) w) d);
    vm_compute; reflexivity.
Defined.

(** X5. When [recv] returns [None] in the receive loop (the stream ended
    before the finish event, or the server sent [null]), the loop logs it
    and breaks with [success] unset, and [run_installer], whose [try] block
    ends with this loop, closes the connection. It then raises
    "Installation did not complete successfully" when the link is still up,
    as after a clean end of the stream, and the connection error of [close]
    when the peer has dropped the link, as it has when a reset ended the
    stream. *)
Theorem install_loop_stream_end_fails
    (urandom : nat -> byte) (json_dumps : json -> bytes)
    (json_loads : str -> outcome json) (fuel : nat) (w w1 : World) :
  recv json_loads w = (Ok None, w1) ->
  install_loop urandom json_dumps json_loads (S fuel) w
  = (Ok (Some false),
     mkWorld (client w1) (entropy_used w1) (stderr w1 ++ [LogConnectionClosed])) /\
  close_raises w1 = close_raises w /\
  forall (body : M (option bool)) (w0 : World),
    body w0 = install_loop urandom json_dumps json_loads (S fuel) w ->
    fst (installer_outcome urandom body w0)
    = (if close_raises w then Raise ConnectionError
       else Raise (RuntimeError InstallationDidNotComplete)) /\
    writer (client (snd (installer_outcome urandom body w0)))
    = writer (client (snd (close urandom
         (mkWorld (client w1) (entropy_used w1)
                  (stderr w1 ++ [LogConnectionClosed]))))).
Proof.
  intros Hrecv.
  assert (Hloop : install_loop urandom json_dumps json_loads (S fuel) w
                  = (Ok (Some false),
                     mkWorld (client w1) (entropy_used w1)
                             (stderr w1 ++ [LogConnectionClosed]))).
  { cbn [install_loop]. st_step. rewrite Hrecv. reflexivity. }
  assert (Hcr : close_raises w1 = close_raises w).
  { pose proof (recv_close_raises json_loads w) as H. rewrite Hrecv in H. exact H. }
  split; [exact Hloop|]. split; [exact Hcr|].
  intros body w0 Hbody. split.
  - rewrite (@installer_outcome_fst urandom body w0), Hbody, Hloop.
    cbn [fst snd]. unfold finally_close. rewrite <- Hcr. reflexivity.
  - unfold installer_outcome. rewrite Hbody, Hloop. st_step.
    match goal with
    | |- context [close urandom ?x] => destruct (close urandom x) as [[u|x'] s']
    end; reflexivity.
Qed.

Lemma install_loop_stream_end_fails_witness :
  let w := Ref.connected (mkReader [x81] Reset) in
  let w' := Ref.connected (mkReader [x81] Eof) in
  fst (installer_outcome Ref.urandom
         (install_loop Ref.urandom Ref.json_dumps Ref.json_loads 1) w)
  = Raise ConnectionError /\
  fst (installer_outcome Ref.urandom
         (install_loop Ref.urandom Ref.json_dumps Ref.json_loads 1) w')
  = Raise (RuntimeError InstallationDidNotComplete).
Proof.
  intros w w'.
  destruct (@install_loop_stream_end_fails Ref.urandom Ref.json_dumps Ref.json_loads
              0 w (set_reader (mkReader [] Reset) w)) as (_ & _ & H);
    [vm_compute; reflexivity|].
  destruct (@install_loop_stream_end_fails Ref.urandom Ref.json_dumps Ref.json_loads
              0 w' (set_reader (mkReader [] Eof) w')) as (_ & _ & H');
    [vm_compute; reflexivity|].
  split.
  - apply (proj1 (H (install_loop Ref.urandom Ref.json_dumps Ref.json_loads 1) w
                    eq_refl)).
  - apply (proj1 (H' (install_loop Ref.urandom Ref.json_dumps Ref.json_loads 1) w'
                     eq_refl)).
Defined.

(** X6. A message that is JSON but neither an object nor [null] (an array,
    a string, a number, a boolean) is fatal in every workflow: [msg.get]
    raises [AttributeError]. The receive loop of the install flow raises it,
    and so do the [try] blocks of [configure_store_url] and [get_store_url]
    once connected, after their Call is sent. The message [null] is Python's
    [None], which the workflows take for the end of the stream: the loop
    breaks with [success] unset and the two settings flows raise "Connection
    closed by server". The two functions raise what their [try] block
    raised, or the connection error of [close] when the peer has dropped the
    link. *)
Theorem non_object_message_is_fatal
    (urandom : nat -> byte) (urlopen : str -> outcome bytes)
    (open_connection : outcome unit)
    (handshake : str -> bytes -> outcome unit * StreamReader)
    (json_dumps : json -> bytes) (json_loads : str -> outcome json)
    (w : World) (token_body : bytes) (token_text : str) (r0 r1 : StreamReader)
    (store_url : str) (f_set f_get payload : bytes) (s : str) (msg : json)
    (fuel : nat) :
  urlopen token_url = Ok token_body ->
  utf8_decode token_body = Some token_text ->
  open_connection = Ok tt ->
  handshake (strip token_text) (map urandom (seq (entropy_used w) 16)) = (Ok tt, r0) ->
  call_frame urandom json_dumps (entropy_used w + 16) CALL 1
             "utilities/settings/set"
             [JStr (lit "store_url"); JStr store_url] = Ok f_set ->
  call_frame urandom json_dumps (entropy_used w + 16) CALL 1
             "utilities/settings/get"
             [JStr (lit "store_url"); JStr DEFAULT_STORE_URL] = Ok f_get ->
  read_frame r0 = (Ok payload, r1) ->
  utf8_decode payload = Some s ->
  json_loads s = Ok msg ->
  (forall d, msg <> JObj d) ->
  let raised : exn :=
    match msg with
    | JNull => RuntimeError ConnectionClosedByServer
    | _ => AttributeError
    end in
  (forall wl, reader (client wl) = Some r0 ->
     fst (install_loop urandom json_dumps json_loads (S fuel) wl)
     = match msg with
       | JNull => Ok (Some false)
       | _ => Raise AttributeError
       end) /\
  fst (configure_body urandom urlopen open_connection handshake json_dumps
                      json_loads store_url (set_client new_client w))
    = Raise raised /\
  fst (get_body urandom urlopen open_connection handshake json_dumps
                json_loads (set_client new_client w))
    = Raise raised /\
  fst (configure_store_url urandom urlopen open_connection handshake json_dumps
                           json_loads store_url w)
    = match ending r1 with
      | Eof => Raise raised
      | Reset => Raise ConnectionError
      end /\
  fst (get_store_url urandom urlopen open_connection handshake json_dumps
                     json_loads w)
    = match ending r1 with
      | Eof => Raise raised
      | Reset => Raise ConnectionError
      end.
Proof.
  intros Htoken Htext Hopen Hhs Hset Hget Hframe Hdec Hjson Hnot raised.
  assert (Hget_raises : forall k, dict_get k JNull msg = Raise AttributeError).
  { intros k. destruct msg as [| | | | |d]; try reflexivity.
    exfalso. apply (Hnot d). reflexivity. }
  assert (Hset_body :
    configure_body urandom urlopen open_connection handshake json_dumps
                   json_loads store_url (set_client new_client w)
    = (Raise raised,
       set_reader r1 (after_call w (strip token_text)
                        (map urandom (seq (entropy_used w) 16)) r0 f_set
                        [LogConnecting; LogSettingStoreURL store_url]))).
  { rewrite (@configure_body_after_call urandom urlopen open_connection handshake
               json_dumps json_loads w token_body token_text r0
               Htoken Htext Hopen Hhs store_url f_set Hset).
    st_step.
    match goal with
    | |- context [recv json_loads ?x] =>
        rewrite (@recv_message json_loads x r0 r1 payload s msg eq_refl
                   Hframe Hdec Hjson)
    end.
    unfold raised. destruct msg as [| | | | |d]; try reflexivity.
    exfalso. apply (Hnot d). reflexivity. }
  assert (Hget_body :
    get_body urandom urlopen open_connection handshake json_dumps
             json_loads (set_client new_client w)
    = (Raise raised,
       set_reader r1 (after_call w (strip token_text)
                        (map urandom (seq (entropy_used w) 16)) r0 f_get
                        [LogConnecting; LogGettingStoreURL]))).
  { rewrite (@get_body_after_call urandom urlopen open_connection handshake
               json_dumps json_loads w token_body token_text r0
               Htoken Htext Hopen Hhs f_get Hget).
    st_step.
    match goal with
    | |- context [recv json_loads ?x] =>
        rewrite (@recv_message json_loads x r0 r1 payload s msg eq_refl
                   Hframe Hdec Hjson)
    end.
    unfold raised. destruct msg as [| | | | |d]; try reflexivity.
    exfalso. apply (Hnot d). reflexivity. }
  split; [|split; [|split; [|split]]].
  - intros wl Hr. cbn [install_loop]. st_step.
    rewrite (@recv_message json_loads wl r0 r1 payload s msg Hr Hframe Hdec Hjson).
    destruct msg as [| | | | |d]; try reflexivity.
    exfalso. apply (Hnot d). reflexivity.
  - rewrite Hset_body. reflexivity.
  - rewrite Hget_body. reflexivity.
  - unfold configure_store_url. rewrite settings_outcome_fst, Hset_body.
    unfold finally_close, close_raises, link_dropped, after_call.
    cbn [fst snd set_reader set_client client reader writer].
    destruct (ending r1); reflexivity.
  - unfold get_store_url. rewrite settings_outcome_fst, Hget_body.
    unfold finally_close, close_raises, link_dropped, after_call.
    cbn [fst snd set_reader set_client client reader writer].
    destruct (ending r1); reflexivity.
Qed.

Lemma non_object_message_is_fatal_witness :
  let frames := Ref.server_frame x81 (Ref.json_dumps (JArr [JInt 1; JInt 2])) in
  let null := Ref.server_frame x81 (Ref.json_dumps JNull) in
  fst (get_store_url Ref.urandom (Ref.urlopen (JArr [])) (Ok tt)
         (Ref.handshake frames) Ref.json_dumps Ref.json_loads Ref.start)
  = Raise AttributeError /\
  fst (get_store_url Ref.urandom (Ref.urlopen (JArr [])) (Ok tt)
         (Ref.handshake null) Ref.json_dumps Ref.json_loads Ref.start)
  = Raise (RuntimeError ConnectionClosedByServer).
Proof.
  intros frames null.
  destruct (call_frame Ref.urandom Ref.json_dumps 16 CALL 1 "utilities/settings/set"
              [JStr (lit "store_url"); JStr (lit "http://s/plugins")])
    as [f_set|e] eqn:Hset; [|vm_compute in Hset; discriminate].
  destruct (call_frame Ref.urandom Ref.json_dumps 16 CALL 1 "utilities/settings/get"
              [JStr (lit "store_url"); JStr DEFAULT_STORE_URL])
    as [f_get|e] eqn:Hget; [|vm_compute in Hget; discriminate].
  split.
  - refine (proj2 (proj2 (proj2 (proj2 (@non_object_message_is_fatal
           Ref.urandom (Ref.urlopen (JArr [])) (Ok tt) (Ref.handshake frames)
           Ref.json_dumps Ref.json_loads Ref.start
           (Ref.ascii_bytes " tok123 ") (lit " tok123 ")
           (mkReader frames Eof) (mkReader [] Eof) (lit "http://s/plugins")
           f_set f_get (Ref.json_dumps (JArr [JInt 1; JInt 2]))
           (Ref.dumps (JArr [JInt 1; JInt 2])) (JArr [JInt 1; JInt 2]) 0
           eq_refl eq_refl eq_refl eq_refl Hset Hget _ _ _ _)))));
      try (vm_compute; reflexivity).
    intros d. discriminate.
  - refine (proj2 (proj2 (proj2 (proj2 (@non_object_message_is_fatal
           Ref.urandom (Ref.urlopen (JArr [])) (Ok tt) (Ref.handshake null)
           Ref.json_dumps Ref.json_loads Ref.start
           (Ref.ascii_bytes " tok123 ") (lit " tok123 ")
           (mkReader null Eof) (mkReader [] Eof) (lit "http://s/plugins")
           f_set f_get (Ref.json_dumps JNull)
           (Ref.dumps JNull) JNull 0
           eq_refl eq_refl eq_refl eq_refl Hset Hget _ _ _ _)))));
      try (vm_compute; reflexivity).
    intros d. discriminate.
Defined.

(* ================================================================== *)
(** * The catalog step: success *)
(* ================================================================== *)

Section CatalogSuccess.

Variable int_of_str : str -> option Z.

(** X7. When the first entry with the target's id has versions and the
    version taken has an artifact URL, the catalog step gives the five
    arguments of the install Call: that URL; the entry's name, or
    [plugin-<target id>] when it has none; the version's name, or [dev];
    its hash, or the empty string; and 0. *)
Theorem catalog_step_builds_install_args
    (before after : list json) (d latest : list (str * json)) (versions : json)
    (target_id : Z) :
  Forall (no_match int_of_str target_id) before ->
  entry_id int_of_str (JObj d) = Ok target_id ->
  field "versions" JNull d = versions ->
  truthy versions = true ->
  latest_version versions = Ok (JObj latest) ->
  truthy (field "artifact" JNull latest) = true ->
  catalog_step int_of_str (JArr (before ++ JObj d :: after)) target_id
  = Ok [field "artifact" JNull latest;
        py_or (field "name" JNull d) (JStr (lit "plugin-" ++ str_of_int target_id));
        py_or (field "name" JNull latest) (JStr (lit "dev"));
        py_or (field "hash" JNull latest) (JStr []);
        JInt 0].
Proof.
  intros Hb He Hvs Hv Hlatest Hart. unfold catalog_step. cbn [py_iter obind].
  rewrite (@find_plugin_first int_of_str before after (JObj d) target_id Hb He).
  cbn [obind].
  destruct (@entry_id_dict int_of_str (JObj d) target_id He) as (d' & _ & Ht).
  rewrite Ht. cbn [negb dict_get obind]. rewrite Hvs.
  rewrite (py_or_true _ (JArr []) Hv), Hv. cbn [negb].
  rewrite Hlatest. cbn [obind dict_get].
  rewrite (py_or_true _ (JStr []) Hart), Hart. reflexivity.
Qed.

(** X8. Whatever the store returns, when the catalog step succeeds the
    install Call has exactly five arguments, the last is 0, and the artifact
    URL, the plugin name and the version name are not empty: no install Call
    is sent without them. *)
Theorem install_args_are_never_empty (plugins : json) (target_id : Z)
    (args : list json) :
  catalog_step int_of_str plugins target_id = Ok args ->
  exists artifact_url plugin_name version_name hash_,
    args = [artifact_url; plugin_name; version_name; hash_; JInt 0] /\
    truthy artifact_url = true /\ truthy plugin_name = true /\
    truthy version_name = true.
Proof.
  unfold catalog_step.
  destruct (py_iter plugins) as [ps|]; [|discriminate]. cbn [obind].
  destruct (find_plugin int_of_str ps target_id) as [target|]; [|discriminate].
  cbn [obind].
  destruct (truthy target); [|discriminate]. cbn [negb].
  destruct (dict_get "name" JNull target) as [name|]; [|discriminate]. cbn [obind].
  destruct (dict_get "versions" JNull target) as [vs|]; [|discriminate]. cbn [obind].
  destruct (truthy (py_or vs (JArr []))); [|discriminate]. cbn [negb].
  destruct (latest_version (py_or vs (JArr []))) as [latest|]; [|discriminate].
  cbn [obind].
  destruct (dict_get "name" JNull latest) as [lname|]; [|discriminate]. cbn [obind].
  destruct (dict_get "artifact" JNull latest) as [lart|]; [|discriminate].
  cbn [obind].
  destruct (dict_get "hash" JNull latest) as [lhash|]; [|discriminate]. cbn [obind].
  destruct (truthy (py_or lart (JStr []))) eqn:Hart; [|discriminate]. cbn [negb].
  intros H. inversion H; subst. do 4 eexists. split; [reflexivity|].
  split; [exact Hart|].
  split; unfold py_or.
  - destruct (truthy name) eqn:Hn; [exact Hn|].
    destruct (str_of_int target_id); reflexivity.
  - destruct (truthy lname) eqn:Hn; [exact Hn|reflexivity].
Qed.

(** X9. The store list is searched in order and the search stops at the
    first entry with the target's id: what follows that entry is never
    looked at, so it changes nothing, malformed or not. An entry before it
    whose id cannot be read ([id] missing, or not a number) ends the catalog
    step with the error of [int(...)] or [.get], even though the target is
    further down the list. *)
Theorem catalog_search_is_sequential
    (before after after' : list json) (entry bad : json) (target_id : Z) (e : exn) :
  Forall (no_match int_of_str target_id) before ->
  (entry_id int_of_str entry = Ok target_id ->
   catalog_step int_of_str (JArr (before ++ entry :: after)) target_id
   = catalog_step int_of_str (JArr (before ++ entry :: after')) target_id) /\
  (entry_id int_of_str bad = Raise e ->
   catalog_step int_of_str (JArr (before ++ bad :: after)) target_id = Raise e).
Proof.
  intros Hb. split.
  - intros He. unfold catalog_step. cbn [py_iter obind].
    rewrite (@find_plugin_first int_of_str before after entry target_id Hb He).
    rewrite (@find_plugin_first int_of_str before after' entry target_id Hb He).
    reflexivity.
  - intros He. unfold catalog_step. cbn [py_iter obind].
    assert (Hfind : find_plugin int_of_str (before ++ bad :: after) target_id
                    = Raise e).
    { induction Hb as [|p ps (n & Hn & Hne) _ IH]; cbn [find_plugin app].
      - rewrite He. reflexivity.
      - rewrite Hn. cbn [obind].
        destruct (Z.eqb_spec n target_id); [contradiction|assumption]. }
    rewrite Hfind. reflexivity.
Qed.

End CatalogSuccess.

Lemma catalog_step_builds_install_args_witness :
  catalog_step Ref.int_of_str
    (JArr ([Ref.plugin (JInt 7) "other" []]
           ++ JObj [(lit "id", JStr (lit " 42 "));
                    (lit "versions", JArr [JObj [(lit "artifact", JStr (lit "http://x/a.zip"))]])]
           :: [JNull])) 42
  = Ok [JStr (lit "http://x/a.zip"); JStr (lit "plugin-42"); JStr (lit "dev");
        JStr []; JInt 0].
Proof.
  apply (@catalog_step_builds_install_args Ref.int_of_str
           [Ref.plugin (JInt 7) "other" []] [JNull]
           [(lit "id", JStr (lit " 42 "));
            (lit "versions", JArr [JObj [(lit "artifact", JStr (lit "http://x/a.zip"))]])]
           [(lit "artifact", JStr (lit "http://x/a.zip"))]
           (JArr [JObj [(lit "artifact", JStr (lit "http://x/a.zip"))]]) 42);
    try reflexivity.
  repeat constructor. exists 7. split; [reflexivity|discriminate].
Defined.

Lemma install_args_are_never_empty_witness :
  exists artifact_url plugin_name version_name hash_,
    [JStr (lit "http://x/a.zip"); JStr (lit "demo"); JStr (lit "dev");
     JStr []; JInt 0]
    = [artifact_url; plugin_name; version_name; hash_; JInt 0] /\
    truthy artifact_url = true /\ truthy plugin_name = true /\
    truthy version_name = true.
Proof.
  apply (@install_args_are_never_empty Ref.int_of_str
           (JArr [Ref.plugin (JInt 42) "demo" [Ref.version "" "http://x/a.zip" ""]])
           42).
  reflexivity.
Defined.

Lemma catalog_search_is_sequential_witness :
  catalog_step Ref.int_of_str
    (JArr ([Ref.plugin (JInt 7) "other" []]
           ++ JObj [(lit "name", JStr (lit "no id"))]
           :: [Ref.plugin (JInt 42) "demo" [Ref.version "1" "http://x/a.zip" ""]])) 42
  = Raise TypeError.
Proof.
  refine (proj2 (@catalog_search_is_sequential Ref.int_of_str
           [Ref.plugin (JInt 7) "other" []]
           [Ref.plugin (JInt 42) "demo" [Ref.version "1" "http://x/a.zip" ""]] []
           JNull (JObj [(lit "name", JStr (lit "no id"))]) 42 TypeError _) eq_refl).
  repeat constructor. exists 7. split; [reflexivity|discriminate].
Defined.

(** X10. When the versions have string names that are all different, the
    version taken does not depend on the order in which the store lists
    them. *)
Theorem latest_version_ignores_order (vs vs' : list json) :
  vs <> [] ->
  Forall (fun v => name_key v <> None) vs ->
  (forall v v' s, In v vs -> In v' vs ->
                  name_key v = Some s -> name_key v' = Some s -> v = v') ->
  Permutation vs vs' ->
  latest_version (JArr vs') = latest_version (JArr vs).
Proof.
  intros Hne Hnames Hdistinct Hperm.
  assert (Hne' : vs' <> []).
  { intros ->. apply Permutation_sym, Permutation_nil in Hperm. contradiction. }
  assert (Hnames' : Forall (fun v => name_key v <> None) vs').
  { rewrite Forall_forall in *. intros v Hv. apply Hnames.
    apply (Permutation_in _ (Permutation_sym Hperm) Hv). }
  destruct (latest_version_max Hne Hnames) as (v & s & Hl & Hin & Hk & Hmax).
  destruct (latest_version_max Hne' Hnames') as (v' & s' & Hl' & Hin' & Hk' & Hmax').
  rewrite Hl, Hl'. f_equal.
  apply (Permutation_in _ (Permutation_sym Hperm)) in Hin'.
  assert (Hs : s' = s).
  { apply str_ltb_total.
    - apply (Hmax' v s); [apply (Permutation_in _ Hperm Hin)|exact Hk].
    - apply (Hmax v' s'); assumption. }
  subst s'. apply (Hdistinct v' v s); assumption.
Qed.

Lemma latest_version_ignores_order_witness :
  latest_version (JArr [Ref.version "1.9.0" "b" ""; Ref.version "1.10.0" "a" ""])
  = latest_version (JArr [Ref.version "1.10.0" "a" ""; Ref.version "1.9.0" "b" ""]).
Proof.
  apply (@latest_version_ignores_order
           [Ref.version "1.10.0" "a" ""; Ref.version "1.9.0" "b" ""]
           [Ref.version "1.9.0" "b" ""; Ref.version "1.10.0" "a" ""]).
  - discriminate.
  - repeat constructor; vm_compute; discriminate.
  - intros v v' s [<-|[<-|[]]] [<-|[<-|[]]]; vm_compute; intros H1 H2;
      try reflexivity; rewrite <- H1 in H2; discriminate.
  - apply perm_swap.
Defined.

(* ================================================================== *)
(** * The workflows after connect *)
(* ================================================================== *)

(** X11. A run of [run_installer] that has connected, fetched the store
    list and found the plugin sends the install Call first: when it enters
    its receive loop it has written the Upgrade request and one frame, the
    Call to [utilities/install_plugin] with id 1 and the arguments of the
    catalog step, and has read nothing from the stream. *)
Theorem installer_sends_install_call_first
    (urandom : nat -> byte) (urlopen : str -> outcome bytes)
    (open_connection : outcome unit)
    (handshake : str -> bytes -> outcome unit * StreamReader)
    (json_dumps : json -> bytes) (json_loads : str -> outcome json)
    (int_of_str : str -> option Z)
    (w : World) (token_body : bytes) (token_text : str) (r0 : StreamReader)
    (store_url : str) (store_body : bytes) (store_raw : str) (plugins : json)
    (fuel : nat) (target_id : Z) (call_args : list json) (f : bytes) :
  urlopen token_url = Ok token_body ->
  utf8_decode token_body = Some token_text ->
  open_connection = Ok tt ->
  handshake (strip token_text) (map urandom (seq (entropy_used w) 16)) = (Ok tt, r0) ->
  urlopen store_url = Ok store_body ->
  utf8_decode store_body = Some store_raw ->
  json_loads store_raw = Ok plugins ->
  catalog_step int_of_str plugins target_id = Ok call_args ->
  call_frame urandom json_dumps (entropy_used w + 16) CALL 1
             "utilities/install_plugin" call_args = Ok f ->
  installer_body urandom urlopen open_connection handshake json_dumps json_loads
                 int_of_str fuel target_id store_url (set_client new_client w)
  = install_loop urandom json_dumps json_loads fuel
      (after_call w (strip token_text) (map urandom (seq (entropy_used w) 16)) r0 f
         [LogContacting; LogConnectionEstablished target_id;
          LogInstalling (nth 1 call_args JNull) (nth 2 call_args JNull)]).
Proof.
  intros Htoken Htext Hopen Hhs Hstore Hraw Hplugins Hcat Hf.
  rewrite (@installer_body_catalog urandom urlopen open_connection handshake
             json_dumps json_loads int_of_str w token_body token_text r0
             Htoken Htext Hopen Hhs store_url store_body store_raw plugins
             Hstore Hraw Hplugins fuel target_id).
  rewrite Hcat.
  rewrite (@log_then_send urandom json_dumps _
             (after_connect w (strip token_text)
                (map urandom (seq (entropy_used w) 16)) r0
                [LogContacting; LogConnectionEstablished target_id])
             (LogInstalling (nth 1 call_args JNull) (nth 2 call_args JNull))
             CALL "utilities/install_plugin" call_args
             (mkWriter [Handshake (strip token_text)
                          (map urandom (seq (entropy_used w) 16))] false)
             f _ eq_refl Hf).
  unfold after_connect, after_call.
  cbn [client entropy_used stderr reader writer msg_id written writer_closed app].
  rewrite <- app_assoc. reflexivity.
Qed.

(** X12. A run of [configure_store_url] that has connected sends one Call,
    to [utilities/settings/set] with args [["store_url", store_url]] and id
    1, and calls [recv] once. On the connection it writes the Upgrade
    request, the frame that carries that Call and the Close frame, nothing
    else. When [recv] returned [None] its [try] block raises "Connection
    closed by server"; when the message has type [REPLY] it ends without
    raising; when it has type [ERROR] it raises "Failed to set store URL"
    with the server's error; an exception of [recv] is raised on.
    [configure_store_url] ends as its [try] block does, unless the [close]
    of its [finally] clause raises because the peer has dropped the link:
    then it raises that connection error. *)
Theorem configure_store_url_single_round_trip
    (urandom : nat -> byte) (urlopen : str -> outcome bytes)
    (open_connection : outcome unit)
    (handshake : str -> bytes -> outcome unit * StreamReader)
    (json_dumps : json -> bytes) (json_loads : str -> outcome json)
    (w : World) (token_body : bytes) (token_text : str) (r0 : StreamReader)
    (store_url : str) (f : bytes) (res : outcome (option json)) (w3 : World) :
  urlopen token_url = Ok token_body ->
  utf8_decode token_body = Some token_text ->
  open_connection = Ok tt ->
  handshake (strip token_text) (map urandom (seq (entropy_used w) 16)) = (Ok tt, r0) ->
  call_frame urandom json_dumps (entropy_used w + 16) CALL 1
             "utilities/settings/set"
             [JStr (lit "store_url"); JStr store_url] = Ok f ->
  recv json_loads
       (after_call w (strip token_text) (map urandom (seq (entropy_used w) 16)) r0 f
                   [LogConnecting; LogSettingStoreURL store_url]) = (res, w3) ->
  let body := configure_body urandom urlopen open_connection handshake
                             json_dumps json_loads store_url
                             (set_client new_client w) in
  let run := configure_store_url urandom urlopen open_connection handshake
                                 json_dumps json_loads store_url w in
  let ends_as (o : outcome unit) :=
    fst body = o /\
    fst run = if close_raises w3 then Raise ConnectionError else o in
  carries_call json_dumps (map urandom (seq (entropy_used w + 16) 4)) CALL 1
               "utilities/settings/set"
               [JStr (lit "store_url"); JStr store_url] f /\
  writer (client (snd run))
    = Some (one_call_and_close urandom w (strip token_text) f) /\
  reader (client (snd run)) = reader (client w3) /\
  (res = Ok None -> ends_as (Raise (RuntimeError ConnectionClosedByServer))) /\
  (forall d, res = Ok (Some (JObj d)) ->
             eq_int (field "type" JNull d) REPLY = true ->
             ends_as (Ok tt)) /\
  (forall d, res = Ok (Some (JObj d)) ->
             eq_int (field "type" JNull d) REPLY = false ->
             eq_int (field "type" JNull d) ERROR = true ->
             ends_as (Raise (RuntimeError
                               (FailedToSetStoreURL (field "error" JNull d))))) /\
  (forall e, res = Raise e -> ends_as (Raise e)).
Proof.
  intros Htoken Htext Hopen Hhs Hf Hrecv body run ends_as.
  set (token := strip token_text) in *.
  set (key := map urandom (seq (entropy_used w) 16)) in *.
  set (sent := after_call w token key r0 f
                 [LogConnecting; LogSettingStoreURL store_url]) in *.
  pose proof (@configure_body_after_call urandom urlopen open_connection handshake
                json_dumps json_loads w token_body token_text r0
                Htoken Htext Hopen Hhs store_url f Hf) as Hbody.
  fold token key sent body in Hbody.
  destruct (recv_state json_loads sent) as (Hwr & Hent & _).
  rewrite Hrecv in Hwr, Hent. cbn [snd] in Hwr, Hent.
  assert (Hstate : client (snd body) = client w3 /\
                   entropy_used (snd body) = entropy_used w3).
  { rewrite Hbody. st_step. rewrite Hrecv.
    destruct res as [[msg|]|e]; [|auto|auto].
    destruct msg as [| | | | |d]; cbn [dict_get]; auto.
    destruct (eq_int (field "type" JNull d) REPLY); [auto|].
    destruct (eq_int (field "type" JNull d) ERROR); auto. }
  destruct Hstate as [Hclient Hentropy].
  assert (Hfst : fst run = finally_close w3 (fst body)).
  { unfold run, configure_store_url. fold body.
    rewrite (@settings_outcome_fst urandom unit _ (set_client new_client w)).
    apply (@finally_close_client unit w3 (snd body) (fst body) Hclient). }
  destruct (@settings_outcome_client urandom unit
              (configure_body urandom urlopen open_connection handshake json_dumps
                              json_loads store_url)
              (set_client new_client w) (mkWriter [Handshake token key; Frame f] false))
    as [Hw Hr].
  { fold body. rewrite Hclient, Hwr. reflexivity. }
  fold body in Hw, Hr.
  split.
  { apply (@call_frame_carries urandom json_dumps (entropy_used w + 16) CALL 1
             "utilities/settings/set"
             [JStr (lit "store_url"); JStr store_url] f Hf). }
  split.
  { unfold run, configure_store_url. rewrite Hw, Hentropy, Hent. reflexivity. }
  split.
  { unfold run, configure_store_url. rewrite Hr, Hclient. reflexivity. }
  assert (Hends : forall o, fst body = o -> ends_as o).
  { intros o Ho. split; [exact Ho|]. rewrite Hfst, Ho. reflexivity. }
  split; [|split; [|split]].
  - intros ->. apply Hends. rewrite Hbody. st_step. rewrite Hrecv. reflexivity.
  - intros d -> Ht. apply Hends. rewrite Hbody. st_step. rewrite Hrecv.
    cbn [dict_get]. rewrite Ht. reflexivity.
  - intros d -> Ht He. apply Hends. rewrite Hbody. st_step. rewrite Hrecv.
    cbn [dict_get]. rewrite Ht, He. reflexivity.
  - intros e ->. apply Hends. rewrite Hbody. st_step. rewrite Hrecv. reflexivity.
Qed.

Lemma installer_sends_install_call_first_witness :
  let catalog := JArr [Ref.plugin (JStr (lit "42")) "demo"
                         [Ref.version "dev" "http://x/a.zip" "abc"]] in
  let args := [JStr (lit "http://x/a.zip"); JStr (lit "demo"); JStr (lit "dev");
               JStr (lit "abc"); JInt 0] in
  exists f,
    call_frame Ref.urandom Ref.json_dumps 16 CALL 1 "utilities/install_plugin" args
    = Ok f /\
    installer_body Ref.urandom (Ref.urlopen catalog) (Ok tt) (Ref.handshake [])
                   Ref.json_dumps Ref.json_loads Ref.int_of_str 3 42 Ref.store_url
                   (set_client new_client Ref.start)
    = install_loop Ref.urandom Ref.json_dumps Ref.json_loads 3
        (after_call Ref.start (lit "tok123") (map Ref.urandom (seq 0 16))
           (mkReader [] Eof) f
           [LogContacting; LogConnectionEstablished 42;
            LogInstalling (JStr (lit "demo")) (JStr (lit "dev"))]).
Proof.
  intros catalog args.
  destruct (call_frame Ref.urandom Ref.json_dumps 16 CALL 1
              "utilities/install_plugin" args) as [f|e] eqn:Hf;
    [|vm_compute in Hf; discriminate].
  exists f. split; [reflexivity|].
  apply (@installer_sends_install_call_first
           Ref.urandom (Ref.urlopen catalog) (Ok tt) (Ref.handshake [])
           Ref.json_dumps Ref.json_loads Ref.int_of_str Ref.start
           (Ref.ascii_bytes " tok123 ") (lit " tok123 ") (mkReader [] Eof)
           Ref.store_url (Ref.json_dumps catalog)
           (map (fun b => N.of_nat (Byte.to_nat b)) (Ref.json_dumps catalog))
           catalog 3%nat 42 args f);
    try (vm_compute; reflexivity).
  exact Hf.
Defined.

Lemma configure_store_url_single_round_trip_witness :
  let reply := JObj [(lit "type", JInt REPLY); (lit "result", JNull)] in
  let run := configure_store_url Ref.urandom (Ref.urlopen (JArr [])) (Ok tt)
               (Ref.handshake (Ref.server_frame x81 (Ref.json_dumps reply)))
               Ref.json_dumps Ref.json_loads (lit "http://s/plugins") Ref.start in
  exists f,
    call_frame Ref.urandom Ref.json_dumps 16 CALL 1 "utilities/settings/set"
               [JStr (lit "store_url"); JStr (lit "http://s/plugins")] = Ok f /\
    writer (client (snd run))
      = Some (one_call_and_close Ref.urandom Ref.start (lit "tok123") f) /\
    reader (client (snd run)) = Some (mkReader [] Eof) /\
    fst run = Ok tt.
Proof.
  intros reply run.
  destruct (call_frame Ref.urandom Ref.json_dumps 16 CALL 1 "utilities/settings/set"
              [JStr (lit "store_url"); JStr (lit "http://s/plugins")])
    as [f|e] eqn:Hf; [|vm_compute in Hf; discriminate].
  exists f. split; [reflexivity|].
  pose proof (@configure_store_url_single_round_trip
                Ref.urandom (Ref.urlopen (JArr [])) (Ok tt)
                (Ref.handshake (Ref.server_frame x81 (Ref.json_dumps reply)))
                Ref.json_dumps Ref.json_loads Ref.start
                (Ref.ascii_bytes " tok123 ") (lit " tok123 ")
                (mkReader (Ref.server_frame x81 (Ref.json_dumps reply)) Eof)
                (lit "http://s/plugins") f
                (Ok (Some reply))
                (set_reader (mkReader [] Eof)
                   (after_call Ref.start (lit "tok123")
                      (map Ref.urandom (seq 0 16))
                      (mkReader (Ref.server_frame x81 (Ref.json_dumps reply)) Eof) f
                      [LogConnecting; LogSettingStoreURL (lit "http://s/plugins")]))
                eq_refl eq_refl eq_refl eq_refl Hf) as H.
  cbv zeta in H. fold run in H.
  destruct H as (_ & Hw & Hr & _ & Hreply & _).
  { vm_compute. reflexivity. }
  split; [exact Hw|]. split; [exact Hr|].
  apply (Hreply [(lit "type", JInt REPLY); (lit "result", JNull)]);
    reflexivity.
Defined.

(* ================================================================== *)
(** * The receive loop and the stream *)
(* ================================================================== *)

Section LoopBound.

Variable urandom : nat -> byte.
Variable json_dumps : json -> bytes.
Variable json_loads : str -> outcome json.

Lemma install_loop_fuel (fuel : nat) :
  forall fuel' w, (pending w < fuel)%nat -> (pending w < fuel')%nat ->
  install_loop urandom json_dumps json_loads fuel' w
  = install_loop urandom json_dumps json_loads fuel w.
Proof.
  induction fuel as [|fuel IH]; intros fuel' w Hw Hw'; [lia|].
  destruct fuel' as [|fuel']; [lia|].
  cbn [install_loop]. st_step.
  destruct (recv json_loads w) as [[[msg|]|e] w1] eqn:Hrecv;
    [|reflexivity|reflexivity].
  apply recv_consumes in Hrecv.
  assert (Hnext : forall w', pending w' = pending w1 ->
    install_loop urandom json_dumps json_loads fuel' w'
    = install_loop urandom json_dumps json_loads fuel w').
  { intros w' Hp. apply IH; lia. }
  destruct msg as [| | | | |d]; cbn [dict_get]; try reflexivity.
  destruct (eq_int (field "type" JNull d) EVENT
            && eq_str (field "event" JNull d) (lit "loader/add_plugin_install_prompt")).
  { destruct (py_len (field "args" (JArr []) d)) as [n|e]; [|reflexivity].
    destruct (n <? 3).
    - apply Hnext. reflexivity.
    - destruct (py_getitem (field "args" (JArr []) d) 2) as [rid|e]; [|reflexivity].
      match goal with
      | |- context [send urandom json_dumps ?t ?m ?a ?x] =>
          pose proof (send_pending urandom json_dumps x t m a) as Hs;
          destruct (send urandom json_dumps t m a x) as [[u|e] w2]
      end; [|reflexivity].
      apply Hnext. cbn [snd] in Hs. exact Hs. }
  destruct (eq_int (field "type" JNull d) EVENT
            && eq_str (field "event" JNull d) (lit "loader/plugin_download_finish"));
    [reflexivity|].
  destruct (eq_int (field "type" JNull d) REPLY); [apply Hnext; reflexivity|].
  destruct (eq_int (field "type" JNull d) ERROR); [apply Hnext; reflexivity|].
  apply Hnext. reflexivity.
Qed.

End LoopBound.

(** X13. The receive loop of [run_installer] ends on every finite stream:
    each message costs at least two bytes of the stream, so with [n] bytes
    to come fewer than [n + 1] iterations are made; the loop then breaks or
    raises, and allowing it more iterations changes nothing of its result
    or of the state it leaves. *)
Theorem install_loop_terminates
    (urandom : nat -> byte) (json_dumps : json -> bytes)
    (json_loads : str -> outcome json) (w : World) (fuel : nat) :
  (pending w < fuel)%nat ->
  fst (install_loop urandom json_dumps json_loads (S (pending w)) w) <> Ok None /\
  install_loop urandom json_dumps json_loads fuel w
  = install_loop urandom json_dumps json_loads (S (pending w)) w.
Proof.
  intros Hfuel. split.
  - apply (@install_loop_ends urandom json_dumps json_loads (S (pending w)) w). lia.
  - apply (@install_loop_fuel urandom json_dumps json_loads (S (pending w)) fuel w); lia.
Qed.

Lemma install_loop_terminates_witness :
  let w := set_reader (mkReader (Ref.server_frame x81 (Ref.json_dumps
                                   (Ref.event "loader/plugin_download_finish" [])))
                                Eof)
                      (set_writer (mkWriter [] false) Ref.start) in
  fst (install_loop Ref.urandom Ref.json_dumps Ref.json_loads (S (pending w)) w)
    <> Ok None /\
  install_loop Ref.urandom Ref.json_dumps Ref.json_loads 1000 w
  = install_loop Ref.urandom Ref.json_dumps Ref.json_loads (S (pending w)) w.
Proof.
  intros w.
  apply (@install_loop_terminates Ref.urandom Ref.json_dumps Ref.json_loads w 1000).
  vm_compute. lia.
Defined.

(** X14. What [send] writes, [recv] reads back: when the serialized message
    is valid UTF-8 that [json.loads] parses to [msg], a [send] on one
    connection appends one frame to what is written, and a peer whose
    stream starts with that frame gets [msg] from [recv] ([None] if [msg]
    is [null]) and is left at the first byte after the frame. *)
Theorem sent_message_is_received
    (urandom : nat -> byte) (json_dumps : json -> bytes)
    (json_loads : str -> outcome json)
    (w peer : World) (wr : StreamWriter) (msg_type : Z) (method : string)
    (args : list json) (f rest : bytes) (e : closing) (s : str) (msg : json) :
  writer (client w) = Some wr ->
  call_frame urandom json_dumps (entropy_used w) msg_type (msg_id (client w) + 1)
             method args = Ok f ->
  utf8_decode (json_dumps (message_dict msg_type (msg_id (client w) + 1)
                                        (lit method) args)) = Some s ->
  json_loads s = Ok msg ->
  reader (client peer) = Some (mkReader (f ++ rest) e) ->
  fst (send urandom json_dumps msg_type method args w) = Ok tt /\
  writer (client (snd (send urandom json_dumps msg_type method args w)))
    = Some (mkWriter (written wr ++ [Frame f]) (writer_closed wr)) /\
  recv json_loads peer = (Ok (as_optional msg), set_reader (mkReader rest e) peer).
Proof.
  intros Hw Hf Hs Hmsg Hpeer.
  rewrite (@send_writes urandom json_dumps w wr msg_type method args f Hw Hf).
  split; [reflexivity|]. split; [reflexivity|].
  apply (@recv_message json_loads peer (mkReader (f ++ rest) e) (mkReader rest e)
           (json_dumps (message_dict msg_type (msg_id (client w) + 1)
                                     (lit method) args)) s msg Hpeer);
    [|exact Hs|exact Hmsg].
  apply (@frame_roundtrip (map urandom (seq (entropy_used w) 4)) _ f rest e);
    [|exact Hf].
  rewrite length_map, length_seq. reflexivity.
Qed.

Lemma sent_message_is_received_witness :
  let w := Ref.connected (mkReader [] Eof) in
  let msg := message_dict CALL 1 (lit "utilities/ping") [JStr (lit "a"); JInt 7] in
  exists f,
    writer (client (snd (send Ref.urandom Ref.json_dumps CALL "utilities/ping"
                              [JStr (lit "a"); JInt 7] w)))
      = Some (mkWriter [Frame f] false) /\
    recv Ref.json_loads (Ref.connected (mkReader (f ++ [x81]) Eof))
      = (Ok (Some msg), Ref.connected (mkReader [x81] Eof)).
Proof.
  intros w msg.
  destruct (call_frame Ref.urandom Ref.json_dumps 0 CALL 1 "utilities/ping"
              [JStr (lit "a"); JInt 7]) as [f|e] eqn:Hf;
    [|vm_compute in Hf; discriminate].
  exists f.
  destruct (@sent_message_is_received Ref.urandom Ref.json_dumps Ref.json_loads
              w (Ref.connected (mkReader (f ++ [x81]) Eof)) (mkWriter [] false)
              CALL "utilities/ping" [JStr (lit "a"); JInt 7] f [x81] Eof
              (map (fun b => N.of_nat (Byte.to_nat b)) (Ref.json_dumps msg)) msg
              eq_refl Hf) as (_ & Hwr & Hrecv);
    [vm_compute; reflexivity|vm_compute; reflexivity|reflexivity|].
  split; [exact Hwr|exact Hrecv].
Defined.

(** X15. [recv] takes one frame at a time: when it returns a message or
    raises on a stream holding the bytes [p], it does the same on every
    stream that starts with [p], whatever follows and however that stream
    ends, and the bytes that follow are left for the next [recv]. *)
Theorem recv_leaves_following_bytes
    (json_loads : str -> outcome json) (w w1 : World) (p q : bytes)
    (e e' : closing) (o : outcome (option json)) :
  reader (client w) = Some (mkReader p e') ->
  recv json_loads w = (o, w1) ->
  o <> Ok None ->
  exists p', w1 = set_reader (mkReader p' e') w /\
    recv json_loads (set_reader (mkReader (p ++ q) e) w)
    = (o, set_reader (mkReader (p' ++ q) e) w).
Proof.
  intros Hr Hrecv Ho.
  rewrite (@recv_unfold json_loads w (mkReader p e') Hr) in Hrecv.
  rewrite (@recv_unfold json_loads (set_reader (mkReader (p ++ q) e) w)
             (mkReader (p ++ q) e) eq_refl).
  pose proof (prefix_stable_read_frame p q e e') as P.
  destruct (read_frame (mkReader p e')) as [[x|ex] r'].
  - destruct P as (p' & -> & ->). exists p'.
    destruct (utf8_decode x) as [s|].
    + destruct (json_loads s) as [m|ej].
      * inversion Hrecv; subst. split; reflexivity.
      * destruct (is_closed_stream_error ej);
          inversion Hrecv; subst; [contradiction|]. split; reflexivity.
    + inversion Hrecv; subst. split; reflexivity.
  - rewrite P in Hrecv. inversion Hrecv; subst. contradiction.
Qed.

Lemma recv_leaves_following_bytes_witness :
  let frame := Ref.server_frame x81 (Ref.json_dumps (JInt 5)) in
  recv Ref.json_loads
       (set_reader (mkReader (frame ++ [x81; x05]) (Reset))
                   (Ref.connected (mkReader frame Eof)))
  = (Ok (Some (JInt 5)),
     set_reader (mkReader ([] ++ [x81; x05]) Reset)
                (Ref.connected (mkReader frame Eof))).
Proof.
  intros frame.
  destruct (@recv_leaves_following_bytes Ref.json_loads
              (Ref.connected (mkReader frame Eof))
              (set_reader (mkReader [] Eof) (Ref.connected (mkReader frame Eof)))
              frame [x81; x05] Reset Eof (Ok (Some (JInt 5)))
              eq_refl) as (p' & Hw1 & Hrecv);
    [vm_compute; reflexivity|discriminate|].
  assert (Hp : p' = []) by (vm_compute in Hw1; congruence).
  rewrite Hp in Hrecv. exact Hrecv.
Defined.

(** X16. [recv] raises only over a payload: when it raises on a connected
    client, a whole frame has been read and taken off the stream, and the
    exception is [UnicodeDecodeError] for a payload that is not UTF-8 or the
    one [json.loads] raised on the text; it is never one of the two errors
    of a closed stream, which [recv] turns into [None]. *)
Theorem recv_raises_only_over_a_payload
    (json_loads : str -> outcome json) (w w1 : World) (r : StreamReader) (x : exn) :
  reader (client w) = Some r ->
  recv json_loads w = (Raise x, w1) ->
  is_closed_stream_error x = false /\
  exists payload r',
    read_frame r = (Ok payload, r') /\
    w1 = set_reader r' w /\
    (length (incoming r') + 2 <= length (incoming r))%nat /\
    ((utf8_decode payload = None /\ x = UnicodeDecodeError) \/
     (exists s, utf8_decode payload = Some s /\ json_loads s = Raise x)).
Proof.
  intros Hr Hrecv.
  rewrite (@recv_unfold json_loads w r Hr) in Hrecv.
  destruct (read_frame r) as [[payload|ex] r'] eqn:E.
  - pose proof (@read_frame_consumes r r' payload E) as Hlen.
    destruct (utf8_decode payload) as [s|] eqn:Hd.
    + destruct (json_loads s) as [m|ej] eqn:Hj; [discriminate|].
      destruct (is_closed_stream_error ej) eqn:Hc; [discriminate|].
      inversion Hrecv; subst. split; [exact Hc|].
      exists payload, r'.
      split; [reflexivity|]. split; [reflexivity|]. split; [exact Hlen|].
      right. exists s. split; [exact Hd|exact Hj].
    + inversion Hrecv; subst. split; [reflexivity|].
      exists payload, r'.
      split; [reflexivity|]. split; [reflexivity|]. split; [exact Hlen|].
      left. split; [exact Hd|reflexivity].
  - rewrite (@read_frame_raises_closed r r' ex E) in Hrecv. discriminate.
Qed.

Lemma recv_raises_only_over_a_payload_witness :
  let r := mkReader (Ref.server_frame x81 [xff] ++ [x00]) Eof in
  is_closed_stream_error UnicodeDecodeError = false /\
  exists payload r',
    read_frame r = (Ok payload, r') /\
    set_reader (mkReader [x00] Eof) (Ref.connected r)
      = set_reader r' (Ref.connected r) /\
    (length (incoming r') + 2 <= length (incoming r))%nat /\
    ((utf8_decode payload = None /\ UnicodeDecodeError = UnicodeDecodeError) \/
     (exists s, utf8_decode payload = Some s /\
                Ref.json_loads s = Raise UnicodeDecodeError)).
Proof.
  intros r.
  apply (@recv_raises_only_over_a_payload Ref.json_loads (Ref.connected r)
           (set_reader (mkReader [x00] Eof) (Ref.connected r)) r UnicodeDecodeError).
  - reflexivity.
  - vm_compute. reflexivity.
Defined.

(* ================================================================== *)
(** * The header loop of connect *)
(* ================================================================== *)

Lemma is_prefix_app_l (n a b : bytes) :
  is_prefix n a = true -> is_prefix n (a ++ b) = true.
Proof.
  revert a. induction n as [|x n IH]; intros a H; [reflexivity|].
  destruct a as [|y a]; [discriminate|].
  cbn [is_prefix app] in *. apply andb_true_iff in H. destruct H as [H1 H2].
  rewrite H1, (IH a H2). reflexivity.
Qed.

Lemma is_prefix_self (n b : bytes) : is_prefix n (n ++ b) = true.
Proof.
  induction n as [|x n IH]; [reflexivity|].
  cbn [is_prefix app]. rewrite IH, (Byte.byte_dec_lb eq_refl). reflexivity.
Qed.

Lemma contains_unfold (n hay : bytes) :
  contains n hay
  = is_prefix n hay || match hay with [] => false | _ :: hay' => contains n hay' end.
Proof. destruct hay; reflexivity. Qed.

Lemma contains_app_l (n a b : bytes) :
  contains n a = true -> contains n (a ++ b) = true.
Proof.
  induction a as [|y a IH]; intros H.
  - cbn [contains] in H. rewrite orb_false_r in H.
    destruct n; [|discriminate]. rewrite contains_unfold. reflexivity.
  - cbn [app]. cbn [contains] in *. apply orb_true_iff in H. destruct H as [H|H].
    + pose proof (@is_prefix_app_l n (y :: a) b H) as H'. cbn [app] in H'.
      rewrite H'. reflexivity.
    + rewrite (IH H). apply orb_true_r.
Qed.

Lemma contains_app_r (n a b : bytes) :
  contains n b = true -> contains n (a ++ b) = true.
Proof.
  intros H. induction a as [|y a IH]; [exact H|].
  cbn [app contains]. rewrite IH. apply orb_true_r.
Qed.

Lemma contains_middle (n a b : bytes) : contains n (a ++ n ++ b) = true.
Proof.
  apply contains_app_r. rewrite contains_unfold, is_prefix_self. reflexivity.
Qed.

Lemma header_loop_unfold (header_data : bytes) (reads : list bytes) :
  header_loop header_data reads
  = if contains CRLFCRLF header_data then
      (if contains SWITCHING header_data then Switched
       else HandshakeFailed header_data, reads)
    else
      match reads with
      | [] => (ClosedDuringHandshake, [])
      | chunk :: rest =>
          match chunk with
          | [] => (ClosedDuringHandshake, rest)
          | _ :: _ => header_loop (header_data ++ chunk) rest
          end
      end.
Proof. destruct reads; reflexivity. Qed.

(** X17. The header loop of [connect] takes whole reads: from the bytes
    [header_data] it holds, it stops after the first read with which the
    bytes accumulated contain a blank line, and every byte of the reads
    taken is used up, so that [recv] starts at the next read. The answer is
    accepted when [101 Switching Protocols] occurs anywhere in the bytes
    accumulated and refused with them otherwise; the stream ending before a
    blank line gives the connection error. *)
Theorem header_loop_takes_whole_reads (reads : list bytes) :
  forall header_data, exists taken,
    Forall (fun c => c <> []) taken /\
    (forall t1 c t2, taken = t1 ++ c :: t2 ->
                     contains CRLFCRLF (header_data ++ concat t1) = false) /\
    match fst (header_loop header_data reads) with
    | Switched =>
        reads = taken ++ snd (header_loop header_data reads) /\
        contains CRLFCRLF (header_data ++ concat taken) = true /\
        contains SWITCHING (header_data ++ concat taken) = true
    | HandshakeFailed h =>
        reads = taken ++ snd (header_loop header_data reads) /\
        h = header_data ++ concat taken /\
        contains CRLFCRLF h = true /\ contains SWITCHING h = false
    | ClosedDuringHandshake =>
        contains CRLFCRLF (header_data ++ concat taken) = false /\
        (reads = taken /\ snd (header_loop header_data reads) = [] \/
         reads = taken ++ [] :: snd (header_loop header_data reads))
    end.
Proof.
  induction reads as [|chunk rest IH]; intros hd; rewrite header_loop_unfold;
    destruct (contains CRLFCRLF hd) eqn:Hc.
  - exists []. split; [constructor|]. split; [intros [|? ?]; discriminate|].
    destruct (contains SWITCHING hd) eqn:Hs; cbn [fst snd concat app];
      rewrite ?app_nil_r; auto.
  - exists []. split; [constructor|]. split; [intros [|? ?]; discriminate|].
    cbn [fst snd concat app]. rewrite ?app_nil_r. auto.
  - exists []. split; [constructor|]. split; [intros [|? ?]; discriminate|].
    destruct (contains SWITCHING hd) eqn:Hs; cbn [fst snd concat app];
      rewrite ?app_nil_r; auto.
  - destruct chunk as [|b chunk].
    + exists []. split; [constructor|]. split; [intros [|? ?]; discriminate|].
      cbn [fst snd concat app]. rewrite ?app_nil_r. auto.
    + destruct (IH (hd ++ b :: chunk)) as (taken & Hne & Hmin & Hend).
      exists ((b :: chunk) :: taken).
      split; [constructor; [discriminate|exact Hne]|].
      split.
      { intros [|c1 t1] c t2 Ht.
        - cbn [concat]. rewrite app_nil_r. exact Hc.
        - cbn [app] in Ht. inversion Ht; subst.
          cbn [concat]. rewrite app_assoc. apply (Hmin t1 c t2). reflexivity. }
      cbn [concat]. rewrite (app_assoc hd (b :: chunk) (concat taken)).
      destruct (fst (header_loop (hd ++ b :: chunk) rest)).
      * destruct Hend as (H1 & H2 & H3). cbn [app]. rewrite <- H1. auto.
      * destruct Hend as (H1 & [[H2 H3]|H2]).
        -- split; [exact H1|]. left. cbn [app]. rewrite <- H2. auto.
        -- split; [exact H1|]. right. cbn [app]. rewrite <- H2. reflexivity.
      * destruct Hend as (H1 & H2 & H3 & H4). cbn [app]. rewrite <- H1. auto.
Qed.

Lemma header_loop_one_read (chunk : bytes) (rest : list bytes) :
  chunk <> [] ->
  contains CRLFCRLF chunk = true ->
  header_loop [] (chunk :: rest)
  = (if contains SWITCHING chunk then Switched else HandshakeFailed chunk, rest).
Proof.
  intros Hne Hc. rewrite header_loop_unfold.
  change (contains CRLFCRLF []) with false. cbv iota.
  destruct chunk as [|b chunk]; [contradiction|].
  cbn [app]. rewrite header_loop_unfold, Hc. reflexivity.
Qed.

(** X18. A frame the server sends right behind its answer is lost when
    both arrive in one read of at most 1024 bytes: the header loop takes the
    read whole and the first [recv] finds an empty stream and returns
    [None]. The same bytes arriving in two reads, split at the end of the
    headers, are accepted alike and the first [recv] returns the message. *)
Theorem frame_behind_the_headers_is_lost
    (json_loads : str -> outcome json) (w : World)
    (headers frame payload : bytes) (e : closing) (s : str) (msg : json) :
  contains SWITCHING headers = true ->
  (length (headers ++ CRLFCRLF ++ frame) <= 1024)%nat ->
  read_frame (mkReader frame e) = (Ok payload, mkReader [] e) ->
  utf8_decode payload = Some s ->
  json_loads s = Ok msg ->
  fst (header_loop [] [headers ++ CRLFCRLF ++ frame]) = Switched /\
  fst (recv json_loads
         (set_reader (reader_after_handshake [headers ++ CRLFCRLF ++ frame] e) w))
    = Ok None /\
  fst (header_loop [] [headers ++ CRLFCRLF; frame]) = Switched /\
  fst (recv json_loads
         (set_reader (reader_after_handshake [headers ++ CRLFCRLF; frame] e) w))
    = Ok (as_optional msg).
Proof.
  intros Hs _ Hframe Hd Hj.
  assert (Hone : header_loop [] [headers ++ CRLFCRLF ++ frame] = (Switched, [])).
  { assert (Hne : headers ++ CRLFCRLF ++ frame <> [])
      by (destruct headers; discriminate).
    pose proof (@header_loop_one_read (headers ++ CRLFCRLF ++ frame) [] Hne
                  (contains_middle CRLFCRLF headers frame)) as H.
    rewrite (@contains_app_l SWITCHING headers (CRLFCRLF ++ frame) Hs) in H.
    exact H. }
  assert (Htwo : header_loop [] [headers ++ CRLFCRLF; frame] = (Switched, [frame])).
  { assert (Hne : headers ++ CRLFCRLF <> [])
      by (destruct headers; discriminate).
    pose proof (contains_middle CRLFCRLF headers []) as Hc.
    rewrite app_nil_r in Hc.
    pose proof (@header_loop_one_read (headers ++ CRLFCRLF) [frame] Hne Hc) as H.
    rewrite (@contains_app_l SWITCHING headers CRLFCRLF Hs) in H.
    exact H. }
  unfold reader_after_handshake. rewrite Hone, Htwo. cbn [fst snd concat].
  rewrite app_nil_r.
  split; [reflexivity|]. split; [|split; [reflexivity|]].
  - rewrite (@recv_unfold json_loads (set_reader (mkReader [] e) w)
               (mkReader [] e) eq_refl).
    destruct e; reflexivity.
  - rewrite (@recv_unfold json_loads (set_reader (mkReader frame e) w)
               (mkReader frame e) eq_refl).
    rewrite Hframe, Hd, Hj. reflexivity.
Qed.

Lemma frame_behind_the_headers_is_lost_witness :
  let headers := bytes_lit "HTTP/1.1 101 Switching Protocols" in
  let msg := Ref.event "loader/plugin_download_finish" [] in
  let frame := Ref.server_frame x81 (Ref.json_dumps msg) in
  fst (recv Ref.json_loads
         (set_reader (reader_after_handshake [headers ++ CRLFCRLF ++ frame] Eof)
                     Ref.start)) = Ok None /\
  fst (recv Ref.json_loads
         (set_reader (reader_after_handshake [headers ++ CRLFCRLF; frame] Eof)
                     Ref.start)) = Ok (Some msg).
Proof.
  intros headers msg frame.
  destruct (@frame_behind_the_headers_is_lost Ref.json_loads Ref.start
              headers frame (Ref.json_dumps msg) Eof
              (map (fun b => N.of_nat (Byte.to_nat b)) (Ref.json_dumps msg)) msg)
    as (_ & Hlost & _ & Hgot);
    [vm_compute; reflexivity|vm_compute; lia|vm_compute; reflexivity
    |vm_compute; reflexivity|vm_compute; reflexivity|].
  split; [exact Hlost|exact Hgot].
Defined.

(* ================================================================== *)
(** * What a successful install has seen *)
(* ================================================================== *)

Lemma bind_ok {S A B : Type} (c : ST S A) (k : A -> ST S B) (w w' : S) (b : B) :
  bind c k w = (Ok b, w') ->
  exists a w1, c w = (Ok a, w1) /\ k a w1 = (Ok b, w').
Proof.
  unfold bind. destruct (c w) as [[a|e] w1]; [|discriminate].
  intros H. exists a, w1. split; [reflexivity|exact H].
Qed.

Section Success.

Variable urandom : nat -> byte.
Variable json_dumps : json -> bytes.
Variable json_loads : str -> outcome json.

Lemma install_loop_success (fuel : nat) :
  forall w w',
    install_loop urandom json_dumps json_loads fuel w = (Ok (Some true), w') ->
    exists w0 w1 d,
      recv json_loads w0 = (Ok (Some (JObj d)), w1) /\
      is_event "loader/plugin_download_finish" d = true /\
      w' = mkWorld (client w1) (entropy_used w1)
                   (stderr w1 ++ [LogInstallationSuccessful (field "args" JNull d)]).
Proof.
  induction fuel as [|fuel IH]; intros w w'; [discriminate|].
  cbn [install_loop]. st_step.
  destruct (recv json_loads w) as [[[msg|]|e] w1] eqn:Hrecv;
    [|discriminate|discriminate].
  destruct msg as [| | | | |d]; cbn [dict_get]; try discriminate.
  destruct (eq_int (field "type" JNull d) EVENT
            && eq_str (field "event" JNull d) (lit "loader/add_plugin_install_prompt")).
  { destruct (py_len (field "args" (JArr []) d)) as [n|e]; [|discriminate].
    destruct (n <? 3); [apply IH|].
    destruct (py_getitem (field "args" (JArr []) d) 2) as [rid|e]; [|discriminate].
    match goal with
    | |- context [send urandom json_dumps ?t ?m ?a ?x] =>
        destruct (send urandom json_dumps t m a x) as [[u|e] w2]
    end; [apply IH|discriminate]. }
  destruct (eq_int (field "type" JNull d) EVENT
            && eq_str (field "event" JNull d) (lit "loader/plugin_download_finish"))
    eqn:Hfin.
  { intros H. inversion H. exists w, w1, d.
    split; [exact Hrecv|]. split; [exact Hfin|reflexivity]. }
  destruct (eq_int (field "type" JNull d) REPLY); [apply IH|].
  destruct (eq_int (field "type" JNull d) ERROR); apply IH.
Qed.

End Success.

(** X19. [run_installer] returns only after the finish event: in every run
    that returns without raising, some [recv] has returned a dict with type
    [EVENT] and event [loader/plugin_download_finish], and the last line
    logged is the success line with the [args] of that message. *)
Theorem success_needs_the_finish_event
    (urandom : nat -> byte) (urlopen : str -> outcome bytes)
    (open_connection : outcome unit)
    (handshake : str -> bytes -> outcome unit * StreamReader)
    (json_dumps : json -> bytes) (json_loads : str -> outcome json)
    (int_of_str : str -> option Z)
    (fuel : nat) (target_id : Z) (store_url : str) (w : World) :
  fst (run_installer urandom urlopen open_connection handshake json_dumps
                     json_loads int_of_str fuel target_id store_url w)
    = Ok (Some tt) ->
  exists w0 w1 d,
    recv json_loads w0 = (Ok (Some (JObj d)), w1) /\
    is_event "loader/plugin_download_finish" d = true /\
    stderr (snd (run_installer urandom urlopen open_connection handshake json_dumps
                               json_loads int_of_str fuel target_id store_url w))
    = stderr w1 ++ [LogInstallationSuccessful (field "args" JNull d)].
Proof.
  unfold run_installer, installer_outcome.
  destruct (installer_body urandom urlopen open_connection handshake json_dumps
              json_loads int_of_str fuel target_id store_url (set_client new_client w))
    as [[[b|]|e] w'] eqn:E.
  - st_step. pose proof (close_stderr urandom w') as Hs.
    destruct (close urandom w') as [[u|e] w2]; cbn [fst snd] in *; [|discriminate].
    destruct b; [|discriminate]. intros _. cbn [snd]. rewrite Hs.
    unfold installer_body in E.
    repeat (apply bind_ok in E; destruct E as (? & ? & _ & E)).
    destruct (@install_loop_success urandom json_dumps json_loads fuel _ _ E)
      as (w0 & w1 & d & Hrecv & Hev & ->).
    exists w0, w1, d. split; [exact Hrecv|]. split; [exact Hev|reflexivity].
  - discriminate.
  - st_step. 
    match goal with
    | |- context [close urandom ?x] => destruct (close urandom x) as [[u|e'] w2]
    end; discriminate.
Qed.

Lemma success_needs_the_finish_event_witness :
  let catalog := JArr [Ref.plugin (JStr (lit "42")) "demo"
                         [Ref.version "dev" "http://x/a.zip" "abc"]] in
  let frames := Ref.server_frame x81 (Ref.json_dumps
                  (Ref.event "loader/plugin_download_finish" [JInt 1])) in
  exists w0 w1 d,
    recv Ref.json_loads w0 = (Ok (Some (JObj d)), w1) /\
    is_event "loader/plugin_download_finish" d = true /\
    stderr (snd (run_installer Ref.urandom (Ref.urlopen catalog) (Ok tt)
                   (Ref.handshake frames) Ref.json_dumps Ref.json_loads
                   Ref.int_of_str 2 42 Ref.store_url Ref.start))
    = stderr w1 ++ [LogInstallationSuccessful (field "args" JNull d)].
Proof.
  intros catalog frames.
  apply (@success_needs_the_finish_event Ref.urandom (Ref.urlopen catalog) (Ok tt)
           (Ref.handshake frames) Ref.json_dumps Ref.json_loads Ref.int_of_str
           2 42 Ref.store_url Ref.start).
  vm_compute. reflexivity.
Defined.
